(** * tplot/figure.py: a shallow embedding of [Figure] and its draw pipeline

    The module under study is [src/tplot/figure.py].  It relies on
    - Python builtins ([min], [max], [round], [int], [str.center], slicing,
      the [".2g"] format, [set]),
    - numpy's two-dimensional array of one-character strings
      ([np.empty], integer and slice indexing, assignment through views),
    - the sibling modules [scales.py] and [utils.py] (the scale objects,
      [is_numerical], [best_ticks], [plot_line_segment]).

    Builtins and numpy are modelled once, below.  Floating point numbers are
    idealised as exact rationals ([Q]).  The sibling modules are an
    interface ([Helpers]); general theorems hold for every implementation
    of it, concrete runs use the instance written from the specification. *)

From Stdlib Require Import ZArith QArith Qround Qabs Lia Bool Ascii String DecimalString.
From stdpp Require Import base tactics option list.

Local Open Scope string_scope.
Local Open Scope Z_scope.

(** ** Exceptions and results *)

(** The Python exceptions the module can raise by itself, and those of the
    sibling modules, which are only known by the name the specification
    gives them. *)
Inductive exn : Type :=
  | AssertionError
  | TypeError
  | ValueError
  | IndexError
  | ZeroDivisionError
  | UnboundLocalError
  | HelperError (name : string).

Inductive result (A : Type) : Type :=
  | Ok (a : A)
  | Raise (e : exn).
Arguments Ok {A} a.
Arguments Raise {A} e.

Definition rbind {A B} (r : result A) (k : A -> result B) : result B :=
  match r with
  | Ok a => k a
  | Raise e => Raise e
  end.

Declare Scope result_scope.
Delimit Scope result_scope with res.
Notation "'let?' x ':=' r 'in' k" := (rbind r (fun x => k))
  (at level 10, x pattern, r at level 100, k at level 200) : result_scope.
Local Open Scope result_scope.

Definition is_ok {A} (r : result A) : bool :=
  match r with Ok _ => true | Raise _ => false end.

(** Left-to-right traversal of a list by a fallible function: the list
    comprehension or vectorised call that stops at the first exception. *)
Fixpoint rmap {A B} (g : A -> result B) (l : list A) : result (list B) :=
  match l with
  | [] => Ok []
  | a :: l' =>
      let? b := g a in
      let? bs := rmap g l' in
      Ok (b :: bs)
  end.

(** A [for] loop over a list whose body updates an accumulator and may raise. *)
Fixpoint rfold {A S} (body : S -> A -> result S) (l : list A) (s : S) : result S :=
  match l with
  | [] => Ok s
  | a :: l' =>
      let? s' := body s a in
      rfold body l' s'
  end.

(** ** Python values and builtins *)

(** A data value of an axis: a number or a label. *)
Inductive value : Type :=
  | VNum (q : Q)
  | VStr (s : string).

Definition value_eqb (a b : value) : bool :=
  match a, b with
  | VNum p, VNum q => Qeq_bool p q
  | VStr s, VStr t => String.eqb s t
  | _, _ => false
  end.

(** [a < b] between two values; numbers and strings do not compare. *)
Definition value_ltb (a b : value) : result bool :=
  match a, b with
  | VNum p, VNum q => Ok (negb (Qle_bool q p))
  | VStr s, VStr t => Ok (String.ltb s t)
  | _, _ => Raise TypeError
  end.

(** [min(seq)]: the first least element; [ValueError] on an empty sequence. *)
Definition py_min (l : list value) : result value :=
  match l with
  | [] => Raise ValueError
  | a :: l' =>
      rfold (fun m v => let? lt := value_ltb v m in Ok (if lt then v else m)) l' a
  end.

(** [max(seq)]: the first greatest element; [ValueError] on an empty sequence. *)
Definition py_max (l : list value) : result value :=
  match l with
  | [] => Raise ValueError
  | a :: l' =>
      rfold (fun m v => let? gt := value_ltb m v in Ok (if gt then v else m)) l' a
  end.

(** [max] of a list of integers (the lengths of strings). *)
Definition py_max_Z (l : list Z) : result Z :=
  match l with
  | [] => Raise ValueError
  | a :: l' => Ok (fold_left Z.max l' a)
  end.

(** [set(seq)]: the distinct elements.  Python fixes no iteration order for
    a set; the list below keeps first occurrences and is only a
    representation: nothing in the module can observe its order, since a
    set cannot be indexed. *)
Fixpoint py_set (l : list value) : list value :=
  match l with
  | [] => []
  | v :: l' => v :: List.filter (fun w => negb (value_eqb v w)) (py_set l')
  end.

(** [round(q)]: to the nearest integer, ties to the even one. *)
Definition py_round (q : Q) : Z :=
  let f := Qfloor q in
  match ((q - inject_Z f) ?= (1 # 2))%Q with
  | Lt => f
  | Gt => f + 1
  | Eq => if Z.even f then f else f + 1
  end.

(** [int(q)]: truncation towards zero. *)
Definition py_int (q : Q) : Z :=
  if Qle_bool 0 q then Qfloor q else Qceiling q.

(** [a // b] on integers. *)
Definition py_floordiv (a b : Z) : result Z :=
  if b =? 0 then Raise ZeroDivisionError else Ok (a / b).

(** [bool(s)] for an optional string: [None] and [""] are false. *)
Definition truthy (s : option string) : bool :=
  match s with
  | Some (String _ _) => true
  | _ => false
  end.

Definition Z_of_bool (b : bool) : Z := if b then 1 else 0.

Definition len (s : string) : Z := Z.of_nat (String.length s).

Fixpoint repeat_char (c : ascii) (n : nat) : string :=
  match n with
  | O => EmptyString
  | S n' => String c (repeat_char c n')
  end.

(** [s[:n]]; a negative [n] counts from the end. *)
Definition str_upto (s : string) (n : Z) : string :=
  let k := if n <? 0 then Z.max 0 (len s + n) else n in
  String.substring 0 (Z.to_nat k) s.

(** [s.ljust(width, fillchar)] *)
Definition ljust (s : string) (width : Z) (fillchar : ascii) : string :=
  s ++ repeat_char fillchar (Z.to_nat (width - len s)).

(** [s.rjust(width, fillchar)] *)
Definition rjust (s : string) (width : Z) (fillchar : ascii) : string :=
  repeat_char fillchar (Z.to_nat (width - len s)) ++ s.

(** [s.center(width, fillchar)]: CPython puts
    [marg / 2 + (marg & width & 1)] fill characters on the left. *)
Definition center (s : string) (width : Z) (fillchar : ascii) : string :=
  let marg := width - len s in
  if marg <=? 0 then s
  else
    let left := marg / 2 + Z.land (Z.land marg width) 1 in
    repeat_char fillchar (Z.to_nat left) ++ s
      ++ repeat_char fillchar (Z.to_nat (marg - left)).

(** [list(s)] *)
Definition chars (s : string) : list ascii := list_ascii_of_string s.

(** *** The [".2g"] format *)

Definition pow10 (k : Z) : Q := Qpower (10 # 1) k.

Fixpoint ilog10_go (fuel : nat) (a : Q) (k : Z) : Z :=
  match fuel with
  | O => k
  | S fuel' => if Qle_bool (pow10 (k + 1)) a then ilog10_go fuel' a (k + 1) else k
  end.

(** The decimal exponent of a positive rational: [10^e <= a < 10^(e+1)]. *)
Definition ilog10 (a : Q) : Z :=
  let n := Z.log2 (Qnum a) in
  let d := Z.log2 (Zpos (Qden a)) in
  ilog10_go (Z.to_nat (n + d + 3)) a (- (d + 1)).

Definition digits (n : Z) : string :=
  NilZero.string_of_uint (N.to_uint (Z.to_N n)).

(** [format(q, ".2g")]: two significant digits, trailing zeros removed,
    exponent notation when the decimal exponent is below -4 or at least 2. *)
Definition format_2g (q : Q) : string :=
  if Qeq_bool q 0 then "0"
  else
    let a := Qabs q in
    let e0 := ilog10 a in
    let m0 := py_round (a / pow10 (e0 - 1)) in
    let '(m, e) := if m0 =? 100 then (10, e0 + 1) else (m0, e0) in
    let d1 := digits (m / 10) in
    let d2 := if m mod 10 =? 0 then "" else digits (m mod 10) in
    let frac := if m mod 10 =? 0 then "" else "." ++ d2 in
    let sign := if Qle_bool 0 q then "" else "-" in
    if (e <? -4) || (2 <=? e) then
      let ee := Z.abs e in
      sign ++ d1 ++ frac ++ "e" ++ (if e <? 0 then "-" else "+")
        ++ (if ee <? 10 then "0" else "") ++ digits ee
    else if e =? 1 then sign ++ digits m
    else if e =? 0 then sign ++ d1 ++ frac
    else sign ++ "0." ++ repeat_char "0" (Z.to_nat (- e - 1)) ++ d1 ++ d2.

(** [s.startswith(p)] and [s.endswith(p)] *)
Definition startswith (s p : string) : bool := String.prefix p s.

Definition endswith (s p : string) : bool :=
  let n := String.length s in
  let k := String.length p in
  (k <=? n)%nat && String.eqb (String.substring (n - k) k s) p.

(** ["\n".join(rows)] *)
Fixpoint join_lines (rows : list string) : string :=
  match rows with
  | [] => ""
  | [r] => r
  | r :: rest => r ++ String "010" (join_lines rest)
  end.

(** ** numpy: the character grid *)

(** A two-dimensional array of one-character strings: its shape and its
    rows, row 0 first. *)
Record ndarray : Type := {
  nrows : nat;
  ncols : nat;
  cells : list (list ascii)
}.

(** [np.empty((h, w), dtype="U1")]: every cell holds the empty string
    (code point 0); a negative dimension is refused. *)
Definition np_empty (h w : Z) : result ndarray :=
  if (h <? 0) || (w <? 0) then Raise ValueError
  else Ok {| nrows := Z.to_nat h; ncols := Z.to_nat w;
             cells := replicate (Z.to_nat h) (replicate (Z.to_nat w) zero) |}.

(** An integer index along an axis of length [n]: negative indices count
    from the end, anything else is out of bounds. *)
Definition index (n : nat) (i : Z) : result nat :=
  if (0 <=? i) && (i <? Z.of_nat n) then Ok (Z.to_nat i)
  else if (- Z.of_nat n <=? i) && (i <? 0) then Ok (Z.to_nat (i + Z.of_nat n))
  else Raise IndexError.

(** One bound of a slice along an axis of length [n]: clipped, never an error. *)
Definition slice_bound (n : nat) (i : Z) : nat :=
  Z.to_nat (if i <? 0 then Z.max 0 (i + Z.of_nat n) else Z.min i (Z.of_nat n)).

(** The positions selected by [start:stop] ([None] for an omitted bound). *)
Definition slice (n : nat) (start stop : option Z) : list nat :=
  let lo := from_option (slice_bound n) 0%nat start in
  let hi := from_option (slice_bound n) n stop in
  seq lo (hi - lo).

(** A view is the list of the cells it denotes, in order. *)
Definition view : Type := list (nat * nat).

(** [a[i, start:stop]] *)
Definition row_view (a : ndarray) (i : Z) (start stop : option Z) : result view :=
  let? r := index (nrows a) i in
  Ok (map (fun c => (r, c)) (slice (ncols a) start stop)).

(** [a[start:stop, j]] *)
Definition col_view (a : ndarray) (start stop : option Z) (j : Z) : result view :=
  let? c := index (ncols a) j in
  Ok (map (fun r => (r, c)) (slice (nrows a) start stop)).

(** [a[i, j]] as the target of an assignment *)
Definition cell_view (a : ndarray) (i j : Z) : result view :=
  let? r := index (nrows a) i in
  let? c := index (ncols a) j in
  Ok [(r, c)].

Definition set_cell (ch : ascii) (cs : list (list ascii)) (rc : nat * nat)
  : list (list ascii) :=
  alter (fun row => <[rc.2 := ch]> row) rc.1 cs.

(** The character in row [r], column [c], if there is such a cell. *)
Definition cell_of (cs : list (list ascii)) (r c : nat) : option ascii :=
  cs !! r ≫= fun row => row !! c.

Definition get_cell (a : ndarray) (r c : nat) : option ascii :=
  cell_of (cells a) r c.

(** Writing characters to cells one after the other; a later write wins. *)
Definition paint (ps : list ((nat * nat) * ascii)) (cs : list (list ascii))
  : list (list ascii) :=
  fold_left (fun cs p => set_cell p.2 cs p.1) ps cs.

(** [view[...] = ch]: one character written to every cell of the view. *)
Definition store (a : ndarray) (v : view) (ch : ascii) : ndarray :=
  {| nrows := nrows a; ncols := ncols a;
     cells := paint (map (fun rc => (rc, ch)) v) (cells a) |}.

(** [view[...] = l] for a list of characters: the list must be as long as
    the view, or hold one element, which is then broadcast. *)
Definition store_list (a : ndarray) (v : view) (l : list ascii) : result ndarray :=
  if (length l =? length v)%nat then
    Ok {| nrows := nrows a; ncols := ncols a;
          cells := paint (zip v l) (cells a) |}
  else
    match l with
    | [ch] => Ok (store a v ch)
    | _ => Raise ValueError
    end.

(** [a[:] = ch] *)
Definition fill (a : ndarray) (ch : ascii) : ndarray :=
  {| nrows := nrows a; ncols := ncols a;
     cells := replicate (nrows a) (replicate (ncols a) ch) |}.

(** [a.tolist()] with every row joined into a string *)
Definition tolist (a : ndarray) : list string :=
  map string_of_list_ascii (cells a).

(** ** The sibling modules [scales.py] and [utils.py] *)

(** What [figure.py] imports with [from .scales import *] and
    [from .utils import *].  A scale object is created unfitted, [fit]
    (re)computes it, [transform] maps one value to a real position; the
    vectorised [transform(values)] maps the values one by one. *)
Class Helpers : Type := {
  Scale : Type;
  LinearScale : Scale;
  NominalScale : Scale;
  fit : Scale -> list value -> Z -> Z -> result Scale;
  transform : Scale -> value -> result Q;
  is_numerical : list value -> bool;
  best_ticks : value -> value -> Z -> result (list value);
  plot_line_segment : Z -> Z -> Z -> Z -> list (Z * Z)
}.

Definition transform_seq `{Helpers} (sc : Scale) (l : list value) : result (list Q) :=
  rmap (transform sc) l.

(** ** The figure *)

(** The value of [_ytick_values] / [_xtick_values]: the sequence returned
    by [best_ticks], or a Python [set]. *)
Inductive ticks : Type :=
  | TickList (l : list value)
  | TickSet (l : list value).

(** Iteration over the ticks. *)
Definition ticks_elems (t : ticks) : list value :=
  match t with TickList l | TickSet l => l end.

(** [t[i]]: a set is not subscriptable. *)
Definition ticks_getitem (t : ticks) (i : Z) : result value :=
  match t with
  | TickSet _ => Raise TypeError
  | TickList l =>
      let? k := index (length l) i in
      match l !! k with Some v => Ok v | None => Raise IndexError end
  end.

(** A registered plot: [partial(draw_..., x=x, y=y, marker=marker)]. *)
Inductive plot_func : Type := Scatter | Line | Bar | HBar.

Record plot : Type := {
  func : plot_func;
  keywords_x : list value;
  keywords_y : list value;
  keywords_marker : ascii
}.

Section Figure.
Context `{Helpers}.

(** The attributes of a [Figure] instance.  A [cached_property] stores its
    value in the instance under the property's name on first successful
    evaluation; these slots are the [cached_...] fields. *)
Record Figure : Type := {
  xlabel : option string;
  ylabel : option string;
  title : option string;
  legendloc : string;
  xticklabel_length : Z;
  width : Z;
  height : Z;
  _plots : list plot;
  _labels : list (ascii * string);
  cached_yscale : option Scale;
  cached_xscale : option Scale;
  cached_yax_width : option Z;
  cached_ytick_values : option ticks;
  cached_xtick_values : option ticks
}.

(** [Figure.__init__].  [term] is what [get_terminal_size(fallback=(80, 24))]
    reports.  The defaults of the keyword arguments are [None] for the
    labels and sizes, ["topright"] and [7]. *)
Definition __init__ (term : Z * Z)
    (xlabel ylabel title : option string) (width height : option Z)
    (legendloc : string) (xticklabel_length : Z) : result Figure :=
  let term_width := term.1 in
  let term_height := term.2 - 1 in
  Ok {| xlabel := xlabel; ylabel := ylabel; title := title;
        legendloc := legendloc; xticklabel_length := xticklabel_length;
        width := match width with
                 | Some w => if w =? 0 then term_width else w
                 | None => term_width
                 end;
        height := match height with
                  | Some h => if h =? 0 then term_height else h
                  | None => term_height
                  end;
        _plots := []; _labels := [];
        cached_yscale := None; cached_xscale := None;
        cached_yax_width := None;
        cached_ytick_values := None; cached_xtick_values := None |}.

(** *** Methods: state passing with exceptions

    A method takes the instance and returns the (possibly updated) instance
    together with its result or the exception raised.  Attributes written
    before an exception stay written. *)
Definition M (A : Type) : Type := Figure -> Figure * result A.

Definition ret {A} (a : A) : M A := fun self => (self, Ok a).

Definition bind {A B} (m : M A) (k : A -> M B) : M B :=
  fun self =>
    match m self with
    | (self', Ok a) => k a self'
    | (self', Raise e) => (self', Raise e)
    end.

(** A computation that does not touch the instance. *)
Definition lift {A} (r : result A) : M A := fun self => (self, r).

(** Reading an attribute or a plain property. *)
Definition attr {A} (proj : Figure -> A) : M A := fun self => (self, Ok (proj self)).

(** A computation that reads the instance and may raise. *)
Definition reading {A} (g : Figure -> result A) : M A := fun self => (self, g self).

Definition modify (g : Figure -> Figure) : M unit := fun self => (g self, Ok tt).

Notation "'let!' x ':=' m 'in' k" := (bind m (fun x => k))
  (at level 10, x pattern, m at level 100, k at level 200).

(** A [for] loop whose body is a method call. *)
Fixpoint for_each {A S} (l : list A) (body : S -> A -> M S) (s : S) : M S :=
  match l with
  | [] => ret s
  | a :: l' =>
      let! s' := body s a in
      for_each l' body s'
  end.

(** [functools.cached_property] *)
Definition cached_property {A} (slot : Figure -> option A)
    (store_slot : A -> Figure -> Figure) (body : M A) : M A :=
  fun self =>
    match slot self with
    | Some v => (self, Ok v)
    | None =>
        match body self with
        | (self', Ok v) => (store_slot v self', Ok v)
        | (self', Raise e) => (self', Raise e)
        end
    end.

Definition set_yscale (v : Scale) (f : Figure) : Figure :=
  {| xlabel := xlabel f; ylabel := ylabel f; title := title f;
     legendloc := legendloc f; xticklabel_length := xticklabel_length f;
     width := width f; height := height f;
     _plots := _plots f; _labels := _labels f;
     cached_yscale := Some v; cached_xscale := cached_xscale f;
     cached_yax_width := cached_yax_width f;
     cached_ytick_values := cached_ytick_values f;
     cached_xtick_values := cached_xtick_values f |}.

Definition set_xscale (v : Scale) (f : Figure) : Figure :=
  {| xlabel := xlabel f; ylabel := ylabel f; title := title f;
     legendloc := legendloc f; xticklabel_length := xticklabel_length f;
     width := width f; height := height f;
     _plots := _plots f; _labels := _labels f;
     cached_yscale := cached_yscale f; cached_xscale := Some v;
     cached_yax_width := cached_yax_width f;
     cached_ytick_values := cached_ytick_values f;
     cached_xtick_values := cached_xtick_values f |}.

Definition set_yax_width (v : Z) (f : Figure) : Figure :=
  {| xlabel := xlabel f; ylabel := ylabel f; title := title f;
     legendloc := legendloc f; xticklabel_length := xticklabel_length f;
     width := width f; height := height f;
     _plots := _plots f; _labels := _labels f;
     cached_yscale := cached_yscale f; cached_xscale := cached_xscale f;
     cached_yax_width := Some v;
     cached_ytick_values := cached_ytick_values f;
     cached_xtick_values := cached_xtick_values f |}.

Definition set_ytick_values (v : ticks) (f : Figure) : Figure :=
  {| xlabel := xlabel f; ylabel := ylabel f; title := title f;
     legendloc := legendloc f; xticklabel_length := xticklabel_length f;
     width := width f; height := height f;
     _plots := _plots f; _labels := _labels f;
     cached_yscale := cached_yscale f; cached_xscale := cached_xscale f;
     cached_yax_width := cached_yax_width f;
     cached_ytick_values := Some v;
     cached_xtick_values := cached_xtick_values f |}.

Definition set_xtick_values (v : ticks) (f : Figure) : Figure :=
  {| xlabel := xlabel f; ylabel := ylabel f; title := title f;
     legendloc := legendloc f; xticklabel_length := xticklabel_length f;
     width := width f; height := height f;
     _plots := _plots f; _labels := _labels f;
     cached_yscale := cached_yscale f; cached_xscale := cached_xscale f;
     cached_yax_width := cached_yax_width f;
     cached_ytick_values := cached_ytick_values f;
     cached_xtick_values := Some v |}.

(** [self._plots.append(p)] *)
Definition append_plot (p : plot) (f : Figure) : Figure :=
  {| xlabel := xlabel f; ylabel := ylabel f; title := title f;
     legendloc := legendloc f; xticklabel_length := xticklabel_length f;
     width := width f; height := height f;
     _plots := _plots f ++ [p]; _labels := _labels f;
     cached_yscale := cached_yscale f; cached_xscale := cached_xscale f;
     cached_yax_width := cached_yax_width f;
     cached_ytick_values := cached_ytick_values f;
     cached_xtick_values := cached_xtick_values f |}.

(** [self._labels.append(e)] *)
Definition append_label (e : ascii * string) (f : Figure) : Figure :=
  {| xlabel := xlabel f; ylabel := ylabel f; title := title f;
     legendloc := legendloc f; xticklabel_length := xticklabel_length f;
     width := width f; height := height f;
     _plots := _plots f; _labels := _labels f ++ [e];
     cached_yscale := cached_yscale f; cached_xscale := cached_xscale f;
     cached_yax_width := cached_yax_width f;
     cached_ytick_values := cached_ytick_values f;
     cached_xtick_values := cached_xtick_values f |}.

(** The properties [x] and [y]: all values of all registered plots. *)
Definition self_x (self : Figure) : list value :=
  concat (map keywords_x (_plots self)).

Definition self_y (self : Figure) : list value :=
  concat (map keywords_y (_plots self)).

Definition _xax_height (self : Figure) : Z :=
  2 + Z_of_bool (truthy (xlabel self)).

(** [f"{value:.2g}"]: the format code is unknown for a string. *)
Definition _fmt (v : value) : result string :=
  match v with
  | VNum q => Ok (format_2g q)
  | VStr _ => Raise ValueError
  end.

Definition _ytick_values : M ticks :=
  cached_property cached_ytick_values set_ytick_values
    (let! y := attr self_y in
     if is_numerical y then
       let! lo := lift (py_min y) in
       let! hi := lift (py_max y) in
       let! h := attr height in
       let! t := lift (best_ticks lo hi (h / 2)) in
       ret (TickList t)
     else ret (TickSet (py_set y))).

Definition _xtick_values : M ticks :=
  cached_property cached_xtick_values set_xtick_values
    (let! x := attr self_x in
     if is_numerical x then
       let! lo := lift (py_min x) in
       let! hi := lift (py_max x) in
       let! w := attr width in
       let! l := attr xticklabel_length in
       let! most := lift (py_floordiv w l) in
       let! t := lift (best_ticks lo hi most) in
       ret (TickList t)
     else ret (TickSet (py_set x))).

Definition _yax_width : M Z :=
  cached_property cached_yax_width set_yax_width
    (let! tv := _ytick_values in
     let! labels := lift (rmap _fmt (ticks_elems tv)) in
     let! w := lift (py_max_Z (map len labels)) in
     let! yl := attr ylabel in
     ret (w + 1 + Z_of_bool (truthy yl) * 2)).

Definition _yscale : M Scale :=
  cached_property cached_yscale set_yscale
    (let! y := attr self_y in
     let scale := if is_numerical y then LinearScale else NominalScale in
     let! xh := attr _xax_height in
     let! xl := attr xlabel in
     let target_min := xh - Z_of_bool (truthy xl) + 1 in
     let! h := attr height in
     let! t := attr title in
     let target_max := h - 1 - Z_of_bool (truthy t) in
     let! scale := lift (fit scale y target_min target_max) in
     if is_numerical y then
       let! tv := _ytick_values in
       let! scale := lift (fit scale (ticks_elems tv) target_min target_max) in
       ret scale
     else ret scale).

Definition _xscale : M Scale :=
  cached_property cached_xscale set_xscale
    (let! x := attr self_x in
     let scale := if is_numerical x then LinearScale else NominalScale in
     let! target_min := _yax_width in
     let! w := attr width in
     let target_max := w - 1 in
     let! scale := lift (fit scale x target_min target_max) in
     if is_numerical x then
       let! tv := _xtick_values in
       let! scale := lift (fit scale (ticks_elems tv) target_min target_max) in
       ret scale
     else ret scale).

(** [array[:] = list(string.center(len(array), fillchar))] and its two
    siblings; [fillchar] is always the default, a space. *)
Definition _center_draw (s : string) (array : view) (canvas : ndarray) : result ndarray :=
  store_list canvas array (chars (center s (Z.of_nat (length array)) " ")).

Definition _ljust_draw (s : string) (array : view) (canvas : ndarray) : result ndarray :=
  store_list canvas array (chars (ljust s (Z.of_nat (length array)) " ")).

Definition _rjust_draw (s : string) (array : view) (canvas : ndarray) : result ndarray :=
  store_list canvas array (chars (rjust s (Z.of_nat (length array)) " ")).

(** [name] was never assigned on the path taken. *)
Definition bound {A} (name : option A) : result A :=
  match name with
  | Some a => Ok a
  | None => Raise UnboundLocalError
  end.

(** The canvas of the current draw pass is threaded through the drawing
    methods: [draw] allocates it anew on every call, and nothing reads it
    but the steps of that call and [__repr__] right after. *)
Definition _draw_y_axis (canvas : ndarray) : M ndarray :=
  let! sc := _yscale in
  let! tv := _ytick_values in
  let! first := lift (ticks_getitem tv 0) in
  let! p := lift (transform sc first) in
  let start := py_round p in
  let! sc := _yscale in
  let! tv := _ytick_values in
  let! last := lift (ticks_getitem tv (-1)) in
  let! p := lift (transform sc last) in
  let end_ := py_round p in
  let! w := _yax_width in
  let! canvas := lift (let? v := col_view canvas (Some (- end_ - 1)) (Some (- start)) (w - 1) in
                       Ok (store canvas v "|")) in
  let! tv := _ytick_values in
  let! sc := _yscale in
  let! tv' := _ytick_values in
  let! positions := lift (transform_seq sc (ticks_elems tv')) in
  let! canvas :=
    for_each (zip (ticks_elems tv) positions)
      (fun canvas '(value, pos) =>
         let pos := py_round pos - 1 in
         let! label := lift (_fmt value) in
         let! w := _yax_width in
         let! canvas := lift (let? v := cell_view canvas (end_ - pos) (w - 1) in
                              Ok (store canvas v "+")) in
         let! yl := attr ylabel in
         let! w := _yax_width in
         lift (let? v := row_view canvas (end_ - pos)
                           (Some (Z_of_bool (truthy yl) * 2)) (Some (w - 1)) in
               _rjust_draw label v canvas))
      canvas in
  let! yl := attr ylabel in
  if truthy yl then
    let ylabel := str_upto (default "" yl) (end_ - start) in
    lift (let? v := col_view canvas (Some start) (Some end_) 0 in
          _center_draw ylabel v canvas)
  else ret canvas.

Definition _draw_x_axis (canvas : ndarray) : M ndarray :=
  let! sc := _xscale in
  let! tv := _xtick_values in
  let! first := lift (ticks_getitem tv 0) in
  let! p := lift (transform sc first) in
  let start := py_round p in
  let! sc := _xscale in
  let! tv := _xtick_values in
  let! last := lift (ticks_getitem tv (-1)) in
  let! p := lift (transform sc last) in
  let end_ := py_round p in
  let! xh := attr _xax_height in
  let! canvas := lift (let? v := row_view canvas (- xh) (Some start) (Some end_) in
                       Ok (store canvas v "-")) in
  let! l := attr xticklabel_length in
  let before := l / 2 in
  let! l := attr xticklabel_length in
  let after := l - before in
  let! tv := _xtick_values in
  let! sc := _xscale in
  let! tv' := _xtick_values in
  let! positions := lift (transform_seq sc (ticks_elems tv')) in
  let! canvas :=
    for_each (zip (ticks_elems tv) positions)
      (fun canvas '(value, pos) =>
         let pos := py_round pos in
         let! label := lift (_fmt value) in
         let! xh := attr _xax_height in
         let! canvas := lift (let? v := cell_view canvas (- xh) pos in
                              Ok (store canvas v "+")) in
         if pos =? start then
           let! xh := attr _xax_height in
           lift (let? v := row_view canvas (- xh + 1) (Some pos) (Some (pos + after)) in
                 _ljust_draw (str_upto label after) v canvas)
         else if pos =? end_ then
           let! xh := attr _xax_height in
           lift (let? v := row_view canvas (- xh + 1) (Some (pos - before)) (Some (pos + 1)) in
                 _rjust_draw (str_upto label (before + 1)) v canvas)
         else
           let! l := attr xticklabel_length in
           let! xh := attr _xax_height in
           lift (let? v := row_view canvas (- xh + 1)
                             (Some (pos - before)) (Some (pos + after)) in
                 _center_draw (str_upto label l) v canvas))
      canvas in
  let! xl := attr xlabel in
  if truthy xl then
    let xlabel := str_upto (default "" xl) (end_ - start) in
    lift (let? v := row_view canvas (-1) (Some start) (Some end_) in
          _center_draw xlabel v canvas)
  else ret canvas.

(** The pieces of [_draw_legend], in source order. *)

(** [[f"{marker} {label}" for marker, label in self._labels]] *)
Definition labelstrings (self : Figure) : list string :=
  map (fun e : ascii * string => String e.1 (" " ++ e.2)) (_labels self).

(** The two assignments to [width]. *)
Definition legend_width (self : Figure) : result Z :=
  let? width := py_max_Z (map len (labelstrings self)) in
  let width := width + 2 in
  Ok (Z.max width (len "Legend" + 2)).

(** The [if]/[elif] on the vertical half of [legendloc]: [top] stays
    unbound when neither branch is taken. *)
Definition legend_top (height : Z) : M (option Z) :=
  let! loc := attr legendloc in
  if startswith loc "top" then
    let! sc := _yscale in
    let! y := attr self_y in
    let! m := lift (py_max y) in
    let! p := lift (transform sc m) in
    ret (Some (- py_int p - 1))
  else if startswith loc "bottom" then
    let! sc := _yscale in
    let! y := attr self_y in
    let! m := lift (py_min y) in
    let! p := lift (transform sc m) in
    ret (Some (- py_int p - height))
  else ret None.

(** The [if]/[elif] on the horizontal half of [legendloc]. *)
Definition legend_left (width : Z) : M (option Z) :=
  let! loc := attr legendloc in
  if endswith loc "right" then
    let! sc := _xscale in
    let! x := attr self_x in
    let! m := lift (py_max x) in
    let! p := lift (transform sc m) in
    ret (Some (py_int p - width + 1))
  else if endswith loc "left" then
    let! sc := _xscale in
    let! x := attr self_x in
    let! m := lift (py_min x) in
    let! p := lift (transform sc m) in
    ret (Some (py_int p))
  else ret None.

(** [self._canvas[row, left:left+width] = list(s)] *)
Definition put_row (canvas : ndarray) (row left width : Z) (s : string) : result ndarray :=
  let? v := row_view canvas row (Some left) (Some (left + width)) in
  store_list canvas v (chars s).

(** [enumerate(l, start)] *)
Fixpoint enumerate {A} (l : list A) (start : Z) : list (Z * A) :=
  match l with
  | [] => []
  | a :: l' => (start, a) :: enumerate l' (start + 1)
  end.

(** The three groups of writes that end [_draw_legend]. *)
Definition legend_box (canvas : ndarray) (top left width : Z) (ls : list string)
  : result ndarray :=
  let? canvas := put_row canvas top left width
                   ("+" ++ center "Legend" (width - 2) "-" ++ "+") in
  let? canvas := rfold (fun canvas (il : Z * string) =>
                          put_row canvas (top + il.1 + 1) left width
                            ("|" ++ ljust il.2 (width - 2) " " ++ "|"))
                   (enumerate ls 0) canvas in
  put_row canvas (top + Z.of_nat (length ls) + 1) left width
    ("+" ++ repeat_char "-" (Z.to_nat (width - 2)) ++ "+").

Definition _draw_legend (canvas : ndarray) : M ndarray :=
  let! ls := attr labelstrings in
  let! width := reading legend_width in
  let height := Z.of_nat (length ls) + 2 in
  let! top := legend_top height in
  let! left_ := legend_left width in
  let! top := lift (bound top) in
  let! left_ := lift (bound left_) in
  lift (legend_box canvas top left_ width ls).

(** The deferred drawing functions. *)

Definition draw_scatter (x y : list value) (marker : ascii) (canvas : ndarray) : M ndarray :=
  let! sx := _xscale in
  let! xs := lift (transform_seq sx x) in
  let! sy := _yscale in
  let! ys := lift (transform_seq sy y) in
  lift (rfold (fun canvas (p : Q * Q) =>
                 let? v := cell_view canvas (- py_round p.2 - 1) (py_round p.1) in
                 Ok (store canvas v marker))
          (zip xs ys) canvas).

(** [l[:-1]] and [l[1:]] *)
Definition but_last {A} (l : list A) : list A := take (length l - 1) l.
Definition but_first {A} (l : list A) : list A := drop 1 l.

Definition draw_line (x y : list value) (marker : ascii) (canvas : ndarray) : M ndarray :=
  let! sx := _xscale in
  let! xs := lift (transform_seq sx x) in
  let! sy := _yscale in
  let! ys := lift (transform_seq sy y) in
  lift (rfold (fun canvas (s : (Q * Q) * (Q * Q)) =>
                 let '((x0, x1), (y0, y1)) := s in
                 rfold (fun canvas (p : Z * Z) =>
                          let? v := cell_view canvas (- p.2 - 1) p.1 in
                          Ok (store canvas v marker))
                   (plot_line_segment (py_round x0) (py_round y0) (py_round x1) (py_round y1))
                   canvas)
          (zip (zip (but_last xs) (but_first xs)) (zip (but_last ys) (but_first ys)))
          canvas).

(** The loop of [draw_bar]: one column slice per point. *)
Definition bar_loop (bottom : Q) (marker : ascii) (pts : list (Q * Q)) (canvas : ndarray)
  : result ndarray :=
  rfold (fun canvas (p : Q * Q) =>
           let? v := col_view canvas (Some (- py_round p.2 - 1)) (Some (- py_int bottom))
                       (py_round p.1) in
           Ok (store canvas v marker))
    pts canvas.

Definition draw_bar (x y : list value) (marker : ascii) (canvas : ndarray) : M ndarray :=
  let! sy := _yscale in
  let! m := lift (py_min y) in
  let! bottom := lift (transform sy m) in
  let! sx := _xscale in
  let! xs := lift (transform_seq sx x) in
  let! sy := _yscale in
  let! ys := lift (transform_seq sy y) in
  lift (bar_loop bottom marker (zip xs ys) canvas).

Definition draw_hbar (x y : list value) (marker : ascii) (canvas : ndarray) : M ndarray :=
  let! sx := _xscale in
  let! m := lift (py_min x) in
  let! start := lift (transform sx m) in
  let! sx := _xscale in
  let! xs := lift (transform_seq sx x) in
  let! sy := _yscale in
  let! ys := lift (transform_seq sy y) in
  lift (rfold (fun canvas (p : Q * Q) =>
                 let? v := row_view canvas (- py_round p.2 - 1)
                             (Some (py_int start)) (Some (py_round p.1)) in
                 Ok (store canvas v marker))
          (zip xs ys) canvas).

(** [plot()] for an element of [self._plots]. *)
Definition call (p : plot) (canvas : ndarray) : M ndarray :=
  match func p with
  | Scatter => draw_scatter (keywords_x p) (keywords_y p) (keywords_marker p) canvas
  | Line => draw_line (keywords_x p) (keywords_y p) (keywords_marker p) canvas
  | Bar => draw_bar (keywords_x p) (keywords_y p) (keywords_marker p) canvas
  | HBar => draw_hbar (keywords_x p) (keywords_y p) (keywords_marker p) canvas
  end.

(** Everything [draw] does before the legend. *)
Definition draw_plots : M ndarray :=
  let! h := attr height in
  let! w := attr width in
  let! canvas := lift (np_empty h w) in
  let canvas := fill canvas " " in
  let! t := attr title in
  let! canvas :=
    (if truthy t then
       let! w := attr width in
       let title := str_upto (default "" t) w in
       lift (let? v := row_view canvas 0 None None in _center_draw title v canvas)
     else ret canvas) in
  let! canvas := _draw_x_axis canvas in
  let! canvas := _draw_y_axis canvas in
  let! plots := attr _plots in
  for_each plots (fun canvas p => call p canvas) canvas.

Definition draw : M ndarray :=
  let! canvas := draw_plots in
  let! labels := attr _labels in
  match labels with
  | [] => ret canvas
  | _ :: _ => _draw_legend canvas
  end.

(** Registration. *)

Definition _prep (x y : list value) (marker : string) (label : option string) : M ascii :=
  if negb (length x =? length y)%nat then lift (Raise AssertionError)
  else
    match marker with
    | EmptyString => lift (Raise IndexError)
    | String m _ =>
        let! _ := (if truthy label then modify (append_label (m, default "" label))
                   else ret tt) in
        ret m
    end.

Definition register (fn : plot_func) (x y : list value) (marker : string)
    (label : option string) : M unit :=
  let! m := _prep x y marker label in
  modify (append_plot {| func := fn; keywords_x := x; keywords_y := y;
                         keywords_marker := m |}).

(** The default markers are ["o"], ["*"], ["#"] and ["#"]; the default
    label is [None]. *)
Definition scatter := register Scatter.
Definition line := register Line.
Definition bar := register Bar.
Definition hbar := register HBar.

Definition __repr__ : M string :=
  let! canvas := draw in
  ret (join_lines (tolist canvas)).

End Figure.

(** ** The sibling modules, from the specification *)

Module SpecHelpers.

(** Modelled from the spec: the scale objects of [scales.py] (section 4.1).
    A scale is unfitted, or holds its domain and its target range. *)
Inductive scale : Type :=
  | Unfitted (linear : bool)
  | FittedLinear (dmin dmax : Q) (tmin tmax : Z)
  | FittedNominal (labels : list value) (tmin tmax : Z).

(** Modelled from the spec: which of [LinearScale] and [NominalScale]
    (section 4.1) the object is. *)
Definition is_linear (sc : scale) : bool :=
  match sc with
  | Unfitted b => b
  | FittedLinear _ _ _ _ => true
  | FittedNominal _ _ _ => false
  end.

(** Modelled from the spec: the arithmetic of a numeric scale or of the
    tick selector (sections 4.1, 4.2) applies to numbers only. *)
Definition as_number (v : value) : result Q :=
  match v with
  | VNum q => Ok q
  | VStr _ => Raise TypeError
  end.

(** Modelled from the spec: [Scale.fit] (section 4.1): the domain is the
    least and greatest value of a numeric collection, the distinct labels
    in first-occurrence order of a categorical one. *)
Definition fit (sc : scale) (values : list value) (tmin tmax : Z) : result scale :=
  if is_linear sc then
    let? lo := py_min values in
    let? hi := py_max values in
    let? lo := as_number lo in
    let? hi := as_number hi in
    Ok (FittedLinear lo hi tmin tmax)
  else Ok (FittedNominal (py_set values) tmin tmax).

(** Modelled from the spec: the rank of a label in the stable order of a
    categorical domain (section 4.1). *)
Fixpoint position (labels : list value) (v : value) (i : Z) : option Z :=
  match labels with
  | [] => None
  | w :: rest => if value_eqb w v then Some i else position rest v (i + 1)
  end.

(** Modelled from the spec: [Scale.transform] (section 4.1): the affine
    map of a numeric domain, with a degenerate domain sent to the middle of
    the target range; the evenly spaced positions of a categorical one. *)
Definition transform (sc : scale) (v : value) : result Q :=
  match sc with
  | Unfitted _ => Raise (HelperError "NotFittedError")
  | FittedLinear dmin dmax tmin tmax =>
      let? q := as_number v in
      if Qeq_bool dmin dmax then Ok (Qred ((inject_Z tmin + inject_Z tmax) / 2))
      else Ok (Qred (inject_Z tmin
                     + (q - dmin) / (dmax - dmin) * inject_Z (tmax - tmin)))
  | FittedNominal labels tmin tmax =>
      match position labels v 0 with
      | None => Raise (HelperError "UnknownCategoryError")
      | Some i =>
          let n := Z.of_nat (length labels) in
          if n =? 1 then Ok (inject_Z tmin)
          else Ok (Qred (inject_Z tmin
                         + inject_Z i * inject_Z (tmax - tmin) / inject_Z (n - 1)))
      end
  end.

(** Modelled from the spec: [is_numerical] of [utils.py] (section 3): the
    whole collection is classified; it is numeric when every value is. *)
Definition is_numerical (values : list value) : bool :=
  forallb (fun v => match v with VNum _ => true | VStr _ => false end) values.

(** Modelled from the spec: the number of ticks that a step gives (section
    4.2): the multiples of the step from the largest one that is at most
    [lo] to the smallest one that is at least [hi]. *)
Definition tick_count (lo hi step : Q) : Z :=
  Qceiling (hi / step) - Qfloor (lo / step) + 1.

(** Modelled from the spec: the candidate steps [{1, 2, 5} * 10^k] (section
    4.2), tried in ascending order over [fuel] decades from [10^k] on. *)
Fixpoint nice_step (fuel : nat) (k : Z) (fits : Q -> bool) : option Q :=
  match fuel with
  | O => None
  | S fuel' =>
      match List.find fits
              (map (fun d : Z => (inject_Z d * pow10 k)%Q) [1; 2; 5]) with
      | Some step => Some step
      | None => nice_step fuel' (k + 1) fits
      end
  end.

(** Modelled from the spec: [best_ticks] of [utils.py] (sections 4.2 and
    8).  The answer is an ascending sequence of multiples of a step from
    [{1, 2, 5} * 10^k], from the largest multiple that is at most [min] to
    the smallest one that is at least [max], of length at most [most]: the
    step is the smallest candidate whose ticks are that few, which implies
    the inequality [ceil((max - min) / step) + 1 <= most] of section 4.2.
    A budget below 2 is read as 2 (the two bounding values are still
    returned), [min = max] gives the single tick, and a domain for which no
    candidate within the 17 decimal digits of a float does is refused. *)
Definition best_ticks (lo hi : value) (most : Z) : result (list value) :=
  let? lo := as_number lo in
  let? hi := as_number hi in
  if Qeq_bool lo hi then Ok [VNum lo]
  else if Qle_bool hi lo then Raise (HelperError "DegenerateDomainError")
  else
    let m := Z.max most 2 in
    let range := (hi - lo)%Q in
    let k := ilog10 (range / inject_Z (m - 1)) in
    match nice_step 17 k (fun c => tick_count lo hi c <=? m) with
    | None => Raise (HelperError "DegenerateDomainError")
    | Some step =>
        let i0 := Qfloor (lo / step) in
        Ok (map (fun i : nat => VNum (Qred (inject_Z (i0 + Z.of_nat i) * step)))
              (seq 0 (Z.to_nat (tick_count lo hi step))))
    end.

(** Modelled from the spec: the cells of the path, one per step, by the
    integer error term of the line rasterizer (section 4.3). *)
Fixpoint line_go (fuel : nat) (x0 y0 x1 y1 dx dy sx sy err : Z) : list (Z * Z) :=
  match fuel with
  | O => []
  | S fuel' =>
      (x0, y0) ::
      if (x0 =? x1) && (y0 =? y1) then []
      else
        let e2 := 2 * err in
        let stepx := dy <=? e2 in
        let stepy := e2 <=? dx in
        line_go fuel'
          (if stepx then x0 + sx else x0) (if stepy then y0 + sy else y0) x1 y1
          dx dy sx sy
          (err + (if stepx then dy else 0) + (if stepy then dx else 0))
  end.

(** Modelled from the spec: [plot_line_segment] of [utils.py] (section
    4.3): an 8-connected path between two grid points, in integer
    arithmetic. *)
Definition plot_line_segment (x0 y0 x1 y1 : Z) : list (Z * Z) :=
  let dx := Z.abs (x1 - x0) in
  let dy := - Z.abs (y1 - y0) in
  line_go (Z.to_nat (dx - dy + 1)) x0 y0 x1 y1 dx dy
    (if x0 <? x1 then 1 else -1) (if y0 <? y1 then 1 else -1) (dx + dy).

#[export] Instance helpers : Helpers :=
  Build_Helpers scale (Unfitted true) (Unfitted false)
    fit transform is_numerical best_ticks plot_line_segment.

End SpecHelpers.

(** ** Vocabulary of the statements *)

Section Vocabulary.
Context `{Helpers}.

(** A well-formed grid: [nrows] rows of [ncols] cells. *)
Definition wf (a : ndarray) : Prop :=
  length (cells a) = nrows a /\ Forall (fun row => length row = ncols a) (cells a).

(** The [n] cells of row [r] from column [lo] on. *)
Definition segment (a : ndarray) (r lo n : nat) : list ascii :=
  take n (drop lo (default [] (cells a !! r))).

(** A cache slot only ever goes from empty to filled. *)
Definition sub_slot {A} (o o' : option A) : Prop :=
  forall v, o = Some v -> o' = Some v.

(** [f'] is [f] with possibly more cached properties. *)
Record ext (f f' : Figure) : Prop := {
  ext_xlabel : xlabel f' = xlabel f;
  ext_ylabel : ylabel f' = ylabel f;
  ext_title : title f' = title f;
  ext_legendloc : legendloc f' = legendloc f;
  ext_xticklabel_length : xticklabel_length f' = xticklabel_length f;
  ext_width : width f' = width f;
  ext_height : height f' = height f;
  ext_plots : _plots f' = _plots f;
  ext_labels : _labels f' = _labels f;
  ext_yscale : sub_slot (cached_yscale f) (cached_yscale f');
  ext_xscale : sub_slot (cached_xscale f) (cached_xscale f');
  ext_yax_width : sub_slot (cached_yax_width f) (cached_yax_width f');
  ext_ytick_values : sub_slot (cached_ytick_values f) (cached_ytick_values f');
  ext_xtick_values : sub_slot (cached_xtick_values f) (cached_xtick_values f')
}.

(** A method that only fills caches, and that gives the same result when
    it is run again: after a success in any later state of the instance,
    after an exception in the state the exception left. *)
Definition stable {A} (m : M A) : Prop :=
  forall f f' r, m f = (f', r) ->
    ext f f' /\
    match r with
    | Ok a => forall f2, ext f' f2 -> m f2 = (f2, Ok a)
    | Raise e => m f' = (f', Raise e)
    end.

(** A property of the instance that a method keeps. *)
Definition preserves {A} (P : Figure -> Prop) (m : M A) : Prop :=
  forall f f' r, P f -> m f = (f', r) -> P f'.

(** The instances a program can hold: a constructed figure, after any
    number of registration calls (accepted or refused) and draw calls. *)
Inductive reachable : Figure -> Prop :=
  | reach_init term xl yl t w h loc n f :
      __init__ term xl yl t w h loc n = Ok f -> reachable f
  | reach_register fn x y marker label f :
      reachable f -> reachable (register fn x y marker label f).1
  | reach_draw f :
      reachable f -> reachable (draw f).1.

(** The rows that the slice [-round(y)-1 : -int(bottom)] selects of a column
    of [h] cells: what [draw_bar] writes for a point at position [y] when
    the series minimum is at position [bottom]. *)
Definition bar_rows (h : nat) (bottom y : Q) : list nat :=
  slice h (Some (- py_round y - 1)) (Some (- py_int bottom)).

(** The cell in row [r], column [c] of a grid of [h] rows and [w] columns
    lies on the bar of one of the points: in the column that the rounded x
    position indexes, in one of the rows of its slice. *)
Definition bar_cells (h w : nat) (bottom : Q) (pts : list (Q * Q)) (r c : nat) : bool :=
  existsb (fun p : Q * Q =>
             (Z.of_nat c =? py_round p.1 mod Z.of_nat w)
             && bool_decide (r ∈ bar_rows h bottom p.2))
    pts.

(** A bordered box of the given width whose top border is in row [r],
    from column [lo] on, with one interior line per string. *)
Definition box_at (a : ndarray) (r lo : nat) (width : Z) (ls : list string) : Prop :=
  segment a r lo (Z.to_nat width)
    = chars ("+" ++ center "Legend" (width - 2) "-" ++ "+")
  /\ (forall i s, ls !! i = Some s ->
        segment a (r + 1 + i) lo (Z.to_nat width)
          = chars ("|" ++ ljust s (width - 2) " " ++ "|"))
  /\ segment a (r + 1 + length ls) lo (Z.to_nat width)
       = chars ("+" ++ repeat_char "-" (Z.to_nat (width - 2)) ++ "+").

(** An invariant that all five cached properties keep is kept by the
    whole draw pipeline. *)
Definition cache_safe (P : Figure -> Prop) : Prop :=
  preserves P _ytick_values /\ preserves P _xtick_values
  /\ preserves P _yax_width /\ preserves P _yscale /\ preserves P _xscale.

(** The two axes of a figure, their values, their tick property and its
    cache slot. *)
Inductive axis : Type := X | Y.

Definition axis_values (a : axis) (f : Figure) : list value :=
  match a with X => self_x f | Y => self_y f end.

Definition axis_ticks (a : axis) : M ticks :=
  match a with X => _xtick_values | Y => _ytick_values end.

Definition cached_ticks (a : axis) (f : Figure) : option ticks :=
  match a with X => cached_xtick_values f | Y => cached_ytick_values f end.

(** The tick budget of an axis: [width // xticklabel_length] for x,
    [height // 2] for y. *)
Definition tick_budget (a : axis) (f : Figure) : result Z :=
  match a with
  | X => py_floordiv (width f) (xticklabel_length f)
  | Y => Ok (height f / 2)
  end.

(** The values of an axis are categorical and its ticks, if cached, are a set. *)
Definition categorical (a : axis) (f : Figure) : Prop :=
  is_numerical (axis_values a f) = false
  /\ (cached_ticks a f = None \/ exists l, cached_ticks a f = Some (TickSet l)).

(** What the caches of a figure without plots can hold. *)
Definition no_data (f : Figure) : Prop :=
  _plots f = [] /\ cached_xscale f = None /\ cached_yax_width f = None
  /\ (cached_ytick_values f = None \/ cached_ytick_values f = Some (TickSet [])).

(** The exception of a draw call on a figure without plots: [ValueError],
    from [np.empty] on a negative size or from [min()] / [max()] on the empty
    sequence of values; [IndexError] when a title is to be written to a
    canvas without rows. *)
Definition no_data_error (f : Figure) : exn :=
  if (height f <? 0) || (width f <? 0) then ValueError
  else if truthy (title f) && (height f =? 0) then IndexError
  else ValueError.

(** A grid of the given shape. *)
Definition shaped (h w : nat) (a : ndarray) : Prop :=
  wf a /\ nrows a = h /\ ncols a = w.

(** What a computation returns when it returns. *)
Definition ryields {A} (Q : A -> Prop) (r : result A) : Prop :=
  forall a, r = Ok a -> Q a.

Definition yields {A} (Q : A -> Prop) (m : M A) : Prop :=
  forall f f' a, m f = (f', Ok a) -> Q a.

(** All five cached properties of the figure are set. *)
Definition drawn (f : Figure) : Prop :=
  is_Some (cached_yscale f) /\ is_Some (cached_xscale f)
  /\ is_Some (cached_yax_width f)
  /\ is_Some (cached_ytick_values f) /\ is_Some (cached_xtick_values f).

(** What holds of the instance after a method has returned. *)
Definition ensures {A} (P : Figure -> Prop) (m : M A) : Prop :=
  forall f f' a, m f = (f', Ok a) -> P f'.

(** Every registered plot has as many x values as y values. *)
Definition balanced (f : Figure) : Prop :=
  Forall (fun p => length (keywords_x p) = length (keywords_y p)) (_plots f).

(** The two halves of [legendloc] that [_draw_legend] knows. *)
Definition vertical_known (loc : string) : bool :=
  startswith loc "top" || startswith loc "bottom".

Definition horizontal_known (loc : string) : bool :=
  endswith loc "right" || endswith loc "left".

(** The cell in row [r], column [c] of a grid of [h] rows and [w] columns
    is that of one of the points [(x, y)], with [y] counted upwards from
    the bottom row; a negative position counts from the opposite edge. *)
Definition on_points (h w : Z) (pts : list (Z * Z)) (r c : nat) : bool :=
  existsb (fun p : Z * Z =>
             (Z.of_nat c =? p.1 mod w) && (h - 1 - Z.of_nat r =? p.2 mod h))
    pts.

(** The cell lies on the horizontal bar of one of the points: in the row of
    its y position, from the position of the series minimum up to, but not
    including, its x position. *)
Definition on_hbar (h : Z) (start : Q) (pts : list (Q * Q)) (r c : nat) : bool :=
  existsb (fun p : Q * Q =>
             (h - 1 - Z.of_nat r =? py_round p.2 mod h)
             && (py_int start <=? Z.of_nat c)
             && (Z.of_nat c <? py_round p.1))
    pts.

(** A point [(x, y)] that an assignment to [canvas[-y-1, x]] accepts. *)
Definition on_canvas (h w : Z) (p : Z * Z) : Prop :=
  - w <= p.1 < w /\ - h <= p.2 < h.

(** The grid positions of transformed points. *)
Definition rounded (pts : list (Q * Q)) : list (Z * Z) :=
  map (fun p : Q * Q => (py_round p.1, py_round p.2)) pts.

(** The pairs of consecutive points of a poly-line, as [draw_line] zips
    them, and all the cells of their rasterized segments. *)
Definition segments (xs ys : list Q) : list ((Q * Q) * (Q * Q)) :=
  zip (zip (but_last xs) (but_first xs)) (zip (but_last ys) (but_first ys)).

Definition line_points (xs ys : list Q) : list (Z * Z) :=
  concat (map (fun s : (Q * Q) * (Q * Q) =>
                 plot_line_segment (py_round s.1.1) (py_round s.2.1)
                   (py_round s.1.2) (py_round s.2.2))
            (segments xs ys)).

(** The three ways of writing a string into a slice of the canvas: the
    padding of the string, and the method that writes it. *)
Inductive alignment : Type := Centered | LeftAdjusted | RightAdjusted.

Definition padded (al : alignment) (s : string) (n : Z) : string :=
  match al with
  | Centered => center s n " "
  | LeftAdjusted => ljust s n " "
  | RightAdjusted => rjust s n " "
  end.

Definition draw_text (al : alignment) : string -> view -> ndarray -> result ndarray :=
  match al with
  | Centered => _center_draw
  | LeftAdjusted => _ljust_draw
  | RightAdjusted => _rjust_draw
  end.

(** The [n] cells of row [r] from column [lo] on, as a view. *)
Definition row_cells (r lo n : nat) : view := map (fun c => (r, c)) (seq lo n).

(** The cell of a row is in the column of one of the positions of the x
    scale; the cell of a column is in the row where [_draw_y_axis] puts the
    tick of one of the positions of the y scale, given the rounded position
    [end_] of the last tick.  Indices wrap as numpy's do. *)
Definition tick_columns (w : Z) (positions : list Q) (c : nat) : bool :=
  existsb (fun p => Z.of_nat c =? py_round p mod w) positions.

Definition tick_rows (h end_ : Z) (positions : list Q) (r : nat) : bool :=
  existsb (fun p => Z.of_nat r =? (end_ - (py_round p - 1)) mod h) positions.

(** The cached width of the y axis leaves room, beside the tick mark and
    the y label, for the label of every cached y tick. *)
Definition labels_fit (f : Figure) : Prop :=
  forall yw, cached_yax_width f = Some yw ->
    exists tv, cached_ytick_values f = Some tv
      /\ forall v, In v (ticks_elems tv) ->
           exists label, _fmt v = Ok label
             /\ len label + 1 + Z_of_bool (truthy (ylabel f)) * 2 <= yw.

(** What the five cached properties give on a figure. *)
Definition layout (f : Figure)
  : result Scale * result Scale * result Z * result ticks * result ticks :=
  ((_yscale f).2, (_xscale f).2, (_yax_width f).2,
   (_ytick_values f).2, (_xtick_values f).2).

(** No value of a tick property is cached for a numerical x axis whose
    tick labels have length 0. *)
Definition zero_label_length (f : Figure) : Prop :=
  xticklabel_length f = 0 /\ is_numerical (self_x f) = true
  /\ cached_xtick_values f = None.

(** A bar plot without values. *)
Definition empty_bars (p : plot) : Prop :=
  (func p = Bar /\ keywords_y p = []) \/ (func p = HBar /\ keywords_x p = []).

(** The contract of the tick selector that the tick budgets rest on: it
    returns at most [most] ticks, and at most 2 for a budget below 2. *)
Definition selector_bounded : Prop :=
  forall lo hi most t,
    best_ticks lo hi most = Ok t -> Z.of_nat (length t) <= Z.max most 2.

(** Every cached list of ticks is within the budget of its axis. *)
Definition within_budget (f : Figure) : Prop :=
  forall a l, cached_ticks a f = Some (TickList l) ->
    exists most,
      tick_budget a f = Ok most /\ Z.of_nat (length l) <= Z.max most 2.

End Vocabulary.

(** ** Concrete figures

    Programs against the helpers written from the specification, on an
    80 x 24 terminal.  [blank w h] is [Figure(width=w, height=h)]. *)

Section Programs.
#[local] Existing Instance SpecHelpers.helpers.

Definition nums (l : list Z) : list value := map (fun z => VNum (inject_Z z)) l.

Definition blank (w h : Z) : Figure :=
  {| xlabel := None; ylabel := None; title := None;
     legendloc := "topright"; xticklabel_length := 7;
     width := w; height := h; _plots := []; _labels := [];
     cached_yscale := None; cached_xscale := None; cached_yax_width := None;
     cached_ytick_values := None; cached_xtick_values := None |}.

(** [fig = Figure(width=20, height=10); fig.scatter([1,2,3], [1,2,3])] *)
Definition scatter_figure : Figure :=
  (scatter (nums [1; 2; 3]) (nums [1; 2; 3]) "o" None (blank 20 10)).1.

(** [fig = Figure(width=20, height=10); fig.scatter(["a","b"], [1,2])] *)
Definition labels_figure : Figure :=
  (scatter [VStr "a"; VStr "b"] (nums [1; 2]) "o" None (blank 20 10)).1.

(** [fig = Figure(width=20, height=10); fig.bar([1,2,3], [1,2,3])] *)
Definition bar_figure : Figure :=
  (bar (nums [1; 2; 3]) (nums [1; 2; 3]) "#" None (blank 20 10)).1.

(** Two labelled lines on a 20 x 10 figure. *)
Definition lines_figure : Figure :=
  (line (nums [1; 2; 3]) (nums [3; 1; 2]) "+" (Some "bb")
     (line (nums [1; 2; 3]) (nums [1; 2; 3]) "*" (Some "a") (blank 20 10)).1).1.

(** One scatter plot whose label is longer than the figure is wide. *)
Definition long_label_figure : Figure :=
  (scatter (nums [1; 2; 3]) (nums [1; 2; 3]) "o"
     (Some "a label that is far too long for it") (blank 20 10)).1.

(** [Figure(width=w, height=h, legendloc=loc, xticklabel_length=n)] *)
Definition configured (w h : Z) (loc : string) (n : Z) : Figure :=
  {| xlabel := None; ylabel := None; title := None;
     legendloc := loc; xticklabel_length := n;
     width := w; height := h; _plots := []; _labels := [];
     cached_yscale := None; cached_xscale := None; cached_yax_width := None;
     cached_ytick_values := None; cached_xtick_values := None |}.

(** A scatter plot on a figure whose x tick labels have length 0. *)
Definition zero_length_figure : Figure :=
  (scatter (nums [1; 2; 3]) (nums [1; 2; 3]) "o" None
     (configured 20 10 "topright" 0)).1.

(** A labelled scatter plot on a figure whose legend location is none of
    the four accepted ones. *)
Definition middle_figure : Figure :=
  (scatter (nums [1; 2; 3]) (nums [1; 2; 3]) "o" (Some "a")
     (configured 20 10 "middle" 7)).1.

(** [fig.bar([], [])] after a scatter plot. *)
Definition empty_bar_figure : Figure :=
  (bar [] [] "#" None scatter_figure).1.

(** [fig = Figure(width=20, height=10); fig.scatter([1,2], ["a","b"])] *)
Definition ylabels_figure : Figure :=
  (scatter (nums [1; 2]) [VStr "a"; VStr "b"] "o" None (blank 20 10)).1.

(** The scatter figure, drawn once. *)
Definition scatter_drawn : Figure := (draw scatter_figure).1.

(** [fig.bar([1,2,3], [0,2,3])] on the scatter figure after it was drawn
    once. *)
Definition late_bar_figure : Figure :=
  (bar (nums [1; 2; 3]) (nums [0; 2; 3]) "#" None scatter_drawn).1.

(** The same figure after it was rendered, and the rendered string. *)
Definition lines_drawn : Figure := (__repr__ lines_figure).1.

Definition lines_output : string :=
  match (__repr__ lines_figure).2 with
  | Ok s => s
  | Raise _ => ""
  end.

(** A canvas of 10 rows of 20 spaces. *)
Definition blank_canvas : ndarray :=
  {| nrows := 10; ncols := 20; cells := replicate 10 (replicate 20 " "%char) |}.

(** No character of the string is a line feed. *)
Definition no_newline (s : string) : bool :=
  forallb (fun c => negb (Ascii.eqb c "010")) (chars s).

(** [fig = Figure(width=10, height=10); fig.scatter([1,2,3], [1,2,3])]: the
    x axis has room for one tick label. *)
Definition narrow_figure : Figure :=
  (scatter (nums [1; 2; 3]) (nums [1; 2; 3]) "o" None (blank 10 10)).1.

(** [fig = Figure(width=20, height=10); fig.scatter([1,2,3], [1,2,3],
    marker="\n")] *)
Definition newline_figure : Figure :=
  (scatter (nums [1; 2; 3]) (nums [1; 2; 3]) (String "010" "") None
     (blank 20 10)).1.

(** The number of line feeds in a string. *)
Fixpoint newlines (s : string) : nat :=
  match s with
  | EmptyString => 0
  | String c s' => (if Ascii.eqb c "010" then 1 else 0) + newlines s'
  end.

End Programs.

(** ** Line feeds *)

Section Lines.
Context `{Helpers}.

(** The character is not a line feed. *)
Definition plain_char (c : ascii) : Prop := c <> "010"%char.

(** An optional string without a line feed. *)
Definition plain_option (o : option string) : Prop :=
  forall s, o = Some s -> no_newline s = true.

(** No title, axis label, marker or legend label of the figure holds a line
    feed. *)
Definition plain_figure (f : Figure) : Prop :=
  plain_option (title f) /\ plain_option (xlabel f) /\ plain_option (ylabel f)
  /\ Forall (fun p : plot => plain_char (keywords_marker p)) (_plots f)
  /\ Forall (fun e : ascii * string => plain_char e.1 /\ no_newline e.2 = true)
       (_labels f).

(** No cell of the canvas holds a line feed. *)
Definition plain_canvas (a : ndarray) : Prop :=
  Forall (Forall plain_char) (cells a).

(** A method that keeps a property of the instance and, when it returns,
    returns a value with a property of its own. *)
Definition triple {A} (P : Figure -> Prop) (Q : A -> Prop) (m : M A) : Prop :=
  forall f f' a, P f -> m f = (f', Ok a) -> P f' /\ Q a.

End Lines.

(** * Properties *)

Section Registration.
Context `{Helpers}.

Lemma register_refused fn x y marker label (f : Figure) :
  length x <> length y ->
  register fn x y marker label f = (f, Raise AssertionError).
Proof.
  intros Hlen. unfold register, bind, _prep.
  destruct (Nat.eqb_spec (length x) (length y)) as [Heq|_]; [contradiction|].
  reflexivity.
Qed.

(** C2: registering sequences of different lengths through [scatter],
    [line], [bar] or [hbar] fails on the assertion [len(x) == len(y)] (the
    specification's MismatchedLengthError) and leaves the figure as it
    was: same plots, same legend entries; a figure without plots still has
    none. *)
Theorem mismatched_lengths_rejected x y marker label (f : Figure) :
  length x <> length y ->
  scatter x y marker label f = (f, Raise AssertionError)
  /\ line x y marker label f = (f, Raise AssertionError)
  /\ bar x y marker label f = (f, Raise AssertionError)
  /\ hbar x y marker label f = (f, Raise AssertionError)
  /\ forall fn, let f' := (register fn x y marker label f).1 in
       _plots f' = _plots f /\ _labels f' = _labels f
       /\ (_plots f = [] -> _plots f' = []).
Proof.
  intros Hlen. unfold scatter, line, bar, hbar.
  repeat split; try (apply register_refused; assumption);
    rewrite register_refused by assumption; simpl; auto.
Qed.


(** C6, as the code has it: construction checks nothing.  Every
    configuration yields a figure; a width or height of 0 (or [None]) is
    replaced by the terminal size, every other value is stored as given,
    and no plot or legend entry is registered. *)
Theorem init_never_fails term xl yl t w h loc n :
  exists f : Figure,
    __init__ term xl yl t w h loc n = Ok f
    /\ xlabel f = xl /\ ylabel f = yl /\ title f = t
    /\ legendloc f = loc /\ xticklabel_length f = n
    /\ width f = match w with
                 | Some w => if w =? 0 then term.1 else w
                 | None => term.1
                 end
    /\ height f = match h with
                  | Some h => if h =? 0 then term.2 - 1 else h
                  | None => term.2 - 1
                  end
    /\ _plots f = [] /\ _labels f = [].
Proof. eexists. split; [reflexivity|]. simpl. repeat split. Qed.

End Registration.

(** ** Cached properties: what a method may change, and running it again *)

Section Caching.
Context `{Helpers}.

Lemma ext_refl (f : Figure) : ext f f.
Proof. split; try reflexivity; intros v Hv; exact Hv. Qed.

Lemma ext_trans (f1 f2 f3 : Figure) : ext f1 f2 -> ext f2 f3 -> ext f1 f3.
Proof.
  intros [] []. split; try congruence; intros v Hv; unfold sub_slot in *; auto.
Qed.

(** *** Invariants *)

Lemma preserves_ret {A} P (a : A) : preserves P (ret a).
Proof. intros f f' r HP [= <- _]. exact HP. Qed.

Lemma preserves_lift {A} P (r : result A) : preserves P (lift r).
Proof. intros f f' r' HP [= <- _]. exact HP. Qed.

Lemma preserves_attr {A} P (proj : Figure -> A) : preserves P (attr proj).
Proof. intros f f' r HP [= <- _]. exact HP. Qed.

Lemma preserves_reading {A} P (g : Figure -> result A) : preserves P (reading g).
Proof. intros f f' r HP [= <- _]. exact HP. Qed.

Lemma preserves_bind {A B} P (m : M A) (k : A -> M B) :
  preserves P m -> (forall a, preserves P (k a)) -> preserves P (bind m k).
Proof.
  intros Hm Hk f f' r HP. unfold bind.
  destruct (m f) as [f1 [a|e]] eqn:Em.
  - intros Hr. exact (Hk a f1 f' r (Hm _ _ _ HP Em) Hr).
  - intros [= <- _]. exact (Hm _ _ _ HP Em).
Qed.

Lemma preserves_for_each {A S} P (l : list A) (body : S -> A -> M S) :
  (forall s a, preserves P (body s a)) -> forall s, preserves P (for_each l body s).
Proof.
  intros Hb. induction l as [|a l IH]; intros s; simpl.
  - apply preserves_ret.
  - apply preserves_bind; [apply Hb|exact IH].
Qed.

Lemma preserves_cached {A} P slot store_slot (body : M A) :
  preserves P body -> (forall v f, P f -> P (store_slot v f)) ->
  preserves P (cached_property slot store_slot body).
Proof.
  intros Hb Hs f f' r HP. unfold cached_property.
  destruct (slot f) as [v|].
  - intros [= <- _]. exact HP.
  - destruct (body f) as [f1 [v|e]] eqn:Eb.
    + intros [= <- _]. apply Hs. exact (Hb _ _ _ HP Eb).
    + intros [= <- _]. exact (Hb _ _ _ HP Eb).
Qed.

(** *** Running a method again *)

Lemma stable_ret {A} (a : A) : stable (ret a).
Proof. intros f f' r [= <- <-]. split; [apply ext_refl|reflexivity]. Qed.

Lemma stable_lift {A} (r : result A) : stable (lift r).
Proof.
  intros f f' r' [= <- <-]. split; [apply ext_refl|].
  destruct r; reflexivity.
Qed.

Lemma stable_reading {A} (g : Figure -> result A) :
  (forall f f', ext f f' -> g f' = g f) -> stable (reading g).
Proof.
  intros Hg f f' r [= <- <-]. split; [apply ext_refl|].
  destruct (g f) eqn:Eg; [|unfold reading; rewrite Eg; reflexivity].
  intros f2 Hext. unfold reading. rewrite (Hg _ _ Hext), Eg. reflexivity.
Qed.

Lemma stable_attr {A} (proj : Figure -> A) :
  (forall f f', ext f f' -> proj f' = proj f) -> stable (attr proj).
Proof.
  intros Hp. apply (stable_reading (fun f => Ok (proj f))).
  intros f f' Hext. rewrite (Hp _ _ Hext). reflexivity.
Qed.

Lemma stable_bind {A B} (m : M A) (k : A -> M B) :
  stable m -> (forall a, stable (k a)) -> stable (bind m k).
Proof.
  intros Hm Hk f f' r. unfold bind.
  destruct (m f) as [f1 [a|e]] eqn:Em.
  - intros Ek. destruct (Hm _ _ _ Em) as [H1 Hre].
    destruct (Hk a _ _ _ Ek) as [H2 Hre2].
    split; [eapply ext_trans; eassumption|].
    destruct r as [b|e].
    + intros f2 Hext. rewrite (Hre f2) by (eapply ext_trans; eassumption).
      apply Hre2. exact Hext.
    + rewrite (Hre f' H2). exact Hre2.
  - intros [= <- <-]. destruct (Hm _ _ _ Em) as [H1 Hre].
    split; [exact H1|]. rewrite Hre. reflexivity.
Qed.

Lemma stable_for_each {A S} (l : list A) (body : S -> A -> M S) :
  (forall s a, stable (body s a)) -> forall s, stable (for_each l body s).
Proof.
  intros Hb. induction l as [|a l IH]; intros s; simpl.
  - apply stable_ret.
  - apply stable_bind; [apply Hb|exact IH].
Qed.

Lemma stable_cached {A} slot store_slot (body : M A) :
  stable body ->
  (forall o, preserves (fun f => slot f = o) body) ->
  (forall v f, slot f = None -> ext f (store_slot v f)) ->
  (forall v f, slot (store_slot v f) = Some v) ->
  (forall f f', ext f f' -> sub_slot (slot f) (slot f')) ->
  stable (cached_property slot store_slot body).
Proof.
  intros Hb Hp Hext Hget Hmono f f' r. unfold cached_property.
  destruct (slot f) as [v|] eqn:Es.
  - intros [= <- <-]. split; [apply ext_refl|].
    intros f2 H2. rewrite (Hmono _ _ H2 v Es). reflexivity.
  - destruct (body f) as [f1 [v|e]] eqn:Eb; intros [= <- <-].
    + destruct (Hb _ _ _ Eb) as [H1 _].
      pose proof (Hp None _ _ _ Es Eb) as Es1.
      split; [eapply ext_trans; [exact H1|apply Hext; exact Es1]|].
      intros f2 H2. rewrite (Hmono _ _ H2 v (Hget v f1)). reflexivity.
    + destruct (Hb _ _ _ Eb) as [H1 Hre].
      pose proof (Hp None _ _ _ Es Eb) as Es1.
      split; [exact H1|]. rewrite Es1, Hre. reflexivity.
Qed.

End Caching.

(** The facts about named methods that the step tactics below may use. *)
Create HintDb methods discriminated.
#[global] Hint Constants Opaque : methods.

(** One step of a proof that a method keeps an invariant: the method is
    taken apart along its binds, loops and branches. *)
Ltac preserves_step :=
  lazymatch goal with
  | |- preserves _ (ret _) => apply preserves_ret
  | |- preserves _ (lift _) => apply preserves_lift
  | |- preserves _ (attr _) => apply preserves_attr
  | |- preserves _ (reading _) => apply preserves_reading
  | |- preserves _ (bind _ _) => apply preserves_bind; [|intros ?]
  | |- preserves _ (for_each _ _ _) =>
      apply preserves_for_each;
      first [intros ? [? ?] | intros ? ?]; cbv beta iota
  | |- preserves _ (let _ := _ in _) => cbv zeta
  | |- preserves _ (if ?b then _ else _) => destruct b
  | |- preserves _ (match ?x with _ => _ end) => destruct x
  | |- preserves _ _ =>
      solve [auto 2 with methods nocore]
  end.

Ltac preserves_tac := repeat preserves_step.

(** One step of a proof that a method can be run again. *)
Ltac stable_step :=
  lazymatch goal with
  | |- stable (ret _) => apply stable_ret
  | |- stable (lift _) => apply stable_lift
  | |- stable (attr _) =>
      apply stable_attr;
      (let Hx := fresh in
       intros ? ? Hx; destruct Hx;
       unfold self_x, self_y, _xax_height, labelstrings; congruence)
  | |- stable (reading _) =>
      apply stable_reading;
      (let Hx := fresh in
       intros ? ? Hx; destruct Hx;
       unfold legend_width, labelstrings; congruence)
  | |- stable (bind _ _) => apply stable_bind; [|intros ?]
  | |- stable (for_each _ _ _) =>
      apply stable_for_each;
      first [intros ? [? ?] | intros ? ?]; cbv beta iota
  | |- stable (let _ := _ in _) => cbv zeta
  | |- stable (if ?b then _ else _) => destruct b
  | |- stable (match ?x with _ => _ end) => destruct x
  | |- stable _ =>
      solve [auto 2 with methods nocore]
  end.

Ltac stable_tac := repeat stable_step.

(** Filling a slot extends the instance, and the slot then holds the value. *)
Ltac slot_facts :=
  first
    [ intros ? ? ?; split; try reflexivity; intros ? ?; simpl in *; congruence
    | intros ? ?; reflexivity
    | intros ? ? []; assumption ].

(** *** The cached properties and the draw pipeline *)

Section CachedProperties.
Context `{Helpers}.

Lemma preserves_ytick_values P :
  (forall v f, P f -> P (set_ytick_values v f)) -> preserves P _ytick_values.
Proof. intros Hs. apply preserves_cached; [preserves_tac|exact Hs]. Qed.

Lemma preserves_xtick_values P :
  (forall v f, P f -> P (set_xtick_values v f)) -> preserves P _xtick_values.
Proof. intros Hs. apply preserves_cached; [preserves_tac|exact Hs]. Qed.

Lemma preserves_yax_width P :
  preserves P _ytick_values ->
  (forall v f, P f -> P (set_yax_width v f)) -> preserves P _yax_width.
Proof. intros Ht Hs. apply preserves_cached; [preserves_tac|exact Hs]. Qed.

Lemma preserves_yscale P :
  preserves P _ytick_values ->
  (forall v f, P f -> P (set_yscale v f)) -> preserves P _yscale.
Proof. intros Ht Hs. apply preserves_cached; [preserves_tac|exact Hs]. Qed.

Lemma preserves_xscale P :
  preserves P _yax_width -> preserves P _xtick_values ->
  (forall v f, P f -> P (set_xscale v f)) -> preserves P _xscale.
Proof. intros Hw Ht Hs. apply preserves_cached; [preserves_tac|exact Hs]. Qed.

Lemma cache_safe_stores P :
  (forall v f, P f -> P (set_ytick_values v f)) ->
  (forall v f, P f -> P (set_xtick_values v f)) ->
  (forall v f, P f -> P (set_yax_width v f)) ->
  (forall v f, P f -> P (set_yscale v f)) ->
  (forall v f, P f -> P (set_xscale v f)) ->
  cache_safe P.
Proof.
  intros H1 H2 H3 H4 H5.
  pose proof (preserves_ytick_values P H1).
  pose proof (preserves_xtick_values P H2).
  pose proof (preserves_yax_width P ltac:(assumption) H3).
  repeat split; auto using preserves_yscale, preserves_xscale.
Qed.

Lemma preserves_draw_x_axis P canvas :
  cache_safe P -> preserves P (_draw_x_axis canvas).
Proof. intros (?&?&?&?&?). unfold _draw_x_axis. preserves_tac. Qed.

Lemma preserves_draw_y_axis P canvas :
  cache_safe P -> preserves P (_draw_y_axis canvas).
Proof. intros (?&?&?&?&?). unfold _draw_y_axis. preserves_tac. Qed.

Lemma preserves_call P p canvas : cache_safe P -> preserves P (call p canvas).
Proof.
  intros (?&?&?&?&?).
  unfold call, draw_scatter, draw_line, draw_bar, draw_hbar. preserves_tac.
Qed.

Lemma preserves_draw_legend P canvas :
  cache_safe P -> preserves P (_draw_legend canvas).
Proof.
  intros (?&?&?&?&?). unfold _draw_legend, legend_top, legend_left. preserves_tac.
Qed.

#[local] Hint Resolve preserves_draw_x_axis preserves_draw_y_axis
  preserves_call preserves_draw_legend : methods.

Lemma preserves_draw_plots P : cache_safe P -> preserves P draw_plots.
Proof. intros HP. unfold draw_plots. preserves_tac. Qed.

Lemma preserves_draw P : cache_safe P -> preserves P draw.
Proof.
  intros HP. pose proof (preserves_draw_plots P HP).
  unfold draw. preserves_tac.
Qed.

Lemma stable_ytick_values : stable _ytick_values.
Proof.
  apply stable_cached; try slot_facts; [stable_tac|].
  intros o. preserves_tac.
Qed.

Lemma stable_xtick_values : stable _xtick_values.
Proof.
  apply stable_cached; try slot_facts; [stable_tac|].
  intros o. preserves_tac.
Qed.

#[local] Hint Resolve stable_ytick_values stable_xtick_values : methods.

Lemma stable_yax_width : stable _yax_width.
Proof.
  apply stable_cached; try slot_facts; [stable_tac|].
  intros o. pose proof (preserves_ytick_values (fun f => cached_yax_width f = o)
                          ltac:(intros; assumption)).
  preserves_tac.
Qed.

Lemma stable_yscale : stable _yscale.
Proof.
  apply stable_cached; try slot_facts; [stable_tac|].
  intros o. pose proof (preserves_ytick_values (fun f => cached_yscale f = o)
                          ltac:(intros; assumption)).
  preserves_tac.
Qed.

#[local] Hint Resolve stable_yax_width stable_yscale : methods.

Lemma stable_xscale : stable _xscale.
Proof.
  apply stable_cached; try slot_facts; [stable_tac|].
  intros o.
  pose proof (preserves_ytick_values (fun f => cached_xscale f = o)
                ltac:(intros; assumption)).
  pose proof (preserves_xtick_values (fun f => cached_xscale f = o)
                ltac:(intros; assumption)).
  pose proof (preserves_yax_width (fun f => cached_xscale f = o)
                ltac:(assumption) ltac:(intros; assumption)).
  preserves_tac.
Qed.

#[local] Hint Resolve stable_xscale : methods.

Lemma stable_draw_x_axis canvas : stable (_draw_x_axis canvas).
Proof. unfold _draw_x_axis. stable_tac. Qed.

Lemma stable_draw_y_axis canvas : stable (_draw_y_axis canvas).
Proof. unfold _draw_y_axis. stable_tac. Qed.

Lemma stable_call p canvas : stable (call p canvas).
Proof. unfold call, draw_scatter, draw_line, draw_bar, draw_hbar. stable_tac. Qed.

Lemma stable_legend_top height : stable (legend_top height).
Proof. unfold legend_top. stable_tac. Qed.

Lemma stable_legend_left width : stable (legend_left width).
Proof. unfold legend_left. stable_tac. Qed.

#[local] Hint Resolve stable_draw_x_axis stable_draw_y_axis stable_call
  stable_legend_top stable_legend_left : methods.

Lemma stable_draw_legend canvas : stable (_draw_legend canvas).
Proof. unfold _draw_legend. stable_tac. Qed.

Lemma stable_draw_plots : stable draw_plots.
Proof. unfold draw_plots. stable_tac. Qed.

#[local] Hint Resolve stable_draw_legend stable_draw_plots : methods.

Lemma stable_draw : stable draw.
Proof. unfold draw. stable_tac. Qed.

#[local] Hint Resolve stable_draw : methods.

Lemma stable_repr : stable __repr__.
Proof. unfold __repr__. stable_tac. Qed.

(** C3: rendering a figure and rendering it again, with nothing registered
    or configured in between, gives the same result both times: the same
    string, or else the same exception. *)
Theorem render_twice (f : Figure) :
  (__repr__ (__repr__ f).1).2 = (__repr__ f).2.
Proof.
  destruct (__repr__ f) as [f' r] eqn:E. simpl.
  destruct (stable_repr _ _ _ E) as [_ Hre].
  destruct r as [s|e].
  - rewrite (Hre f' (ext_refl f')). reflexivity.
  - rewrite Hre. reflexivity.
Qed.

End CachedProperties.

#[global] Hint Resolve preserves_draw_x_axis preserves_draw_y_axis
  preserves_call preserves_draw_legend preserves_draw_plots preserves_draw
  stable_ytick_values stable_xtick_values stable_yax_width stable_yscale
  stable_xscale stable_draw_x_axis stable_draw_y_axis stable_call
  stable_legend_top stable_legend_left stable_draw_legend stable_draw_plots
  stable_draw stable_repr : methods.

(** ** Drawing without data *)

Section NoData.
Context `{Helpers}.

Lemma store_list_raise a v l e : store_list a v l = Raise e -> e = ValueError.
Proof.
  unfold store_list. destruct (length l =? length v)%nat; [discriminate|].
  destruct l as [|ch [|ch' l]]; try discriminate; congruence.
Qed.

Lemma yax_width_no_data (f : Figure) :
  no_data f ->
  exists f', _yax_width f = (f', Raise ValueError) /\ no_data f'.
Proof.
  destruct f. unfold no_data. simpl. intros (-> & -> & -> & Ht).
  unfold _yax_width, cached_property, bind, _ytick_values, cached_property,
    bind, attr, lift, ret, self_y. simpl.
  destruct Ht as [-> | ->]; simpl.
  - destruct (is_numerical []); simpl;
      (eexists; split; [reflexivity|]; simpl; auto).
  - eexists; split; [reflexivity|]; simpl; auto.
Qed.

Lemma draw_x_axis_no_data canvas (f : Figure) :
  no_data f ->
  exists f', _draw_x_axis canvas f = (f', Raise ValueError) /\ no_data f'.
Proof.
  intros Hf. destruct (yax_width_no_data f Hf) as (f' & Hw & Hf').
  exists f'. split; [|exact Hf'].
  destruct Hf as (Hp & Hx & _).
  unfold _draw_x_axis, bind at 1. unfold _xscale, cached_property.
  rewrite Hx. unfold bind at 1. unfold bind at 1. unfold attr at 1.
  unfold bind at 1. rewrite Hw. reflexivity.
Qed.

Lemma draw_plots_no_data (f : Figure) :
  no_data f ->
  exists f', draw_plots f = (f', Raise (no_data_error f)) /\ no_data f'.
Proof.
  intros Hf. unfold draw_plots, no_data_error.
  unfold bind at 1, attr at 1. unfold bind at 1, attr at 1.
  unfold bind at 1, lift at 1, np_empty.
  destruct ((height f <? 0) || (width f <? 0)) eqn:Eneg.
  { exists f. split; [reflexivity|exact Hf]. }
  unfold bind at 1, attr at 1. unfold bind at 1.
  destruct (truthy (title f)) eqn:Et; simpl andb.
  - unfold bind at 1, attr at 1, lift at 1.
    unfold row_view, index. cbn [nrows fill rbind].
    apply orb_false_iff in Eneg as [Hh Hw].
    apply Z.ltb_ge in Hh.
    destruct (height f =? 0) eqn:E0.
    + apply Z.eqb_eq in E0. rewrite E0. simpl.
      exists f. split; [reflexivity|exact Hf].
    + apply Z.eqb_neq in E0.
      replace ((0 <=? 0) && (0 <? Z.of_nat (Z.to_nat (height f)))) with true
        by (symmetry; apply andb_true_iff; split;
            [reflexivity|apply Z.ltb_lt; lia]).
      cbn [rbind].
      match goal with |- context [_center_draw ?s ?v ?c] =>
        destruct (_center_draw s v c) as [c'|e] eqn:Ec end.
      * apply draw_x_axis_no_data with (canvas := c') in Hf.
        destruct Hf as (f' & Ex & Hf'). exists f'.
        split; [unfold bind at 1; rewrite Ex; reflexivity|exact Hf'].
      * apply store_list_raise in Ec. subst e.
        exists f. split; [reflexivity|exact Hf].
  - unfold ret at 1.
    apply draw_x_axis_no_data with (canvas := fill
      {| nrows := Z.to_nat (height f); ncols := Z.to_nat (width f);
         cells := replicate (Z.to_nat (height f))
                    (replicate (Z.to_nat (width f)) zero) |} " ") in Hf.
    destruct Hf as (f' & Ex & Hf'). exists f'.
    split; [unfold bind at 1; rewrite Ex; reflexivity|exact Hf'].
Qed.

Lemma draw_no_data (f : Figure) :
  no_data f ->
  exists f', draw f = (f', Raise (no_data_error f)) /\ no_data f'.
Proof.
  intros Hf. destruct (draw_plots_no_data f Hf) as (f' & Hd & Hf').
  exists f'. split; [|exact Hf']. unfold draw, bind. rewrite Hd. reflexivity.
Qed.

Lemma register_state fn x y marker label (f : Figure) :
  (register fn x y marker label f).1 = f
  \/ exists p f1, (register fn x y marker label f).1 = append_plot p f1.
Proof.
  unfold register, bind, _prep, modify, ret, lift.
  destruct (length x =? length y)%nat; simpl; [|left; reflexivity].
  destruct marker as [|m rest]; simpl; [left; reflexivity|].
  destruct (truthy label); simpl; right; eauto.
Qed.

(** A reachable figure without plots has nothing cached but, possibly, an
    empty set of y ticks. *)
Lemma reachable_no_data (f : Figure) :
  reachable f -> _plots f = [] -> no_data f.
Proof.
  induction 1 as [term xl yl t w h loc n f Hinit|fn x y marker label f Hr IH|f Hr IH];
    intros Hp.
  - injection Hinit as <-. unfold no_data. simpl. auto.
  - destruct (register_state fn x y marker label f) as [E|(p & f1 & E)].
    + rewrite E in *. auto.
    + rewrite E in Hp. simpl in Hp. destruct (_plots f1); discriminate.
  - destruct (draw f) as [f' r] eqn:Ed. simpl in *.
    destruct (stable_draw _ _ _ Ed) as [Hext _].
    assert (Hf : no_data f) by (apply IH; destruct Hext; congruence).
    destruct (draw_no_data f Hf) as (f2 & Ed2 & Hf2).
    rewrite Ed in Ed2. injection Ed2 as <- _. exact Hf2.
Qed.

(** C7: drawing or rendering a figure on which no plot was registered
    fails, at draw time: with [ValueError] (the specification's
    EmptyDataError, raised by [min()] or [max()] on the empty sequence of
    values, or by [np.empty] on a negative size), and with [IndexError] in
    the one case of a title on a canvas without rows. *)
Theorem draw_without_plots (f : Figure) :
  reachable f -> _plots f = [] ->
  (draw f).2 = Raise (no_data_error f)
  /\ (__repr__ f).2 = Raise (no_data_error f)
  /\ (0 < height f -> (draw f).2 = Raise ValueError).
Proof.
  intros Hr Hp. pose proof (reachable_no_data f Hr Hp) as Hf.
  destruct (draw_no_data f Hf) as (f' & Hd & _).
  split; [rewrite Hd; reflexivity|].
  split; [unfold __repr__, bind; rewrite Hd; reflexivity|].
  intros Hh. rewrite Hd. simpl. unfold no_data_error.
  destruct ((height f <? 0) || (width f <? 0)); [reflexivity|].
  replace (height f =? 0) with false by (symmetry; apply Z.eqb_neq; lia).
  rewrite andb_false_r. reflexivity.
Qed.

End NoData.

(** ** Categorical axes *)

Section Categorical.
Context `{Helpers}.

Lemma value_eqb_refl v : value_eqb v v = true.
Proof.
  destruct v as [q|s]; simpl.
  - apply Qeq_bool_iff. reflexivity.
  - apply String.eqb_refl.
Qed.

Lemma value_eqb_trans u v w :
  value_eqb u v = true -> value_eqb v w = true -> value_eqb u w = true.
Proof.
  destruct u as [p|s], v as [q|t], w as [r|u]; simpl; try discriminate.
  - rewrite !Qeq_bool_iff. intros -> ->. reflexivity.
  - rewrite !String.eqb_eq. congruence.
Qed.

(** [set(l)] holds every value of [l], up to equality of values, and
    nothing else. *)
Lemma py_set_sound l w : In w (py_set l) -> In w l.
Proof.
  induction l as [|v l IH]; simpl; [tauto|].
  intros [->|Hw]; [left; reflexivity|].
  right. apply IH. apply List.filter_In in Hw. tauto.
Qed.

Lemma py_set_complete l v :
  In v l -> exists w, In w (py_set l) /\ value_eqb w v = true.
Proof.
  induction l as [|v0 l IH]; simpl; [tauto|].
  intros [->|Hv].
  - exists v. split; [left; reflexivity|apply value_eqb_refl].
  - destruct (IH Hv) as (w & Hw & Ewv).
    destruct (value_eqb v0 w) eqn:E0.
    + exists v0. split; [left; reflexivity|eapply value_eqb_trans; eassumption].
    + exists w. split; [|exact Ewv].
      right. apply List.filter_In. rewrite E0. split; [exact Hw|reflexivity].
Qed.

Lemma categorical_ticks_kept a : preserves (categorical a) (axis_ticks a).
Proof.
  intros f f' r [Hn Hc].
  destruct a; simpl in *;
    unfold _xtick_values, _ytick_values, cached_property;
    (destruct Hc as [Hc|[l Hc]]; rewrite Hc;
     [|intros [= <- _]; split; [exact Hn|right; eauto]]);
    unfold bind, attr, ret; rewrite Hn; intros [= <- _];
    (split; [exact Hn|right; simpl; eauto]).
Qed.

Lemma categorical_cache_safe a : cache_safe (categorical a).
Proof.
  pose proof (categorical_ticks_kept a) as Hk.
  assert (Hy : preserves (categorical a) _ytick_values).
  { destruct a; [|exact Hk]. apply preserves_ytick_values. intros v f Hf. exact Hf. }
  assert (Hx : preserves (categorical a) _xtick_values).
  { destruct a; [exact Hk|]. apply preserves_xtick_values. intros v f Hf. exact Hf. }
  assert (Hw : preserves (categorical a) _yax_width).
  { apply preserves_yax_width; [exact Hy|]. intros v f Hf. destruct a; exact Hf. }
  split; [exact Hy|]. split; [exact Hx|]. split; [exact Hw|]. split.
  - apply preserves_yscale; [exact Hy|]. intros v f Hf. destruct a; exact Hf.
  - apply preserves_xscale; [exact Hw|exact Hx|].
    intros v f Hf. destruct a; exact Hf.
Qed.

Lemma categorical_ticks a (f : Figure) :
  categorical a f ->
  exists f' l, axis_ticks a f = (f', Ok (TickSet l)).
Proof.
  intros [Hn Hc].
  destruct a; simpl in *;
    unfold _xtick_values, _ytick_values, cached_property;
    (destruct Hc as [Hc|[l Hc]]; rewrite Hc; [|eauto]);
    unfold bind, attr, ret; rewrite Hn; eauto.
Qed.

Lemma bind_raises {A B} (m : M A) (k : A -> M B) (f : Figure) :
  is_ok (m f).2 = false -> is_ok (bind m k f).2 = false.
Proof. unfold bind. destruct (m f) as [f1 [a|e]]; simpl; congruence. Qed.

Lemma bind_raises_later {A B} P (m : M A) (k : A -> M B) :
  preserves P m ->
  (forall a f1, P f1 -> is_ok (k a f1).2 = false) ->
  forall f, P f -> is_ok (bind m k f).2 = false.
Proof.
  intros Hm Hk f HP. unfold bind.
  destruct (m f) as [f1 [a|e]] eqn:Em; [|reflexivity].
  apply Hk. exact (Hm _ _ _ HP Em).
Qed.

Lemma draw_x_axis_categorical canvas (f : Figure) :
  categorical X f -> is_ok (_draw_x_axis canvas f).2 = false.
Proof.
  revert f. unfold _draw_x_axis.
  apply bind_raises_later.
  - exact (proj2 (proj2 (proj2 (proj2 (categorical_cache_safe X))))).
  - intros sc f Hf. destruct (categorical_ticks X f Hf) as (f' & l & Et).
    simpl in Et. unfold bind at 1. rewrite Et. reflexivity.
Qed.

Lemma draw_y_axis_categorical canvas (f : Figure) :
  categorical Y f -> is_ok (_draw_y_axis canvas f).2 = false.
Proof.
  revert f. unfold _draw_y_axis.
  apply bind_raises_later.
  - exact (proj1 (proj2 (proj2 (proj2 (categorical_cache_safe Y))))).
  - intros sc f Hf. destruct (categorical_ticks Y f Hf) as (f' & l & Et).
    simpl in Et. unfold bind at 1. rewrite Et. reflexivity.
Qed.

Lemma draw_plots_categorical a (f : Figure) :
  categorical a f -> is_ok (draw_plots f).2 = false.
Proof.
  revert f. unfold draw_plots.
  do 5 (apply bind_raises_later; [preserves_tac|intros ?]).
  destruct a.
  - intros f Hf. apply bind_raises. apply draw_x_axis_categorical. exact Hf.
  - apply bind_raises_later.
    + apply preserves_draw_x_axis. apply categorical_cache_safe.
    + intros c f Hf. apply bind_raises. apply draw_y_axis_categorical. exact Hf.
Qed.

(** C1, as the code has it: the ticks of a categorical axis are the Python
    set of its values, whatever the tick budget: every label, once.  A set
    has no first or last element: indexing it raises [TypeError], so the
    axis-drawing step fails and a figure with a categorical axis is never
    drawn or rendered. *)
Theorem categorical_ticks_not_subscriptable (a : axis) (f : Figure) :
  is_numerical (axis_values a f) = false -> cached_ticks a f = None ->
  (axis_ticks a f).2 = Ok (TickSet (py_set (axis_values a f)))
  /\ (forall v, In v (axis_values a f) ->
        exists w, In w (py_set (axis_values a f)) /\ value_eqb w v = true)
  /\ (forall w, In w (py_set (axis_values a f)) -> In w (axis_values a f))
  /\ (forall i, ticks_getitem (TickSet (py_set (axis_values a f))) i
                = Raise TypeError)
  /\ is_ok (draw f).2 = false
  /\ is_ok (__repr__ f).2 = false.
Proof.
  intros Hn Hc.
  assert (Hcat : categorical a f) by (split; [exact Hn|left; exact Hc]).
  assert (Hd : is_ok (draw f).2 = false).
  { unfold draw. apply bind_raises. eapply draw_plots_categorical. exact Hcat. }
  repeat split.
  - destruct a; simpl in *;
      unfold _xtick_values, _ytick_values, cached_property;
      rewrite Hc; unfold bind, attr, ret; rewrite Hn; reflexivity.
  - apply py_set_complete.
  - apply py_set_sound.
  - exact Hd.
  - unfold __repr__. apply bind_raises. exact Hd.
Qed.

End Categorical.

(** ** The shape of the canvas *)

Section Shape.
Context `{Helpers}.

Lemma bind_Ok {A B} (m : M A) (k : A -> M B) (f f' : Figure) b :
  bind m k f = (f', Ok b) ->
  exists f1 a, m f = (f1, Ok a) /\ k a f1 = (f', Ok b).
Proof.
  unfold bind. destruct (m f) as [f1 [a|e]]; [eauto|discriminate].
Qed.

Lemma rbind_Ok {A B} (r : result A) (k : A -> result B) b :
  rbind r k = Ok b -> exists a, r = Ok a /\ k a = Ok b.
Proof. destruct r as [a|e]; simpl; [eauto|discriminate]. Qed.

Lemma set_cell_length ch cs rc : length (set_cell ch cs rc) = length cs.
Proof. unfold set_cell. apply length_alter. Qed.

Lemma set_cell_rows ch cs rc n :
  Forall (fun row => length row = n) cs ->
  Forall (fun row => length row = n) (set_cell ch cs rc).
Proof.
  intros Hcs. unfold set_cell. apply Forall_lookup. intros i row Hi.
  destruct (decide (rc.1 = i)) as [<-|Hne].
  - rewrite list_lookup_alter_eq in Hi.
    destruct (cs !! rc.1) as [row0|] eqn:E0; [|discriminate].
    injection Hi as <-. rewrite length_insert.
    exact (proj1 (Forall_lookup _ _) Hcs _ _ E0).
  - rewrite list_lookup_alter_ne in Hi by exact Hne.
    exact (proj1 (Forall_lookup _ _) Hcs _ _ Hi).
Qed.

Lemma paint_length ps cs : length (paint ps cs) = length cs.
Proof.
  revert cs. unfold paint. induction ps as [|p ps IH]; intros cs; simpl; [reflexivity|].
  rewrite IH. apply set_cell_length.
Qed.

Lemma paint_rows ps cs n :
  Forall (fun row => length row = n) cs ->
  Forall (fun row => length row = n) (paint ps cs).
Proof.
  revert cs. unfold paint. induction ps as [|p ps IH]; intros cs Hcs; simpl; [exact Hcs|].
  apply IH. apply set_cell_rows. exact Hcs.
Qed.

Lemma shaped_store h w a v ch : shaped h w a -> shaped h w (store a v ch).
Proof.
  intros ([Hl Hr] & Hh & Hw). repeat split; simpl; try assumption.
  - rewrite paint_length. exact Hl.
  - apply paint_rows. exact Hr.
Qed.

Lemma shaped_fill h w a ch : shaped h w a -> shaped h w (fill a ch).
Proof.
  intros (_ & Hh & Hw). repeat split; simpl; try assumption.
  - apply length_replicate.
  - apply Forall_replicate. apply length_replicate.
Qed.

Lemma shaped_np_empty h w a :
  np_empty h w = Ok a -> shaped (Z.to_nat h) (Z.to_nat w) a /\ 0 <= h /\ 0 <= w.
Proof.
  unfold np_empty. destruct ((h <? 0) || (w <? 0)) eqn:E; [discriminate|].
  intros [= <-]. apply orb_false_iff in E as [Eh Ew].
  apply Z.ltb_ge in Eh, Ew. repeat split; simpl; try assumption.
  - apply length_replicate.
  - apply Forall_replicate. apply length_replicate.
Qed.

Lemma ryields_Ok {A} (Q : A -> Prop) a : Q a -> ryields Q (Ok a).
Proof. intros HQ a' [= <-]. exact HQ. Qed.

Lemma ryields_rbind {A B} (Q : B -> Prop) (r : result A) (k : A -> result B) :
  (forall a, r = Ok a -> ryields Q (k a)) -> ryields Q (rbind r k).
Proof.
  intros Hk b Hb. apply rbind_Ok in Hb as (a & Ha & Hb). exact (Hk a Ha b Hb).
Qed.

Lemma ryields_rbind_with {A B} (R : A -> Prop) (Q : B -> Prop)
    (r : result A) (k : A -> result B) :
  ryields R r -> (forall a, R a -> ryields Q (k a)) -> ryields Q (rbind r k).
Proof.
  intros Hr Hk. apply ryields_rbind. intros a Ha. apply Hk. exact (Hr a Ha).
Qed.

Lemma ryields_rfold {A S} (Q : S -> Prop) (body : S -> A -> result S) l :
  (forall s a, Q s -> ryields Q (body s a)) ->
  forall s, Q s -> ryields Q (rfold body l s).
Proof.
  intros Hb. induction l as [|a l IH]; intros s Hs; simpl.
  - apply ryields_Ok. exact Hs.
  - apply ryields_rbind. intros s' Hs'. apply IH. exact (Hb s a Hs s' Hs').
Qed.

Lemma ryields_store_list h w a v l :
  shaped h w a -> ryields (shaped h w) (store_list a v l).
Proof.
  intros Ha a'. unfold store_list.
  destruct (length l =? length v)%nat.
  - intros [= <-]. destruct Ha as ([Hl Hr] & Hh & Hw).
    repeat split; simpl; try assumption.
    + rewrite paint_length. exact Hl.
    + apply paint_rows. exact Hr.
  - destruct l as [|ch [|ch' l]]; try discriminate.
    intros [= <-]. apply shaped_store. exact Ha.
Qed.

Lemma yields_ret {A} (Q : A -> Prop) a : Q a -> yields Q (ret a).
Proof. intros HQ f f' a' [= _ <-]. exact HQ. Qed.

Lemma yields_lift {A} (Q : A -> Prop) r : ryields Q r -> yields Q (lift r).
Proof. intros Hr f f' a [= _ Ha]. exact (Hr a Ha). Qed.

Lemma yields_bind {A B} (R : A -> Prop) (Q : B -> Prop) (m : M A) (k : A -> M B) :
  yields R m -> (forall a, R a -> yields Q (k a)) -> yields Q (bind m k).
Proof.
  intros Hm Hk f f' b Hb. apply bind_Ok in Hb as (f1 & a & Ha & Hb).
  exact (Hk a (Hm _ _ _ Ha) _ _ _ Hb).
Qed.

Lemma yields_bind_any {A B} (Q : B -> Prop) (m : M A) (k : A -> M B) :
  (forall a, yields Q (k a)) -> yields Q (bind m k).
Proof.
  intros Hk. apply (yields_bind (fun _ => True)); [intros ? ? ? _; exact I|].
  intros a _. apply Hk.
Qed.

Lemma yields_for_each {A S} (Q : S -> Prop) (l : list A) (body : S -> A -> M S) :
  (forall s a, Q s -> yields Q (body s a)) ->
  forall s, Q s -> yields Q (for_each l body s).
Proof.
  intros Hb. induction l as [|a l IH]; intros s Hs; simpl.
  - apply yields_ret. exact Hs.
  - apply (yields_bind Q); [apply Hb; exact Hs|]. intros s' Hs'. apply IH. exact Hs'.
Qed.

End Shape.

(** One step of a proof that a drawing step returns a canvas of the shape
    it was given. *)
Ltac shape_step :=
  lazymatch goal with
  | |- shaped _ _ (store _ _ _) => apply shaped_store
  | |- shaped _ _ (fill _ _) => apply shaped_fill
  | |- shaped _ _ _ => assumption
  | |- ryields _ (Ok _) => apply ryields_Ok
  | |- ryields ?Q (@rbind ?A _ _ _) =>
      lazymatch A with
      | ndarray => apply (ryields_rbind_with Q); [|intros ? ?]
      | _ => apply ryields_rbind; intros ? ?
      end
  | |- ryields _ (rfold _ _ _) =>
      apply ryields_rfold;
      [first [intros ? [[? ?] [? ?]] ? | intros ? [? ?] ? | intros ? ? ?];
       cbv beta iota|]
  | |- ryields _ (store_list _ _ _) => apply ryields_store_list
  | |- ryields _ (_center_draw _ _ _) => unfold _center_draw
  | |- ryields _ (_ljust_draw _ _ _) => unfold _ljust_draw
  | |- ryields _ (_rjust_draw _ _ _) => unfold _rjust_draw
  | |- ryields _ (put_row _ _ _ _ _) => unfold put_row
  | |- ryields _ (legend_box _ _ _ _ _) => unfold legend_box
  | |- ryields _ (bar_loop _ _ _ _) => unfold bar_loop
  | |- yields _ (ret _) => apply yields_ret
  | |- yields _ (lift _) => apply yields_lift
  | |- yields ?Q (@bind _ ?A _ _ _) =>
      lazymatch A with
      | ndarray => apply (yields_bind Q); [|intros ? ?]
      | _ => apply yields_bind_any; intros ?
      end
  | |- yields _ (for_each _ _ _) =>
      apply yields_for_each;
      [first [intros ? [? ?] ? | intros ? ? ?]; cbv beta iota|]
  | |- yields _ (let _ := _ in _) => cbv zeta
  | |- ryields _ (let _ := _ in _) => cbv zeta
  | |- yields _ (if ?b then _ else _) => destruct b
  | |- yields _ (match ?x with _ => _ end) => destruct x
  | |- ryields _ (if ?b then _ else _) => destruct b
  | |- ryields _ (match ?x with _ => _ end) => destruct x
  | |- yields _ _ => solve [auto 2 with methods nocore]
  end.

Ltac shape_tac := repeat shape_step.

Section DrawShape.
Context `{Helpers}.
Variables h w : nat.

Lemma shaped_draw_x_axis canvas :
  shaped h w canvas -> yields (shaped h w) (_draw_x_axis canvas).
Proof. intros Hc. unfold _draw_x_axis. shape_tac. Qed.

Lemma shaped_draw_y_axis canvas :
  shaped h w canvas -> yields (shaped h w) (_draw_y_axis canvas).
Proof. intros Hc. unfold _draw_y_axis. shape_tac. Qed.

Lemma shaped_call p canvas :
  shaped h w canvas -> yields (shaped h w) (call p canvas).
Proof.
  intros Hc. unfold call, draw_scatter, draw_line, draw_bar, draw_hbar. shape_tac.
Qed.

Lemma shaped_draw_legend canvas :
  shaped h w canvas -> yields (shaped h w) (_draw_legend canvas).
Proof. intros Hc. unfold _draw_legend. shape_tac. Qed.

End DrawShape.

#[global] Hint Resolve shaped_draw_x_axis shaped_draw_y_axis shaped_call
  shaped_draw_legend : methods.

Section RenderShape.
Context `{Helpers}.

Lemma draw_plots_shaped (f f' : Figure) canvas :
  draw_plots f = (f', Ok canvas) ->
  shaped (Z.to_nat (height f)) (Z.to_nat (width f)) canvas
  /\ 0 <= height f /\ 0 <= width f.
Proof.
  unfold draw_plots. intros Hd.
  apply bind_Ok in Hd as (f1 & hh & [= <- <-] & Hd).
  apply bind_Ok in Hd as (f1 & ww & [= <- <-] & Hd).
  apply bind_Ok in Hd as (f1 & c0 & [= <- Hn] & Hd).
  apply shaped_np_empty in Hn as (Hc & Hh & Hw).
  split; [|split; assumption].
  match type of Hd with ?m _ = _ =>
    assert (Hy : yields (shaped (Z.to_nat (height f)) (Z.to_nat (width f))) m)
      by shape_tac
  end.
  exact (Hy _ _ _ Hd).
Qed.

Lemma draw_shaped (f f' : Figure) canvas :
  draw f = (f', Ok canvas) ->
  shaped (Z.to_nat (height f)) (Z.to_nat (width f)) canvas
  /\ 0 <= height f /\ 0 <= width f.
Proof.
  unfold draw. intros Hd.
  apply bind_Ok in Hd as (f1 & c0 & Hp & Hd).
  apply draw_plots_shaped in Hp as (Hc & Hh & Hw).
  split; [|split; assumption].
  apply bind_Ok in Hd as (f2 & ls & [= <- <-] & Hd).
  destruct (_labels f1).
  - injection Hd as _ <-. exact Hc.
  - exact (shaped_draw_legend _ _ _ Hc _ _ _ Hd).
Qed.

Lemma length_string_of_list_ascii l :
  String.length (string_of_list_ascii l) = length l.
Proof. induction l as [|c l IH]; simpl; congruence. Qed.

(** The rendered string is the rows of the canvas, joined by line feeds. *)
Lemma repr_rows (f f' : Figure) s :
  __repr__ f = (f', Ok s) ->
  exists canvas, draw f = (f', Ok canvas) /\ s = join_lines (tolist canvas).
Proof.
  unfold __repr__. intros Hr.
  apply bind_Ok in Hr as (f1 & canvas & Hd & [= <- <-]). eauto.
Qed.

Lemma render_rows (f : Figure) s :
  (__repr__ f).2 = Ok s ->
  exists rows,
    s = join_lines rows
    /\ Z.of_nat (length rows) = height f
    /\ Forall (fun r => Z.of_nat (String.length r) = width f) rows.
Proof.
  destruct (__repr__ f) as [f' r] eqn:Er. simpl. intros ->.
  apply repr_rows in Er as (canvas & Hd & ->).
  apply draw_shaped in Hd as (([Hl Hr] & Hh & Hw) & Hh0 & Hw0).
  exists (tolist canvas). split; [reflexivity|]. unfold tolist. split.
  - rewrite length_map, Hl, Hh. lia.
  - apply Forall_map. eapply Forall_impl; [exact Hr|].
    intros row Hrow. simpl. rewrite length_string_of_list_ascii, Hrow, Hw. lia.
Qed.

End RenderShape.

(** ** Reading the canvas after a write *)

Section Cells.
Context `{Helpers}.

Lemma cell_of_set_cell ch cs rc r c :
  is_Some (cell_of cs r c) ->
  cell_of (set_cell ch cs rc) r c
    = if decide (rc = (r, c)) then Some ch else cell_of cs r c.
Proof.
  destruct rc as [r' c']. unfold cell_of, set_cell. simpl. intros Hin.
  destruct (decide (r' = r)) as [->|Hr].
  - rewrite list_lookup_alter_eq.
    destruct (cs !! r) as [row|] eqn:Erow; simpl in *; [|destruct Hin; discriminate].
    destruct (decide (c' = c)) as [->|Hc].
    + rewrite decide_True by reflexivity.
      apply list_lookup_insert_eq. apply lookup_lt_is_Some. exact Hin.
    + rewrite decide_False by congruence. apply list_lookup_insert_ne. exact Hc.
  - rewrite decide_False by congruence.
    rewrite list_lookup_alter_ne by exact Hr. reflexivity.
Qed.

Lemma cell_of_paint_const ch v : forall cs r c,
  is_Some (cell_of cs r c) ->
  cell_of (paint (map (fun rc => (rc, ch)) v) cs) r c
    = if bool_decide ((r, c) ∈ v) then Some ch else cell_of cs r c.
Proof.
  induction v as [|rc v IH]; intros cs r c Hin; simpl.
  - reflexivity.
  - unfold paint. simpl. fold (paint (map (fun rc => (rc, ch)) v)).
    pose proof (cell_of_set_cell ch cs rc r c Hin) as Hset.
    rewrite IH by (rewrite Hset; destruct (decide _); [eauto|exact Hin]).
    rewrite Hset.
    destruct (decide (rc = (r, c))) as [->|Hne].
    + rewrite (bool_decide_eq_true_2 ((r, c) ∈ (r, c) :: v)) by left.
      destruct (bool_decide _); reflexivity.
    + rewrite (bool_decide_ext ((r, c) ∈ rc :: v) ((r, c) ∈ v))
        by (rewrite elem_of_cons; split;
            [intros [E|E]; [congruence|exact E]|auto]).
      reflexivity.
Qed.

Lemma shaped_cell h w a r c :
  shaped h w a -> (r < h)%nat -> (c < w)%nat -> is_Some (get_cell a r c).
Proof.
  intros ([Hl Hrows] & Hh & Hw) Hr Hc. unfold get_cell, cell_of.
  destruct (cells a !! r) as [row|] eqn:Erow.
  - simpl. apply lookup_lt_is_Some.
    rewrite (proj1 (Forall_lookup _ _) Hrows _ _ Erow). lia.
  - apply lookup_ge_None in Erow. lia.
Qed.

Lemma get_cell_store h w a v ch r c :
  shaped h w a -> (r < h)%nat -> (c < w)%nat ->
  get_cell (store a v ch) r c
    = if bool_decide ((r, c) ∈ v) then Some ch else get_cell a r c.
Proof.
  intros Ha Hr Hc. unfold get_cell, store. simpl.
  apply (cell_of_paint_const ch v (cells a) r c).
  exact (shaped_cell h w a r c Ha Hr Hc).
Qed.

Lemma cached_yscale_hit (f : Figure) sc :
  cached_yscale f = Some sc -> _yscale f = (f, Ok sc).
Proof. intros Hc. unfold _yscale, cached_property. rewrite Hc. reflexivity. Qed.

Lemma cached_xscale_hit (f : Figure) sc :
  cached_xscale f = Some sc -> _xscale f = (f, Ok sc).
Proof. intros Hc. unfold _xscale, cached_property. rewrite Hc. reflexivity. Qed.

End Cells.

(** ** The legend box *)

Section Legend.
Context `{Helpers}.

Lemma length_chars s : length (chars s) = String.length s.
Proof. induction s as [|c s IH]; simpl; congruence. Qed.

Lemma length_append s t :
  String.length (s ++ t) = (String.length s + String.length t)%nat.
Proof. induction s as [|c s IH]; simpl; congruence. Qed.

Lemma length_repeat_char c n : String.length (repeat_char c n) = n.
Proof. induction n as [|n IH]; simpl; congruence. Qed.

Lemma len_ljust s width c : len s <= width -> len (ljust s width c) = width.
Proof.
  unfold ljust, len. intros Hs. rewrite length_append, length_repeat_char. lia.
Qed.

Lemma len_center s width c : len s <= width -> len (center s width c) = width.
Proof.
  unfold center, len. intros Hs.
  destruct (Z.leb_spec (width - Z.of_nat (String.length s)) 0) as [Hm|Hm]; [lia|].
  remember (width - Z.of_nat (String.length s)) as marg eqn:Emarg.
  assert (Hbit : 0 <= Z.land (Z.land marg width) 1 < 2).
  { change 1 with (Z.ones 1). rewrite Z.land_ones by lia. apply Z.mod_pos_bound. lia. }
  assert (Hdiv : 0 <= marg / 2 /\ (2 <= marg -> marg / 2 + 1 <= marg)
                 /\ (marg = 1 -> marg / 2 = 0))
    by (Z.to_euclidean_division_equations; lia).
  rewrite !length_append, !length_repeat_char. lia.
Qed.

Lemma cell_of_paint_row R l : forall L cs r c,
  is_Some (cell_of cs r c) ->
  cell_of (paint (zip (map (fun c => (R, c)) (seq L (length l))) l) cs) r c
    = if decide (r = R /\ (L <= c < L + length l)%nat) then l !! (c - L)%nat
      else cell_of cs r c.
Proof.
  induction l as [|x l IH]; intros L cs r c Hin.
  - simpl. rewrite decide_False by lia. reflexivity.
  - cbn [length seq map zip zip_with]. unfold paint. cbn [fold_left].
    fold (paint (zip (map (fun c => (R, c)) (seq (S L) (length l))) l)).
    pose proof (cell_of_set_cell x cs (R, L) r c Hin) as Hset. cbn [fst snd].
    rewrite IH by (cbn [fst snd] in Hset; rewrite Hset; destruct (decide _); [eauto|exact Hin]).
    cbn [fst snd] in Hset. rewrite Hset.
    destruct (decide ((R, L) = (r, c))) as [[= <- <-]|Hne].
    + rewrite decide_False by lia. rewrite decide_True by lia.
      rewrite Nat.sub_diag. reflexivity.
    + destruct (decide (r = R /\ (S L <= c < S L + length l)%nat)) as [[-> Hc]|Hc].
      * rewrite decide_True by lia.
        replace (c - L)%nat with (S (c - S L)) by lia. reflexivity.
      * rewrite decide_False; [reflexivity|].
        intros [-> Hc']. apply Hc. split; [reflexivity|].
        assert (c <> L) by congruence. lia.
Qed.

Lemma paint_other_rows R ps : forall cs r,
  Forall (fun p : (nat * nat) * ascii => p.1.1 = R) ps -> r <> R ->
  paint ps cs !! r = cs !! r.
Proof.
  induction ps as [|p ps IH]; intros cs r Hps Hr; [reflexivity|].
  apply Forall_cons in Hps as [Hp Hps]. unfold paint. cbn [fold_left].
  fold (paint ps). rewrite IH by assumption.
  unfold set_cell. apply list_lookup_alter_ne. congruence.
Qed.

Lemma segment_ext a a' r lo n :
  cells a' !! r = cells a !! r -> segment a' r lo n = segment a r lo n.
Proof. unfold segment. intros ->. reflexivity. Qed.

Lemma segment_cells h w a R L (l : list ascii) :
  shaped h w a -> (R < h)%nat -> (L + length l <= w)%nat ->
  (forall c, (L <= c < L + length l)%nat -> cell_of (cells a) R c = l !! (c - L)%nat) ->
  segment a R L (length l) = l.
Proof.
  intros ([Hl Hrows] & Hh & Hw) HR HL Hc. unfold segment.
  destruct (cells a !! R) as [row|] eqn:Erow;
    [|apply lookup_ge_None in Erow; lia].
  simpl. apply list_eq. intros i.
  destruct (decide (i < length l)%nat) as [Hi|Hi].
  - rewrite lookup_take_lt by exact Hi. rewrite lookup_drop.
    specialize (Hc (L + i)%nat ltac:(lia)). unfold cell_of in Hc.
    rewrite Erow in Hc. simpl in Hc. rewrite Hc. f_equal. lia.
  - rewrite lookup_take_ge by lia. symmetry. apply lookup_ge_None. lia.
Qed.

(** One row of the box: [self._canvas[row, left:left+width] = list(s)] with
    a negative row index and a string of [width] characters. *)
Lemma put_row_spec h w a row L width s a' :
  shaped h w a -> put_row a row L width s = Ok a' ->
  row < 0 -> 0 <= L -> 2 <= width -> len s = width ->
  - Z.of_nat h <= row /\ L + width <= Z.of_nat w
  /\ shaped h w a'
  /\ segment a' (Z.to_nat (row + Z.of_nat h)) (Z.to_nat L) (Z.to_nat width) = chars s
  /\ forall r, r <> Z.to_nat (row + Z.of_nat h) -> cells a' !! r = cells a !! r.
Proof.
  intros Ha Hput Hrow HL Hwd Hs. pose proof Ha as (Hwf & Hh & Hw).
  unfold put_row, row_view, index in Hput. rewrite Hh, Hw in Hput.
  destruct (Z.leb_spec 0 row); [lia|]. cbn [andb] in Hput.
  destruct (Z.leb_spec (- Z.of_nat h) row); cbn [andb] in Hput;
    [|destruct (row <? 0); discriminate].
  replace (row <? 0) with true in Hput by (symmetry; apply Z.ltb_lt; lia).
  cbn [rbind] in Hput.
  unfold slice, slice_bound in Hput. cbn [from_option] in Hput.
  replace (L <? 0) with false in Hput by (symmetry; apply Z.ltb_ge; lia).
  replace (L + width <? 0) with false in Hput by (symmetry; apply Z.ltb_ge; lia).
  assert (Hlen : length (chars s) = Z.to_nat width)
    by (rewrite length_chars; unfold len in Hs; lia).
  unfold store_list in Hput. rewrite length_map, length_seq in Hput.
  destruct (Nat.eqb_spec (length (chars s))
              (Z.to_nat (Z.min (L + width) (Z.of_nat w)) - Z.to_nat (Z.min L (Z.of_nat w))))
    as [Heq|Hne].
  - injection Hput as <-.
    assert (Hfit : L + width <= Z.of_nat w) by lia.
    split; [assumption|]. split; [exact Hfit|].
    assert (Ha' : shaped h w
      {| nrows := nrows a; ncols := ncols a;
         cells := paint (zip (map (fun c => (Z.to_nat (row + Z.of_nat h), c))
                                (seq (Z.to_nat (Z.min L (Z.of_nat w)))
                                   (Z.to_nat (Z.min (L + width) (Z.of_nat w))
                                    - Z.to_nat (Z.min L (Z.of_nat w)))))
                           (chars s)) (cells a) |}).
    { destruct Hwf as [Hl Hrows]. repeat split; simpl; try assumption.
      - rewrite paint_length. exact Hl.
      - apply paint_rows. exact Hrows. }
    split; [exact Ha'|]. split.
    + rewrite <- Hlen. apply (segment_cells h w); [exact Ha'|lia|lia|].
      intros c Hc. simpl. rewrite <- Heq.
      replace (Z.to_nat (Z.min L (Z.of_nat w))) with (Z.to_nat L) by lia.
      rewrite cell_of_paint_row
        by (apply (shaped_cell h w a); [exact Ha|lia|lia]).
      rewrite decide_True by lia. reflexivity.
    + intros r Hr. simpl. apply (paint_other_rows (Z.to_nat (row + Z.of_nat h)));
        [|exact Hr].
      apply Forall_forall. intros [[r0 c0] ch] Hin.
      apply elem_of_zip_l in Hin.
      change (map (fun c => (Z.to_nat (row + Z.of_nat h), c))) with
        (fmap (M := list) (fun c : nat => (Z.to_nat (row + Z.of_nat h), c))) in Hin.
      apply list_elem_of_fmap in Hin as (c1 & [= -> ->] & _). reflexivity.
  - destruct (chars s) as [|ch [|ch' l]]; try discriminate. simpl in Hlen. lia.
Qed.

Lemma len_line s width :
  len s <= width - 2 -> len ("|" ++ ljust s (width - 2) " " ++ "|") = width.
Proof.
  intros Hs. pose proof (len_ljust s (width - 2) " " Hs) as Hl.
  unfold len in *. cbn [append String.length]. rewrite length_append. simpl. lia.
Qed.

(** The interior lines, written by the loop over [enumerate(labelstrings)]. *)
Lemma legend_lines_spec h w top L width : forall ls k a a',
  shaped h w a -> 0 <= L -> 2 <= width ->
  Forall (fun s => len s <= width - 2) ls ->
  top + k + Z.of_nat (length ls) < 0 ->
  rfold (fun canvas (il : Z * string) =>
           put_row canvas (top + il.1 + 1) L width
             ("|" ++ ljust il.2 (width - 2) " " ++ "|"))
    (enumerate ls k) a = Ok a' ->
  shaped h w a'
  /\ (ls <> [] -> - Z.of_nat h <= top + k + 1 /\ L + width <= Z.of_nat w)
  /\ (forall i s, ls !! i = Some s ->
        segment a' (Z.to_nat (top + k + 1 + Z.of_nat h) + i) (Z.to_nat L)
          (Z.to_nat width)
          = chars ("|" ++ ljust s (width - 2) " " ++ "|"))
  /\ (forall r, (r < Z.to_nat (top + k + 1 + Z.of_nat h))%nat ->
        cells a' !! r = cells a !! r)
  /\ (forall r, (Z.to_nat (top + k + 1 + Z.of_nat h) + length ls <= r)%nat ->
        cells a' !! r = cells a !! r).
Proof.
  induction ls as [|s ls IH]; intros k a a' Ha HL Hwd Hls Hneg Hrun.
  - injection Hrun as <-. repeat split; try apply Ha; try reflexivity.
    + congruence.
    + congruence.
    + intros i s Hi. rewrite lookup_nil in Hi. discriminate.
  - apply Forall_cons in Hls as [Hs Hls]. cbn [enumerate rfold] in Hrun.
    apply rbind_Ok in Hrun as (a1 & Hput & Hrun). cbn [fst snd] in Hput.
    cbn [length] in Hneg.
    apply (put_row_spec h w) in Hput as (Hlo & Hfit & Ha1 & Hseg & Hframe);
      [|exact Ha|lia|exact HL|exact Hwd|apply len_line; exact Hs].
    apply (IH (k + 1) a1 a' Ha1 HL Hwd Hls) in Hrun as (Ha' & _ & Hsegs & Hup & Hdown);
      [|lia].
    replace (Z.to_nat (top + (k + 1) + 1 + Z.of_nat h))
      with (S (Z.to_nat (top + k + 1 + Z.of_nat h))) in * by lia.
    set (R := Z.to_nat (top + k + 1 + Z.of_nat h)) in *.
    split; [exact Ha'|]. split; [intros _; split; assumption|]. split; [|split].
    + intros [|i] s' Hi.
      * injection Hi as <-. rewrite Nat.add_0_r.
        rewrite (segment_ext a1 a') by (apply Hup; lia). exact Hseg.
      * replace (R + S i)%nat with (S R + i)%nat by lia. apply Hsegs. exact Hi.
    + intros r Hr. rewrite Hup by lia. apply Hframe. lia.
    + intros r Hr. cbn [length] in Hr. rewrite Hdown by lia. apply Hframe. lia.
Qed.

(** The whole box, when its rows lie above the bottom of the canvas and its
    left column is a column of the canvas. *)
Lemma legend_box_spec h w a top L width ls a' :
  shaped h w a -> legend_box a top L width ls = Ok a' ->
  0 <= L -> top + Z.of_nat (length ls) + 1 < 0 ->
  len "Legend" + 2 <= width ->
  Forall (fun s => len s <= width - 2) ls ->
  - Z.of_nat h <= top /\ L + width <= Z.of_nat w /\ shaped h w a'
  /\ box_at a' (Z.to_nat (top + Z.of_nat h)) (Z.to_nat L) width ls.
Proof.
  intros Ha Hbox HL Hneg Hwd Hls. unfold legend_box in Hbox.
  change (len "Legend") with 6 in Hwd.
  apply rbind_Ok in Hbox as (a1 & Hput1 & Hbox).
  apply rbind_Ok in Hbox as (a2 & Hloop & Hput3).
  apply (put_row_spec h w) in Hput1 as (Hlo & Hfit & Ha1 & Hseg1 & Hframe1);
    [|exact Ha|lia|exact HL|lia|].
  2:{ pose proof (len_center "Legend" (width - 2) "-") as Hc.
      change (len "Legend") with 6 in Hc. specialize (Hc ltac:(lia)).
      unfold len in *. cbn [append String.length]. rewrite length_append. simpl. lia. }
  apply (legend_lines_spec h w top L width ls 0 a1 a2 Ha1 HL) in Hloop
    as (Ha2 & _ & Hsegs & Hup & Hdown); [|lia|exact Hls|lia].
  apply (put_row_spec h w) in Hput3 as (_ & _ & Ha3 & Hseg3 & Hframe3);
    [|exact Ha2|lia|exact HL|lia|].
  2:{ unfold len. cbn [append String.length].
      rewrite length_append, length_repeat_char. simpl. lia. }
  replace (Z.to_nat (top + 0 + 1 + Z.of_nat h))
    with (Z.to_nat (top + Z.of_nat h) + 1)%nat in * by lia.
  replace (Z.to_nat (top + Z.of_nat (length ls) + 1 + Z.of_nat h))
    with (Z.to_nat (top + Z.of_nat h) + 1 + length ls)%nat in * by lia.
  set (R := Z.to_nat (top + Z.of_nat h)) in *.
  split; [exact Hlo|]. split; [exact Hfit|]. split; [exact Ha3|].
  split; [|split].
  - rewrite (segment_ext a2 a') by (apply Hframe3; lia).
    rewrite (segment_ext a1 a2) by (apply Hup; lia). exact Hseg1.
  - intros i s Hi. pose proof (lookup_lt_Some _ _ _ Hi) as Hlt.
    rewrite (segment_ext a2 a') by (apply Hframe3; lia).
    apply Hsegs. exact Hi.
  - exact Hseg3.
Qed.

Lemma fold_max_bounds l : forall a,
  a <= fold_left Z.max l a /\ Forall (fun x => x <= fold_left Z.max l a) l.
Proof.
  induction l as [|x l IH]; intros a; simpl; [split; [lia|constructor]|].
  destruct (IH (Z.max a x)) as [Hge Hall]. split; [lia|].
  constructor; [lia|exact Hall].
Qed.

Lemma py_max_Z_bounds l m : py_max_Z l = Ok m -> Forall (fun x => x <= m) l.
Proof.
  destruct l as [|a l]; [discriminate|]. intros [= <-].
  destruct (fold_max_bounds l a) as [Hge Hall]. constructor; assumption.
Qed.

Lemma legend_width_bounds (f : Figure) wd :
  legend_width f = Ok wd ->
  exists m,
    py_max_Z (map len (labelstrings f)) = Ok m
    /\ Forall (fun l => len l <= m) (labelstrings f)
    /\ wd = Z.max (m + 2) (len "Legend" + 2).
Proof.
  unfold legend_width. intros Hw. apply rbind_Ok in Hw as (m & Hm & [= <-]).
  exists m. split; [exact Hm|]. split; [|reflexivity].
  apply py_max_Z_bounds in Hm.
  exact (proj1 (List.Forall_map len (fun x => x <= m) (labelstrings f)) Hm).
Qed.

Lemma length_slice n start stop : (length (slice n start stop) <= n)%nat.
Proof.
  unfold slice. rewrite length_seq.
  assert (Hb : forall i, (slice_bound n i <= n)%nat)
    by (intros i; unfold slice_bound; destruct (Z.ltb_spec i 0); lia).
  destruct stop as [e|]; simpl; [specialize (Hb e)|]; lia.
Qed.

(** A legend wider than the canvas is never drawn: its first row does not
    fit any slice of a canvas row, so the figure does not render. *)
Lemma legend_wider_than_canvas (f : Figure) wd :
  _labels f <> [] -> legend_width f = Ok wd -> width f < wd ->
  is_ok (draw f).2 = false /\ is_ok (__repr__ f).2 = false.
Proof.
  intros Hne Hw Hwide.
  assert (Hd : is_ok (draw f).2 = false).
  { destruct (draw f) as [f' [canvas|e]] eqn:Hd; [exfalso|reflexivity].
    destruct (legend_width_bounds f wd Hw) as (m & _ & _ & Ewd).
    change (len "Legend") with 6 in Ewd.
    unfold draw in Hd. apply bind_Ok in Hd as (f1 & c0 & Hp & Hd).
    pose proof (draw_plots_shaped _ _ _ Hp) as ((_ & _ & Hcols) & _ & Hw0).
    destruct (stable_draw_plots _ _ _ Hp) as [Hext _].
    assert (Ew1 : legend_width f1 = Ok wd)
      by (unfold legend_width, labelstrings;
          rewrite (ext_labels _ _ Hext); exact Hw).
    apply bind_Ok in Hd as (f2 & ls0 & [= <- <-] & Hd).
    rewrite (ext_labels _ _ Hext) in Hd.
    destruct (_labels f) as [|e0 es]; [contradiction|].
    unfold _draw_legend in Hd.
    apply bind_Ok in Hd as (f2 & ls & [= <- <-] & Hd).
    apply bind_Ok in Hd as (f2 & wd' & [= <- Hw'] & Hd).
    rewrite Ew1 in Hw'. injection Hw' as <-.
    apply bind_Ok in Hd as (f2 & otop & _ & Hd).
    apply bind_Ok in Hd as (f3 & oleft & _ & Hd).
    apply bind_Ok in Hd as (f4 & top' & _ & Hd).
    apply bind_Ok in Hd as (f5 & left' & _ & Hd).
    injection Hd as _ Hbox. unfold legend_box in Hbox.
    apply rbind_Ok in Hbox as (a1 & Hput & _).
    unfold put_row in Hput. apply rbind_Ok in Hput as (v & Hv & Hst).
    unfold row_view in Hv. apply rbind_Ok in Hv as (r & _ & [= <-]).
    pose proof (length_slice (ncols c0) (Some left') (Some (left' + wd))) as Hle.
    assert (Hlen : Z.of_nat (length (chars ("+" ++ center "Legend" (wd - 2) "-" ++ "+")))
                   = wd).
    { pose proof (len_center "Legend" (wd - 2) "-") as Hc.
      change (len "Legend") with 6 in Hc. specialize (Hc ltac:(lia)).
      rewrite length_chars. unfold len in Hc. cbn [append String.length].
      rewrite length_append. simpl. lia. }
    unfold store_list in Hst. rewrite length_map in Hst.
    destruct (Nat.eqb_spec
                (length (chars ("+" ++ center "Legend" (wd - 2) "-" ++ "+")))
                (length (slice (ncols c0) (Some left') (Some (left' + wd)))))
      as [Heq|_]; [lia|].
    destruct (chars ("+" ++ center "Legend" (wd - 2) "-" ++ "+"))
      as [|ch [|ch' l]]; try discriminate. simpl in Hlen. lia. }
  split; [exact Hd|]. unfold __repr__, bind.
  destruct (draw f) as [f' [canvas|e]]; [discriminate|reflexivity].
Qed.


End Legend.

(** * The statements on concrete figures *)

Section Runs.
#[local] Existing Instance SpecHelpers.helpers.

Lemma categorical_ticks_not_subscriptable_witness :
  (__repr__ labels_figure).2 = Raise TypeError
  /\ (_xtick_values labels_figure).2 = Ok (TickSet [VStr "a"; VStr "b"])
  /\ is_ok (draw labels_figure).2 = false.
Proof.
  split; [vm_compute; reflexivity|].
  assert (Hn : is_numerical (axis_values X labels_figure) = false)
    by (vm_compute; reflexivity).
  assert (Hc : cached_ticks X labels_figure = None) by reflexivity.
  destruct (categorical_ticks_not_subscriptable X labels_figure Hn Hc)
    as (Ht & _ & _ & _ & Hd & _).
  split; [exact Ht|exact Hd].
Defined.

Lemma mismatched_lengths_rejected_witness :
  scatter (nums [1; 2]) (nums [1; 2; 3]) "o" None (blank 20 10)
    = (blank 20 10, Raise AssertionError)
  /\ _plots (scatter (nums [1; 2]) (nums [1; 2; 3]) "o" None (blank 20 10)).1 = [].
Proof.
  assert (Hlen : length (nums [1; 2]) <> length (nums [1; 2; 3]))
    by (simpl; lia).
  destruct (mismatched_lengths_rejected (nums [1; 2]) (nums [1; 2; 3]) "o" None
              (blank 20 10) Hlen) as (Hs & _ & _ & _ & Hst).
  split; [exact Hs|].
  destruct (Hst Scatter) as (_ & _ & He). apply He. reflexivity.
Defined.



Lemma init_accepts_bad_configuration :
  exists f : Figure,
    __init__ (80, 24) None None None (Some (-5)) (Some (-3)) "middle" 0 = Ok f
    /\ width f = -5 /\ height f = -3 /\ legendloc f = "middle"
    /\ xticklabel_length f = 0.
Proof. eexists. split; [reflexivity|]. repeat split. Qed.

Lemma draw_without_plots_witness :
  (draw (blank 20 10)).2 = Raise ValueError
  /\ (__repr__ (blank 20 10)).2 = Raise ValueError.
Proof.
  assert (Hr : reachable (blank 20 10))
    by (apply (reach_init (80, 24) None None None (Some 20) (Some 10)
                 "topright" 7); reflexivity).
  assert (Hp : _plots (blank 20 10) = []) by reflexivity.
  destruct (draw_without_plots (blank 20 10) Hr Hp) as (Hd & Hs & _).
  split; [exact Hd|exact Hs].
Defined.

End Runs.

(** * Further properties of the module *)

(** ** Registration *)

Section RegistrationOutcome.
Context `{Helpers}.

Lemma self_x_append p (f : Figure) :
  self_x (append_plot p f) = (self_x f ++ keywords_x p)%list.
Proof.
  unfold self_x. simpl. rewrite map_app, concat_app. simpl.
  rewrite app_nil_r. reflexivity.
Qed.

Lemma self_y_append p (f : Figure) :
  self_y (append_plot p f) = (self_y f ++ keywords_y p)%list.
Proof.
  unfold self_y. simpl. rewrite map_app, concat_app. simpl.
  rewrite app_nil_r. reflexivity.
Qed.

(** What a registration call leaves behind: the figure is unchanged when it
    raises, and extended by exactly one plot (and one legend entry for a
    non-empty label) when it returns. *)
Lemma register_cases fn x y marker label (f : Figure) :
  (exists e, register fn x y marker label f = (f, Raise e)
             /\ ((e = AssertionError /\ length x <> length y)
                 \/ (e = IndexError /\ length x = length y
                     /\ marker = EmptyString)))
  \/ (exists c rest,
        marker = String c rest /\ length x = length y
        /\ register fn x y marker label f
           = (append_plot {| func := fn; keywords_x := x; keywords_y := y;
                             keywords_marker := c |}
                (if truthy label then append_label (c, default "" label) f
                 else f),
              Ok tt)).
Proof.
  unfold register, bind, _prep, modify, ret, lift.
  destruct (Nat.eqb_spec (length x) (length y)) as [Hl|Hl]; simpl.
  - destruct marker as [|c rest]; simpl.
    + left. exists IndexError. split; [reflexivity|]. right. auto.
    + right. exists c, rest. split; [reflexivity|]. split; [exact Hl|].
      destruct (truthy label); reflexivity.
  - left. exists AssertionError. split; [reflexivity|]. left. auto.
Qed.

(** X1: a registration either raises and leaves the figure exactly as it was
    ([AssertionError] for sequences of different lengths, [IndexError] for
    an empty marker), or returns, and then the x and y values of the
    figure are the old ones followed by the new ones, with one more plot,
    and one more legend entry exactly when the label is a non-empty
    string. *)
Theorem registration_outcome fn x y marker label (f : Figure) :
  let f' := (register fn x y marker label f).1 in
  match (register fn x y marker label f).2 with
  | Raise e =>
      f' = f
      /\ ((e = AssertionError /\ length x <> length y)
          \/ (e = IndexError /\ length x = length y /\ marker = EmptyString))
  | Ok _ =>
      length x = length y /\ marker <> EmptyString
      /\ self_x f' = (self_x f ++ x)%list /\ self_y f' = (self_y f ++ y)%list
      /\ length (_plots f') = S (length (_plots f))
      /\ length (_labels f')
         = (if truthy label then S (length (_labels f)) else length (_labels f))
  end.
Proof.
  destruct (register_cases fn x y marker label f)
    as [(e & -> & He)|(c & rest & -> & Hl & ->)]; simpl.
  - split; [reflexivity|exact He].
  - split; [exact Hl|]. split; [discriminate|].
    rewrite self_x_append, self_y_append. simpl.
    unfold self_x, self_y.
    destruct (truthy label); simpl; rewrite !length_app; simpl;
      repeat split; lia.
Qed.

Lemma balanced_lengths (ps : list plot) :
  Forall (fun p => length (keywords_x p) = length (keywords_y p)) ps ->
  length (concat (map keywords_x ps)) = length (concat (map keywords_y ps)).
Proof.
  induction 1 as [|p ps Hp _ IH]; simpl; [reflexivity|].
  rewrite !length_app. congruence.
Qed.

Lemma draw_keeps_registrations (f : Figure) :
  _plots (draw f).1 = _plots f /\ _labels (draw f).1 = _labels f.
Proof.
  destruct (draw f) as [f' r] eqn:Ed. simpl.
  destruct (stable_draw _ _ _ Ed) as [[] _]. split; assumption.
Qed.

(** X2: of every figure a program can hold: each plot pairs as many x values
    as y values, so the aggregated [x] and [y] are equally long; and the
    markers of the legend entries are, in order, markers of registered
    plots, so there are at most as many legend entries as plots. *)
Theorem reachable_balanced (f : Figure) :
  reachable f ->
  balanced f
  /\ length (self_x f) = length (self_y f)
  /\ sublist (map fst (_labels f)) (map keywords_marker (_plots f))
  /\ (length (_labels f) <= length (_plots f))%nat.
Proof.
  intros Hr.
  assert (Hinv : balanced f
                 /\ sublist (map fst (_labels f)) (map keywords_marker (_plots f))).
  { induction Hr as [term xl yl t w h loc n f Hinit
                    |fn x y marker label f Hr IH|f Hr IH].
    - injection Hinit as <-. split; [constructor|apply sublist_nil_l].
    - destruct IH as [Hb Hs].
      destruct (register_cases fn x y marker label f)
        as [(e & -> & _)|(c & rest & _ & Hl & ->)]; simpl; [split; assumption|].
      unfold balanced. destruct (truthy label); simpl.
      + split; [apply Forall_app; split; [exact Hb|repeat constructor; exact Hl]|].
        rewrite !map_app. apply sublist_app; [exact Hs|reflexivity].
      + split; [apply Forall_app; split; [exact Hb|repeat constructor; exact Hl]|].
        rewrite map_app. apply sublist_inserts_r. exact Hs.
    - destruct (draw_keeps_registrations f) as [Ep El].
      unfold balanced. rewrite Ep, El. exact IH. }
  destruct Hinv as [Hb Hs]. split; [exact Hb|].
  split; [exact (balanced_lengths _ Hb)|]. split; [exact Hs|].
  apply sublist_length in Hs. rewrite !length_map in Hs. exact Hs.
Qed.

(** X3: drawing and rendering change nothing but empty cache slots: the
    configuration, the plots and the legend entries stay as they are, and a
    cached property that is set keeps its value, whether the call returns
    or raises. *)
Theorem draw_only_fills_caches (f : Figure) :
  ext f (draw f).1 /\ ext f (__repr__ f).1.
Proof.
  split.
  - destruct (draw f) as [f' r] eqn:E. exact (proj1 (stable_draw _ _ _ E)).
  - destruct (__repr__ f) as [f' r] eqn:E. exact (proj1 (stable_repr _ _ _ E)).
Qed.

(** X4: a negative width or height, which construction accepts, makes every
    draw and render raise [ValueError] at once, from [np.empty], before any
    cached property is computed. *)
Theorem negative_size_fails_at_draw (f : Figure) :
  height f < 0 \/ width f < 0 ->
  draw f = (f, Raise ValueError) /\ __repr__ f = (f, Raise ValueError).
Proof.
  intros Hneg.
  assert (Hd : draw f = (f, Raise ValueError)).
  { unfold draw, draw_plots, bind, attr, lift, np_empty.
    replace ((height f <? 0) || (width f <? 0)) with true; [reflexivity|].
    symmetry. apply orb_true_iff. rewrite !Z.ltb_lt. exact Hneg. }
  split; [exact Hd|]. unfold __repr__, bind. rewrite Hd. reflexivity.
Qed.

End RegistrationOutcome.

(** ** What a draw leaves in the caches *)

Section Ensures.
Context `{Helpers}.

Lemma ensures_bind_l {A B} P (m : M A) (k : A -> M B) :
  ensures P m -> (forall a, preserves P (k a)) -> ensures P (bind m k).
Proof.
  intros Hm Hk f f' b Hb. apply bind_Ok in Hb as (f1 & a & Ha & Hb).
  exact (Hk a f1 f' (Ok b) (Hm _ _ _ Ha) Hb).
Qed.

Lemma ensures_bind_r {A B} P (m : M A) (k : A -> M B) :
  (forall a, ensures P (k a)) -> ensures P (bind m k).
Proof.
  intros Hk f f' b Hb. apply bind_Ok in Hb as (f1 & a & Ha & Hb).
  exact (Hk a _ _ _ Hb).
Qed.

Lemma ensures_cached {A} (P : Figure -> Prop) slot store_slot (body : M A) :
  (forall f v, slot f = Some v -> P f) -> (forall v f, P (store_slot v f)) ->
  ensures P (cached_property slot store_slot body).
Proof.
  intros Hhit Hst f f' a. unfold cached_property.
  destruct (slot f) as [v|] eqn:Es.
  - intros [= <- _]. exact (Hhit _ _ Es).
  - destruct (body f) as [f1 [v|e]]; [|discriminate]. intros [= <- _]. apply Hst.
Qed.

Lemma cached_hit {A} slot store_slot (body : M A) (f : Figure) v :
  slot f = Some v -> cached_property slot store_slot body f = (f, Ok v).
Proof. intros Hs. unfold cached_property. rewrite Hs. reflexivity. Qed.

End Ensures.

(** A method that returns has run the cached property [Hc]: the binds of
    the method are followed up to the call. *)
Ltac ensures_tac Hc :=
  repeat
    lazymatch goal with
    | |- ensures _ (let _ := _ in _) => cbv zeta
    | |- ensures _ (bind ?m _) =>
        lazymatch type of Hc with
        | ensures _ ?m' =>
            tryif constr_eq m m'
            then (apply ensures_bind_l; [exact Hc|intros ?; solve [preserves_tac]])
            else (apply ensures_bind_r; intros ?)
        end
    end.

(** A filled slot stays filled whatever is cached next. *)
Ltac filled_safe :=
  apply cache_safe_stores;
  (let Hf := fresh in
   intros ? ? Hf; simpl; first [exact Hf | eexists; reflexivity]).

Section DrawnCaches.
Context `{Helpers}.

Lemma ensures_draw_x_axis P canvas :
  cache_safe P -> ensures P _xscale \/ ensures P _xtick_values ->
  ensures P (_draw_x_axis canvas).
Proof.
  intros HP Hc. pose proof HP as (?&?&?&?&?). unfold _draw_x_axis.
  destruct Hc as [Hc|Hc]; ensures_tac Hc.
Qed.

Lemma ensures_draw_y_axis P canvas :
  cache_safe P ->
  ensures P _yscale \/ ensures P _ytick_values \/ ensures P _yax_width ->
  ensures P (_draw_y_axis canvas).
Proof.
  intros HP Hc. pose proof HP as (?&?&?&?&?). unfold _draw_y_axis.
  destruct Hc as [Hc|[Hc|Hc]]; ensures_tac Hc.
Qed.

Lemma ensures_draw P :
  cache_safe P ->
  ensures P _yscale \/ ensures P _xscale \/ ensures P _yax_width
  \/ ensures P _ytick_values \/ ensures P _xtick_values ->
  ensures P draw.
Proof.
  intros HP Hc.
  assert (Hax : (forall canvas, ensures P (_draw_x_axis canvas))
                \/ (forall canvas, ensures P (_draw_y_axis canvas))).
  { destruct Hc as [Hc|[Hc|[Hc|[Hc|Hc]]]].
    - right. intros canvas. apply ensures_draw_y_axis; auto.
    - left. intros canvas. apply ensures_draw_x_axis; auto.
    - right. intros canvas. apply ensures_draw_y_axis; auto.
    - right. intros canvas. apply ensures_draw_y_axis; auto.
    - left. intros canvas. apply ensures_draw_x_axis; auto. }
  assert (Hp : ensures P draw_plots).
  { unfold draw_plots. do 5 (apply ensures_bind_r; intros ?).
    destruct Hax as [Hax|Hax].
    - apply ensures_bind_l; [apply Hax|intros ?; preserves_tac].
    - apply ensures_bind_r; intros ?.
      apply ensures_bind_l; [apply Hax|intros ?; preserves_tac]. }
  unfold draw. ensures_tac Hp.
Qed.

Lemma draw_fills_caches (f f' : Figure) canvas :
  draw f = (f', Ok canvas) -> drawn f'.
Proof.
  intros Hd. unfold drawn. repeat split.
  - refine (ensures_draw (fun f => is_Some (cached_yscale f)) _ _ f f' canvas Hd);
      [filled_safe|].
    left. apply ensures_cached; [intros ? ? ->; eexists; reflexivity|].
    intros; eexists; reflexivity.
  - refine (ensures_draw (fun f => is_Some (cached_xscale f)) _ _ f f' canvas Hd);
      [filled_safe|].
    right; left. apply ensures_cached; [intros ? ? ->; eexists; reflexivity|].
    intros; eexists; reflexivity.
  - refine (ensures_draw (fun f => is_Some (cached_yax_width f)) _ _ f f' canvas Hd);
      [filled_safe|].
    do 2 right; left. apply ensures_cached; [intros ? ? ->; eexists; reflexivity|].
    intros; eexists; reflexivity.
  - refine (ensures_draw (fun f => is_Some (cached_ytick_values f)) _ _ f f' canvas Hd);
      [filled_safe|].
    do 3 right; left. apply ensures_cached; [intros ? ? ->; eexists; reflexivity|].
    intros; eexists; reflexivity.
  - refine (ensures_draw (fun f => is_Some (cached_xtick_values f)) _ _ f f' canvas Hd);
      [filled_safe|].
    do 4 right. apply ensures_cached; [intros ? ? ->; eexists; reflexivity|].
    intros; eexists; reflexivity.
Qed.

Lemma layout_kept (f f' : Figure) :
  drawn f ->
  sub_slot (cached_yscale f) (cached_yscale f') ->
  sub_slot (cached_xscale f) (cached_xscale f') ->
  sub_slot (cached_yax_width f) (cached_yax_width f') ->
  sub_slot (cached_ytick_values f) (cached_ytick_values f') ->
  sub_slot (cached_xtick_values f) (cached_xtick_values f') ->
  drawn f' /\ layout f' = layout f.
Proof.
  intros ([sy Hsy] & [sx Hsx] & [w Hw] & [ty Hty] & [tx Htx]) H1 H2 H3 H4 H5.
  pose proof (H1 _ Hsy) as Hsy'. pose proof (H2 _ Hsx) as Hsx'.
  pose proof (H3 _ Hw) as Hw'. pose proof (H4 _ Hty) as Hty'.
  pose proof (H5 _ Htx) as Htx'.
  split; [unfold drawn; rewrite Hsy', Hsx', Hw', Hty', Htx'; repeat split; eauto|].
  unfold layout, _yscale, _xscale, _yax_width, _ytick_values, _xtick_values.
  rewrite (cached_hit _ _ _ f sy Hsy), (cached_hit _ _ _ f' sy Hsy').
  rewrite (cached_hit _ _ _ f sx Hsx), (cached_hit _ _ _ f' sx Hsx').
  rewrite (cached_hit _ _ _ f w Hw), (cached_hit _ _ _ f' w Hw').
  rewrite (cached_hit _ _ _ f ty Hty), (cached_hit _ _ _ f' ty Hty').
  rewrite (cached_hit _ _ _ f tx Htx), (cached_hit _ _ _ f' tx Htx').
  reflexivity.
Qed.

Lemma register_keeps_caches fn x y marker label (f : Figure) :
  let f' := (register fn x y marker label f).1 in
  cached_yscale f' = cached_yscale f /\ cached_xscale f' = cached_xscale f
  /\ cached_yax_width f' = cached_yax_width f
  /\ cached_ytick_values f' = cached_ytick_values f
  /\ cached_xtick_values f' = cached_xtick_values f.
Proof.
  destruct (register_cases fn x y marker label f)
    as [(e & -> & _)|(c & rest & _ & _ & ->)]; simpl; [repeat split|].
  destruct (truthy label); simpl; repeat split.
Qed.

(** X5: the first draw that returns fixes the layout of the figure for good:
    it leaves all five cached properties set, and neither a later
    registration nor a later draw changes what they give.  The scales, the
    ticks and the width of the y axis of every later draw are those
    computed from the data of the first one. *)
Theorem first_draw_freezes_layout fn x y marker label (f : Figure) :
  is_ok (draw f).2 = true ->
  let f1 := (draw f).1 in
  let f2 := (register fn x y marker label f1).1 in
  drawn f1 /\ drawn f2
  /\ layout f2 = layout f1 /\ layout (draw f2).1 = layout f1.
Proof.
  destruct (draw f) as [f1 [canvas|e]] eqn:Hd; [|discriminate]. intros _. simpl.
  pose proof (draw_fills_caches _ _ _ Hd) as H1.
  destruct (register_keeps_caches fn x y marker label f1) as (E1 & E2 & E3 & E4 & E5).
  simpl in E1, E2, E3, E4, E5.
  destruct (layout_kept f1 (register fn x y marker label f1).1 H1) as [H2 L2];
    try (intros v Hv; congruence).
  split; [exact H1|]. split; [exact H2|]. split; [exact L2|].
  rewrite <- L2.
  destruct (draw (register fn x y marker label f1).1) as [f3 r] eqn:Hd3.
  destruct (stable_draw _ _ _ Hd3) as [[] _]. simpl.
  apply layout_kept; assumption.
Qed.

End DrawnCaches.

(** ** Configurations and data that are accepted and fail at draw time *)

Section DrawFailures.
Context `{Helpers}.

Lemma draw_needs_x_ticks P :
  cache_safe P -> (forall f, P f -> is_ok (_xtick_values f).2 = false) ->
  forall f, P f -> is_ok (draw f).2 = false.
Proof.
  intros HP Hx.
  assert (Hax : forall canvas f, P f -> is_ok (_draw_x_axis canvas f).2 = false).
  { intros canvas. unfold _draw_x_axis. apply bind_raises_later.
    - exact (proj2 (proj2 (proj2 (proj2 HP)))).
    - intros sc f Hf. apply bind_raises. apply Hx. exact Hf. }
  intros f Hf. unfold draw. apply bind_raises. revert f Hf. unfold draw_plots.
  do 5 (apply bind_raises_later; [preserves_tac|intros ?]).
  intros f Hf. apply bind_raises. apply Hax. exact Hf.
Qed.

Lemma zero_label_length_ticks (f : Figure) :
  zero_label_length f ->
  exists e, _xtick_values f = (f, Raise e)
            /\ (is_ok (py_min (self_x f)) && is_ok (py_max (self_x f)) = true ->
                e = ZeroDivisionError).
Proof.
  intros (Hl & Hn & Hc).
  unfold _xtick_values, cached_property. rewrite Hc.
  unfold bind, attr, lift. rewrite Hn, Hl.
  destruct (py_min (self_x f)) as [lo|e1]; simpl.
  - destruct (py_max (self_x f)) as [hi|e2]; simpl.
    + exists ZeroDivisionError. split; reflexivity.
    + exists e2. split; [reflexivity|discriminate].
  - exists e1. split; [reflexivity|discriminate].
Qed.

Lemma zero_label_length_safe : cache_safe zero_label_length.
Proof.
  assert (Hy : preserves zero_label_length _ytick_values)
    by (apply preserves_ytick_values; intros v f Hf; exact Hf).
  assert (Hx : preserves zero_label_length _xtick_values).
  { intros f f' r Hf. destruct (zero_label_length_ticks f Hf) as (e & -> & _).
    intros [= <- _]. exact Hf. }
  assert (Hw : preserves zero_label_length _yax_width)
    by (apply preserves_yax_width; [exact Hy|intros v f Hf; exact Hf]).
  split; [exact Hy|]. split; [exact Hx|]. split; [exact Hw|]. split.
  - apply preserves_yscale; [exact Hy|intros v f Hf; exact Hf].
  - apply preserves_xscale; [exact Hw|exact Hx|intros v f Hf; exact Hf].
Qed.

(** X6: an [xticklabel_length] of 0, which construction accepts, makes the
    tick budget of a numerical x axis a division by zero: [_xtick_values]
    raises and caches nothing ([ZeroDivisionError] as soon as the x values
    have a minimum and a maximum), so the figure is never drawn or
    rendered. *)
Theorem zero_tick_label_length (f : Figure) :
  xticklabel_length f = 0 -> is_numerical (self_x f) = true ->
  cached_xtick_values f = None ->
  (exists e, _xtick_values f = (f, Raise e)
             /\ (is_ok (py_min (self_x f)) && is_ok (py_max (self_x f)) = true ->
                 e = ZeroDivisionError))
  /\ is_ok (draw f).2 = false /\ is_ok (__repr__ f).2 = false.
Proof.
  intros Hl Hn Hc.
  assert (Hf : zero_label_length f) by (repeat split; assumption).
  assert (Hd : is_ok (draw f).2 = false).
  { apply (draw_needs_x_ticks zero_label_length); [apply zero_label_length_safe| |exact Hf].
    intros f0 Hf0. destruct (zero_label_length_ticks f0 Hf0) as (e & -> & _).
    reflexivity. }
  split; [exact (zero_label_length_ticks f Hf)|]. split; [exact Hd|].
  unfold __repr__. apply bind_raises. exact Hd.
Qed.

Lemma legend_top_bound height (f f' : Figure) top :
  legend_top height f = (f', Ok (Some top)) ->
  vertical_known (legendloc f) = true.
Proof.
  unfold legend_top, vertical_known. unfold bind at 1, attr at 1.
  destruct (startswith (legendloc f) "top"); [reflexivity|].
  destruct (startswith (legendloc f) "bottom"); [reflexivity|].
  discriminate.
Qed.

Lemma legend_left_bound width (f f' : Figure) left_ :
  legend_left width f = (f', Ok (Some left_)) ->
  horizontal_known (legendloc f) = true.
Proof.
  unfold legend_left, horizontal_known. unfold bind at 1, attr at 1.
  destruct (endswith (legendloc f) "right"); [reflexivity|].
  destruct (endswith (legendloc f) "left"); [reflexivity|].
  discriminate.
Qed.

Lemma bound_Ok {A} (o : option A) a : bound o = Ok a -> o = Some a.
Proof. destruct o; simpl; congruence. Qed.

Lemma draw_legend_needs_location canvas (f : Figure) :
  vertical_known (legendloc f) && horizontal_known (legendloc f) = false ->
  is_ok (_draw_legend canvas f).2 = false.
Proof.
  intros Hloc. destruct (_draw_legend canvas f) as [f' [c'|e]] eqn:E; [|reflexivity].
  exfalso. unfold _draw_legend in E.
  apply bind_Ok in E as (f1 & ls & [= <- _] & E).
  apply bind_Ok in E as (f2 & width & [= <- _] & E).
  apply bind_Ok in E as (f3 & top & Et & E).
  apply bind_Ok in E as (f4 & left_ & El & E).
  apply bind_Ok in E as (f5 & t & [= <- Ht] & E).
  apply bind_Ok in E as (f6 & l & [= <- Hl] & E).
  apply bound_Ok in Ht, Hl. subst top left_.
  destruct (stable_legend_top _ _ _ _ Et) as [[] _].
  apply legend_top_bound in Et. apply legend_left_bound in El.
  rewrite Et in Hloc. simpl in Hloc. congruence.
Qed.

(** X7: a [legendloc] that does not start with ["top"] or ["bottom"], or does
    not end with ["right"] or ["left"], is accepted by construction, but on
    a figure with a legend entry no draw or render returns; when neither
    half is known and the plots themselves were drawn, the exception is the
    [UnboundLocalError] of the unassigned [top]. *)
Theorem unknown_legend_location (f : Figure) :
  _labels f <> [] ->
  vertical_known (legendloc f) && horizontal_known (legendloc f) = false ->
  is_ok (draw f).2 = false /\ is_ok (__repr__ f).2 = false
  /\ (vertical_known (legendloc f) = false ->
      horizontal_known (legendloc f) = false ->
      forall f1 canvas, draw_plots f = (f1, Ok canvas) ->
        draw f = (f1, Raise UnboundLocalError)).
Proof.
  intros Hne Hloc.
  assert (Hd : is_ok (draw f).2 = false).
  { unfold draw, bind at 1.
    destruct (draw_plots f) as [f1 [canvas|e]] eqn:Ep; [|reflexivity].
    destruct (stable_draw_plots _ _ _ Ep) as [[] _].
    unfold bind, attr.
    destruct (_labels f1) as [|l ls] eqn:El; [congruence|].
    apply draw_legend_needs_location. congruence. }
  split; [exact Hd|]. split; [unfold __repr__; apply bind_raises; exact Hd|].
  intros Hv Hh f1 canvas Ep.
  destruct (stable_draw_plots _ _ _ Ep) as [[] _].
  unfold draw, bind at 1. rewrite Ep. unfold bind at 1, attr at 1.
  destruct (_labels f1) as [|l ls] eqn:El; [congruence|].
  assert (Ht : forall height, legend_top height f1 = (f1, Ok None)).
  { intros height. unfold legend_top, bind at 1, attr at 1.
    replace (legendloc f1) with (legendloc f) by congruence.
    unfold vertical_known in Hv. apply orb_false_iff in Hv as [-> ->]. reflexivity. }
  assert (Hl : forall width, legend_left width f1 = (f1, Ok None)).
  { intros width. unfold legend_left, bind at 1, attr at 1.
    replace (legendloc f1) with (legendloc f) by congruence.
    unfold horizontal_known in Hh. apply orb_false_iff in Hh as [-> ->]. reflexivity. }
  assert (Hw : exists width, legend_width f1 = Ok width).
  { unfold legend_width, labelstrings. rewrite El. simpl. eauto. }
  destruct Hw as [width Hw].
  unfold _draw_legend. unfold bind at 1, attr at 1.
  unfold bind at 1, reading at 1. rewrite Hw.
  unfold bind at 1. rewrite Ht. unfold bind at 1. rewrite Hl. reflexivity.
Qed.

Lemma for_each_raises {A S} (l : list A) (body : S -> A -> M S) a :
  In a l -> (forall s f, is_ok (body s a f).2 = false) ->
  forall s f, is_ok (for_each l body s f).2 = false.
Proof.
  intros Hin Hb. induction l as [|a' l IH]; [destruct Hin|]. intros s f. simpl.
  destruct Hin as [->|Hin]; [apply bind_raises; apply Hb|].
  unfold bind. destruct (body s a' f) as [f1 [s'|e]]; [|reflexivity].
  apply IH. exact Hin.
Qed.

Lemma call_empty_bars p canvas (f : Figure) :
  empty_bars p ->
  is_ok (call p canvas f).2 = false
  /\ (is_Some (cached_yscale f) -> is_Some (cached_xscale f) ->
      call p canvas f = (f, Raise ValueError)).
Proof.
  intros [[Hf Hy]|[Hf Hx]]; unfold call; rewrite Hf.
  - unfold draw_bar. rewrite Hy. split.
    + unfold bind at 1. destruct (_yscale f) as [f1 [sy|e]]; reflexivity.
    + intros [sy Hsy] _. unfold bind at 1.
      rewrite (cached_yscale_hit f sy Hsy). reflexivity.
  - unfold draw_hbar. rewrite Hx. split.
    + unfold bind at 1. destruct (_xscale f) as [f1 [sx|e]]; reflexivity.
    + intros _ [sx Hsx]. unfold bind at 1.
      rewrite (cached_xscale_hit f sx Hsx). reflexivity.
Qed.

(** X8: a bar plot without values ([bar] with an empty [y], [hbar] with an
    empty [x]) passes registration, but its drawing function takes the
    minimum of the empty series: called with the scales in place it raises
    [ValueError], and a figure that holds such a plot is never drawn or
    rendered, whatever else was registered. *)
Theorem empty_bars_fail_at_draw p (f : Figure) :
  In p (_plots f) -> empty_bars p ->
  is_ok (draw f).2 = false /\ is_ok (__repr__ f).2 = false
  /\ forall canvas f1, drawn f1 -> call p canvas f1 = (f1, Raise ValueError).
Proof.
  intros Hin Hp.
  assert (HP : cache_safe (fun f0 => In p (_plots f0)))
    by (apply cache_safe_stores; intros v f0 Hf0; exact Hf0).
  assert (Hd : is_ok (draw f).2 = false).
  { unfold draw. apply bind_raises. revert f Hin. unfold draw_plots.
    do 7 (apply bind_raises_later; [preserves_tac|intros ?]).
    intros f Hin. unfold bind, attr.
    apply (for_each_raises _ _ p Hin). intros s f0.
    apply call_empty_bars. exact Hp. }
  split; [exact Hd|]. split; [unfold __repr__; apply bind_raises; exact Hd|].
  intros canvas f1 (Hsy & Hsx & _).
  exact (proj2 (call_empty_bars p canvas f1 Hp) Hsy Hsx).
Qed.

End DrawFailures.

(** ** The cells of scatter, line and horizontal bar plots *)

Section Points.
Context `{Helpers}.

Lemma rfold_map {A B S} (g : A -> B) (body : S -> B -> result S) l : forall s,
  rfold body (map g l) s = rfold (fun s a => body s (g a)) l s.
Proof.
  induction l as [|a l IH]; intros s; simpl; [reflexivity|].
  destruct (body s (g a)); simpl; [apply IH|reflexivity].
Qed.

Lemma rfold_ext {A S} (body body' : S -> A -> result S) l :
  (forall s a, body s a = body' s a) ->
  forall s, rfold body l s = rfold body' l s.
Proof.
  intros Hb. induction l as [|a l IH]; intros s; simpl; [reflexivity|].
  rewrite Hb. destruct (body' s a); simpl; [apply IH|reflexivity].
Qed.

Lemma rfold_app {A S} (body : S -> A -> result S) l1 l2 : forall s,
  rfold body (l1 ++ l2)%list s = (let? s' := rfold body l1 s in rfold body l2 s').
Proof.
  induction l1 as [|a l1 IH]; intros s; simpl; [reflexivity|].
  destruct (body s a); simpl; [apply IH|reflexivity].
Qed.

Lemma rfold_concat {A B S} (g : A -> list B) (body : S -> B -> result S) l :
  forall s,
  rfold (fun s a => rfold body (g a) s) l s = rfold body (concat (map g l)) s.
Proof.
  induction l as [|a l IH]; intros s; simpl; [reflexivity|].
  rewrite rfold_app. destruct (rfold body (g a) s); simpl; [apply IH|reflexivity].
Qed.

Lemma rmap_length {A B} (g : A -> result B) l : forall l',
  rmap g l = Ok l' -> length l' = length l.
Proof.
  induction l as [|a l IH]; intros l'; simpl; [intros [= <-]; reflexivity|].
  destruct (g a) as [b|e]; simpl; [|discriminate].
  destruct (rmap g l) as [bs|e]; simpl; [|discriminate].
  intros [= <-]. simpl. f_equal. apply IH. reflexivity.
Qed.

Lemma index_wraps n i :
  - Z.of_nat n <= i < Z.of_nat n ->
  index n i = Ok (Z.to_nat (i mod Z.of_nat n)).
Proof.
  intros Hi. unfold index.
  destruct (Z.leb_spec 0 i) as [H0|H0].
  - replace (i <? Z.of_nat n) with true by (symmetry; apply Z.ltb_lt; lia).
    simpl. rewrite Z.mod_small by lia. reflexivity.
  - simpl. replace (- Z.of_nat n <=? i) with true by (symmetry; apply Z.leb_le; lia).
    replace (i <? 0) with true by (symmetry; apply Z.ltb_lt; lia). simpl.
    f_equal. f_equal. apply (Z.mod_unique _ _ (-1)); [left; lia|lia].
Qed.

Lemma index_out n i :
  ~ (- Z.of_nat n <= i < Z.of_nat n) -> index n i = Raise IndexError.
Proof.
  intros Hi. unfold index.
  destruct (Z.leb_spec 0 i), (Z.ltb_spec i (Z.of_nat n)),
    (Z.leb_spec (- Z.of_nat n) i), (Z.ltb_spec i 0); simpl; try reflexivity; lia.
Qed.

Lemma mod_mirror (h y : Z) : 0 < h -> (- y - 1) mod h = h - 1 - y mod h.
Proof.
  intros Hh. symmetry.
  pose proof (Z.mod_pos_bound y h Hh). pose proof (Z.div_mod y h ltac:(lia)).
  apply (Z.mod_unique _ _ (- (y / h) - 1)); [left; lia|lia].
Qed.

Lemma point_view (h w : nat) canvas (p : Z * Z) :
  shaped h w canvas -> on_canvas (Z.of_nat h) (Z.of_nat w) p ->
  cell_view canvas (- p.2 - 1) p.1
    = Ok [(Z.to_nat ((- p.2 - 1) mod Z.of_nat h), Z.to_nat (p.1 mod Z.of_nat w))].
Proof.
  intros (_ & Hh & Hw) [Hx Hy]. unfold cell_view. rewrite Hh, Hw.
  rewrite (index_wraps h) by lia. rewrite (index_wraps w) by lia. reflexivity.
Qed.

Lemma point_view_out (h w : nat) canvas (p : Z * Z) :
  shaped h w canvas -> ~ on_canvas (Z.of_nat h) (Z.of_nat w) p ->
  cell_view canvas (- p.2 - 1) p.1 = Raise IndexError.
Proof.
  intros (_ & Hh & Hw) Hout. unfold cell_view. rewrite Hh, Hw.
  destruct (decide (- Z.of_nat h <= - p.2 - 1 < Z.of_nat h)) as [Hy|Hy].
  - rewrite (index_wraps h) by exact Hy. simpl.
    rewrite index_out; [reflexivity|].
    intros Hx. apply Hout. split; lia.
  - rewrite index_out by exact Hy. reflexivity.
Qed.

Lemma point_cell (h w : nat) (p : Z * Z) (r c : nat) :
  on_canvas (Z.of_nat h) (Z.of_nat w) p -> (r < h)%nat -> (c < w)%nat ->
  bool_decide ((r, c) ∈ ([(Z.to_nat ((- p.2 - 1) mod Z.of_nat h),
                           Z.to_nat (p.1 mod Z.of_nat w))] : view))
  = (Z.of_nat c =? p.1 mod Z.of_nat w)
      && (Z.of_nat h - 1 - Z.of_nat r =? p.2 mod Z.of_nat h).
Proof.
  intros [Hx Hy] Hr Hc.
  assert (Hmx : 0 <= p.1 mod Z.of_nat w < Z.of_nat w) by (apply Z.mod_pos_bound; lia).
  assert (Hmy : 0 <= p.2 mod Z.of_nat h < Z.of_nat h) by (apply Z.mod_pos_bound; lia).
  rewrite mod_mirror by lia.
  apply eq_true_iff_eq. rewrite bool_decide_eq_true, andb_true_iff, !Z.eqb_eq.
  rewrite list_elem_of_singleton. split.
  - intros [= -> ->]. lia.
  - intros [Hc' Hr']. f_equal; lia.
Qed.

Lemma plot_points_cells marker pts : forall canvas (h w : nat),
  shaped h w canvas -> Forall (on_canvas (Z.of_nat h) (Z.of_nat w)) pts ->
  exists canvas',
    rfold (fun canvas (p : Z * Z) =>
             let? v := cell_view canvas (- p.2 - 1) p.1 in
             Ok (store canvas v marker)) pts canvas = Ok canvas'
    /\ shaped h w canvas'
    /\ forall r c, (r < h)%nat -> (c < w)%nat ->
         get_cell canvas' r c
           = if on_points (Z.of_nat h) (Z.of_nat w) pts r c then Some marker
             else get_cell canvas r c.
Proof.
  induction pts as [|p pts IH]; intros canvas h w Hs Hpts.
  - exists canvas. repeat split; try apply Hs.
  - apply Forall_cons in Hpts as [Hp Hpts].
    cbn [rfold]. rewrite (point_view h w canvas p Hs Hp). cbn [rbind].
    set (v := [_]).
    destruct (IH (store canvas v marker) h w (shaped_store _ _ _ _ _ Hs) Hpts)
      as (canvas' & E & Hs' & Hcells).
    exists canvas'. split; [exact E|]. split; [exact Hs'|].
    intros r c Hr Hc. rewrite (Hcells r c Hr Hc).
    rewrite (get_cell_store h w canvas v marker r c Hs Hr Hc).
    unfold v. rewrite (point_cell h w p r c Hp Hr Hc).
    cbn [on_points existsb].
    fold (on_points (Z.of_nat h) (Z.of_nat w) pts r c).
    destruct (on_points (Z.of_nat h) (Z.of_nat w) pts r c);
      [rewrite orb_true_r; reflexivity|].
    rewrite orb_false_r. reflexivity.
Qed.

Lemma plot_points_out marker pts : forall canvas (h w : nat),
  shaped h w canvas ->
  Exists (fun p => ~ on_canvas (Z.of_nat h) (Z.of_nat w) p) pts ->
  rfold (fun canvas (p : Z * Z) =>
           let? v := cell_view canvas (- p.2 - 1) p.1 in
           Ok (store canvas v marker)) pts canvas = Raise IndexError.
Proof.
  induction pts as [|p pts IH]; intros canvas h w Hs Hex; [inversion Hex|].
  cbn [rfold].
  destruct (decide (- Z.of_nat w <= p.1 < Z.of_nat w
                    /\ - Z.of_nat h <= p.2 < Z.of_nat h)) as [Hp|Hp].
  - rewrite (point_view h w canvas p Hs Hp). cbn [rbind].
    apply (IH _ h w); [apply shaped_store; exact Hs|].
    apply Exists_cons in Hex as [Hp'|Hex]; [contradiction|exact Hex].
  - rewrite (point_view_out h w canvas p Hs Hp). reflexivity.
Qed.

Lemma line_loop marker xs ys canvas :
  rfold (fun canvas (s : (Q * Q) * (Q * Q)) =>
           let '((x0, x1), (y0, y1)) := s in
           rfold (fun canvas (p : Z * Z) =>
                    let? v := cell_view canvas (- p.2 - 1) p.1 in
                    Ok (store canvas v marker))
             (plot_line_segment (py_round x0) (py_round y0) (py_round x1) (py_round y1))
             canvas)
    (zip (zip (but_last xs) (but_first xs)) (zip (but_last ys) (but_first ys)))
    canvas
  = rfold (fun canvas (p : Z * Z) =>
             let? v := cell_view canvas (- p.2 - 1) p.1 in
             Ok (store canvas v marker))
      (line_points xs ys) canvas.
Proof.
  unfold line_points, segments. rewrite <- rfold_concat. apply rfold_ext.
  intros s [[x0 x1] [y0 y1]]. reflexivity.
Qed.

Lemma segments_short (xs ys : list Q) :
  (length xs <= 1)%nat \/ (length ys <= 1)%nat -> segments xs ys = [].
Proof.
  unfold segments, but_last. intros [Hl|Hl].
  - replace (length xs - 1)%nat with 0%nat by lia. reflexivity.
  - replace (length ys - 1)%nat with 0%nat by lia.
    rewrite take_0. cbn [zip_with]. apply zip_with_nil_r.
Qed.

(** X9: a scatter plot, when it is drawn with the scales of the axes, writes
    its marker into the cell of every point: column [round(x')], row
    [round(y')] counted upwards from the bottom row, for the transformed
    [(x', y')]; a negative position counts from the opposite edge.  It
    writes nowhere else, and the canvas keeps its shape. *)
Theorem scatter_cells (f : Figure) x y marker canvas sx sy xs ys :
  wf canvas ->
  cached_xscale f = Some sx -> cached_yscale f = Some sy ->
  transform_seq sx x = Ok xs -> transform_seq sy y = Ok ys ->
  Forall (on_canvas (Z.of_nat (nrows canvas)) (Z.of_nat (ncols canvas)))
    (rounded (zip xs ys)) ->
  exists canvas',
    draw_scatter x y marker canvas f = (f, Ok canvas')
    /\ shaped (nrows canvas) (ncols canvas) canvas'
    /\ forall r c, (r < nrows canvas)%nat -> (c < ncols canvas)%nat ->
         get_cell canvas' r c
           = if on_points (Z.of_nat (nrows canvas)) (Z.of_nat (ncols canvas))
                  (rounded (zip xs ys)) r c
             then Some marker
             else get_cell canvas r c.
Proof.
  intros Hwf Hsx Hsy Hxs Hys Hpts.
  assert (Hs0 : shaped (nrows canvas) (ncols canvas) canvas)
    by (split; [exact Hwf|split; reflexivity]).
  destruct (plot_points_cells marker _ canvas _ _ Hs0 Hpts)
    as (canvas' & E & Hs & Hcells).
  exists canvas'. split; [|split; assumption].
  unfold rounded in E. rewrite rfold_map in E.
  unfold draw_scatter, bind, lift.
  rewrite (cached_xscale_hit f sx Hsx), Hxs, (cached_yscale_hit f sy Hsy), Hys.
  f_equal. exact E.
Qed.

(** X10: a line plot, when it is drawn with the scales of the axes, writes its
    marker into the cells that [plot_line_segment] gives for every pair of
    consecutive points, and nowhere else. *)
Theorem line_cells (f : Figure) x y marker canvas sx sy xs ys :
  wf canvas ->
  cached_xscale f = Some sx -> cached_yscale f = Some sy ->
  transform_seq sx x = Ok xs -> transform_seq sy y = Ok ys ->
  Forall (on_canvas (Z.of_nat (nrows canvas)) (Z.of_nat (ncols canvas)))
    (line_points xs ys) ->
  exists canvas',
    draw_line x y marker canvas f = (f, Ok canvas')
    /\ shaped (nrows canvas) (ncols canvas) canvas'
    /\ forall r c, (r < nrows canvas)%nat -> (c < ncols canvas)%nat ->
         get_cell canvas' r c
           = if on_points (Z.of_nat (nrows canvas)) (Z.of_nat (ncols canvas))
                  (line_points xs ys) r c
             then Some marker
             else get_cell canvas r c.
Proof.
  intros Hwf Hsx Hsy Hxs Hys Hpts.
  assert (Hs0 : shaped (nrows canvas) (ncols canvas) canvas)
    by (split; [exact Hwf|split; reflexivity]).
  destruct (plot_points_cells marker _ canvas _ _ Hs0 Hpts)
    as (canvas' & E & Hs & Hcells).
  exists canvas'. split; [|split; assumption].
  unfold draw_line, bind, lift.
  rewrite (cached_xscale_hit f sx Hsx), Hxs, (cached_yscale_hit f sy Hsy), Hys.
  rewrite line_loop, E. reflexivity.
Qed.

(** X11: nothing is clipped: one point of a scatter plot, or one cell of a line,
    that falls outside the canvas (farther than its height or width, in
    either direction) aborts the drawing function with [IndexError]. *)
Theorem point_off_canvas (f : Figure) x y marker canvas sx sy xs ys :
  wf canvas ->
  cached_xscale f = Some sx -> cached_yscale f = Some sy ->
  transform_seq sx x = Ok xs -> transform_seq sy y = Ok ys ->
  (Exists (fun p => ~ on_canvas (Z.of_nat (nrows canvas)) (Z.of_nat (ncols canvas)) p)
     (rounded (zip xs ys)) ->
   draw_scatter x y marker canvas f = (f, Raise IndexError))
  /\ (Exists (fun p => ~ on_canvas (Z.of_nat (nrows canvas)) (Z.of_nat (ncols canvas)) p)
        (line_points xs ys) ->
      draw_line x y marker canvas f = (f, Raise IndexError)).
Proof.
  intros Hwf Hsx Hsy Hxs Hys.
  assert (Hs0 : shaped (nrows canvas) (ncols canvas) canvas)
    by (split; [exact Hwf|split; reflexivity]).
  split; intros Hex;
    pose proof (plot_points_out marker _ canvas _ _ Hs0 Hex) as E.
  - unfold rounded in E. rewrite rfold_map in E.
    unfold draw_scatter, bind, lift.
    rewrite (cached_xscale_hit f sx Hsx), Hxs, (cached_yscale_hit f sy Hsy), Hys.
    f_equal. exact E.
  - unfold draw_line, bind, lift.
    rewrite (cached_xscale_hit f sx Hsx), Hxs, (cached_yscale_hit f sy Hsy), Hys.
    rewrite line_loop, E. reflexivity.
Qed.

(** X12: a line through fewer than two points has no segment: when its drawing
    function returns, the canvas is exactly the one it was given. *)
Theorem short_line_draws_nothing (f : Figure) x y marker canvas :
  (length x <= 1)%nat \/ (length y <= 1)%nat ->
  match (draw_line x y marker canvas f).2 with
  | Ok canvas' => canvas' = canvas
  | Raise _ => True
  end.
Proof.
  intros Hl. unfold draw_line. unfold bind at 1.
  destruct (_xscale f) as [f1 [sx|e]]; [|exact I].
  unfold bind at 1, lift at 1.
  destruct (transform_seq sx x) as [xs|e] eqn:Hxs; [|exact I].
  unfold bind at 1. destruct (_yscale f1) as [f2 [sy|e]]; [|exact I].
  unfold bind at 1, lift at 1.
  destruct (transform_seq sy y) as [ys|e] eqn:Hys; [|exact I].
  apply rmap_length in Hxs, Hys.
  fold (segments xs ys). rewrite segments_short by lia. reflexivity.
Qed.

Lemma hbar_row (h w : nat) (s e ry : Z) (r c : nat) :
  0 <= s -> 0 <= e -> - Z.of_nat h <= ry < Z.of_nat h ->
  (r < h)%nat -> (c < w)%nat ->
  bool_decide ((r, c) ∈ map (fun c0 => (Z.to_nat ((- ry - 1) mod Z.of_nat h), c0))
                        (slice w (Some s) (Some e)))
    = (Z.of_nat h - 1 - Z.of_nat r =? ry mod Z.of_nat h)
        && (s <=? Z.of_nat c) && (Z.of_nat c <? e).
Proof.
  intros Hs He Hry Hr Hc. unfold slice, slice_bound. simpl.
  replace (s <? 0) with false by (symmetry; apply Z.ltb_ge; lia).
  replace (e <? 0) with false by (symmetry; apply Z.ltb_ge; lia).
  assert (Hmy : 0 <= ry mod Z.of_nat h < Z.of_nat h) by (apply Z.mod_pos_bound; lia).
  rewrite mod_mirror by lia.
  apply eq_true_iff_eq. rewrite bool_decide_eq_true, !andb_true_iff.
  rewrite Z.eqb_eq, Z.leb_le, Z.ltb_lt.
  change (map (fun c0 : nat => (Z.to_nat (Z.of_nat h - 1 - ry mod Z.of_nat h), c0)))
    with (fmap (M := list)
            (fun c0 : nat => (Z.to_nat (Z.of_nat h - 1 - ry mod Z.of_nat h), c0))).
  rewrite list_elem_of_fmap. setoid_rewrite elem_of_seq. split.
  - intros (c0 & [= -> ->] & Hlo & Hhi). lia.
  - intros [[Hr' Hlo] Hhi]. exists c. split; [f_equal; lia|lia].
Qed.

Lemma hbar_loop_cells start marker pts : forall canvas (h w : nat),
  shaped h w canvas -> 0 <= py_int start ->
  Forall (fun p : Q * Q =>
            0 <= py_round p.1
            /\ - Z.of_nat h <= py_round p.2 < Z.of_nat h) pts ->
  exists canvas',
    rfold (fun canvas (p : Q * Q) =>
             let? v := row_view canvas (- py_round p.2 - 1)
                         (Some (py_int start)) (Some (py_round p.1)) in
             Ok (store canvas v marker)) pts canvas = Ok canvas'
    /\ shaped h w canvas'
    /\ forall r c, (r < h)%nat -> (c < w)%nat ->
         get_cell canvas' r c
           = if on_hbar (Z.of_nat h) start pts r c then Some marker
             else get_cell canvas r c.
Proof.
  induction pts as [|p pts IH]; intros canvas h w Hs Hb Hpts.
  - exists canvas. repeat split; try apply Hs.
  - apply Forall_cons in Hpts as [[Hx Hy] Hpts].
    pose proof Hs as (_ & Hh & Hw).
    cbn [rfold]. unfold row_view at 1. rewrite Hh, Hw.
    rewrite (index_wraps h) by lia. cbn [rbind].
    set (v := map _ (slice w _ _)).
    destruct (IH (store canvas v marker) h w (shaped_store _ _ _ _ _ Hs) Hb Hpts)
      as (canvas' & E & Hs' & Hcells).
    exists canvas'. split; [exact E|]. split; [exact Hs'|].
    intros r c Hr Hc. rewrite (Hcells r c Hr Hc).
    rewrite (get_cell_store h w canvas v marker r c Hs Hr Hc).
    unfold v. rewrite hbar_row by lia.
    cbn [on_hbar existsb]. fold (on_hbar (Z.of_nat h) start pts r c).
    destruct (on_hbar (Z.of_nat h) start pts r c); [rewrite orb_true_r; reflexivity|].
    rewrite orb_false_r. reflexivity.
Qed.

(** X13: a horizontal bar plot, when it is drawn with the scales of the axes,
    writes its marker for every point [(x, y)] into the single row of the
    transformed [y], from the column of the transformed minimum of the
    series' own x values up to, but not including, the column of the
    transformed [x], and nowhere else; a bar that would run past the right
    edge is cut there. *)
Theorem hbar_cells (f : Figure) x y marker canvas sx sy m start xs ys :
  wf canvas ->
  cached_xscale f = Some sx -> cached_yscale f = Some sy ->
  py_min x = Ok m -> transform sx m = Ok start ->
  transform_seq sx x = Ok xs -> transform_seq sy y = Ok ys ->
  0 <= py_int start ->
  Forall (fun p : Q * Q =>
            0 <= py_round p.1
            /\ - Z.of_nat (nrows canvas) <= py_round p.2 < Z.of_nat (nrows canvas))
    (zip xs ys) ->
  exists canvas',
    draw_hbar x y marker canvas f = (f, Ok canvas')
    /\ shaped (nrows canvas) (ncols canvas) canvas'
    /\ forall r c, (r < nrows canvas)%nat -> (c < ncols canvas)%nat ->
         get_cell canvas' r c
           = if on_hbar (Z.of_nat (nrows canvas)) start (zip xs ys) r c
             then Some marker
             else get_cell canvas r c.
Proof.
  intros Hwf Hsx Hsy Hm Hb Hxs Hys Hpos Hpts.
  assert (Hs0 : shaped (nrows canvas) (ncols canvas) canvas)
    by (split; [exact Hwf|split; reflexivity]).
  destruct (hbar_loop_cells start marker (zip xs ys) canvas
              (nrows canvas) (ncols canvas) Hs0 Hpos Hpts)
    as (canvas' & E & Hs & Hcells).
  exists canvas'. split; [|split; assumption].
  unfold draw_hbar, bind, lift.
  rewrite (cached_xscale_hit f sx Hsx), Hm, Hb, (cached_xscale_hit f sx Hsx), Hxs.
  rewrite (cached_yscale_hit f sy Hsy), Hys, E. reflexivity.
Qed.

End Points.

(** ** Writing text into the canvas *)

Section Text.
Context `{Helpers}.

Lemma length_padded al s (n : nat) :
  String.length (padded al s (Z.of_nat n)) = Nat.max (String.length s) n.
Proof.
  destruct al; unfold padded.
  - unfold center. fold (len s).
    destruct (Z.leb_spec (Z.of_nat n - len s) 0) as [Hm|Hm]; [unfold len in Hm; lia|].
    pose proof (len_center s (Z.of_nat n) " " ltac:(lia)) as Hc.
    unfold len in Hc, Hm. unfold center in Hc. fold (len s) in Hc.
    replace (Z.of_nat n - len s <=? 0) with false in Hc
      by (symmetry; apply Z.leb_gt; unfold len; lia).
    lia.
  - unfold ljust, len. rewrite length_append, length_repeat_char. lia.
  - unfold rjust, len. rewrite length_append, length_repeat_char. lia.
Qed.

Lemma draw_text_store al s (array : view) canvas :
  draw_text al s array canvas
    = store_list canvas array (chars (padded al s (Z.of_nat (length array)))).
Proof. destruct al; reflexivity. Qed.

(** X14: the three text-drawing methods pad a string to the length of the
    slice they are given and never shorten it: a string that is longer than
    the slice raises [ValueError], unless it is a single character, which
    numpy broadcasts.  A string that fits is always written. *)
Theorem text_draw_outcome al s (array : view) canvas :
  if (String.length s <=? length array)%nat || (String.length s =? 1)%nat
  then is_ok (draw_text al s array canvas) = true
  else draw_text al s array canvas = Raise ValueError.
Proof.
  rewrite draw_text_store. unfold store_list.
  pose proof (length_padded al s (length array)) as Hlen.
  rewrite <- length_chars in Hlen. revert Hlen.
  generalize (chars (padded al s (Z.of_nat (length array)))). intros l Hlen.
  destruct (Nat.leb_spec (String.length s) (length array)) as [Hfit|Hlong]; simpl.
  - replace (length l =? length array)%nat with true
      by (symmetry; apply Nat.eqb_eq; lia).
    reflexivity.
  - replace (length l =? length array)%nat with false
      by (symmetry; apply Nat.eqb_neq; lia).
    destruct (Nat.eqb_spec (String.length s) 1) as [H1|H1].
    + destruct l as [|ch [|ch' l]]; simpl in Hlen; try lia. reflexivity.
    + destruct l as [|ch [|ch' l]]; simpl in Hlen; try lia; reflexivity.
Qed.

(** X15: written into [n] cells of one row that lie on the canvas, a string of
    at most [n] characters fills exactly these cells with its padded form
    (centred, left-adjusted or right-adjusted in spaces); every other cell
    keeps its character. *)
Theorem text_drawn_in_row al s (h w : nat) canvas (R L n : nat) :
  shaped h w canvas -> (R < h)%nat -> (L + n <= w)%nat ->
  (String.length s <= n)%nat ->
  exists canvas',
    draw_text al s (row_cells R L n) canvas = Ok canvas'
    /\ shaped h w canvas'
    /\ segment canvas' R L n = chars (padded al s (Z.of_nat n))
    /\ forall r c, (r < h)%nat -> (c < w)%nat ->
         ~ (r = R /\ (L <= c < L + n)%nat) ->
         get_cell canvas' r c = get_cell canvas r c.
Proof.
  intros Hs HR HL Hfit.
  assert (Hv : length (row_cells R L n) = n)
    by (unfold row_cells; rewrite length_map, length_seq; reflexivity).
  rewrite draw_text_store, Hv.
  pose proof (length_padded al s n) as Hlen.
  rewrite <- length_chars in Hlen. revert Hlen.
  generalize (chars (padded al s (Z.of_nat n))). intros l Hlen.
  assert (Hn : length l = n) by lia. clear Hlen. subst n.
  unfold store_list. rewrite Hv, Nat.eqb_refl. eexists. split; [reflexivity|].
  assert (Hs' : shaped h w
            {| nrows := nrows canvas; ncols := ncols canvas;
               cells := paint (zip (row_cells R L (length l)) l) (cells canvas) |}).
  { destruct Hs as ([Hl Hrows] & Hh & Hw). repeat split; simpl; try assumption.
    - rewrite paint_length. exact Hl.
    - apply paint_rows. exact Hrows. }
  split; [exact Hs'|].
  assert (Hcell : forall r c, (r < h)%nat -> (c < w)%nat ->
            cell_of (paint (zip (row_cells R L (length l)) l) (cells canvas)) r c
            = if decide (r = R /\ (L <= c < L + length l)%nat) then l !! (c - L)%nat
              else cell_of (cells canvas) r c).
  { intros r c Hr Hc. unfold row_cells. apply cell_of_paint_row.
    exact (shaped_cell h w canvas r c Hs Hr Hc). }
  split.
  - apply (segment_cells h w); [exact Hs'|exact HR|exact HL|].
    intros c Hc. simpl. rewrite Hcell by lia. rewrite decide_True by lia. reflexivity.
  - intros r c Hr Hc Hout. unfold get_cell. simpl.
    rewrite Hcell by assumption. rewrite decide_False by exact Hout. reflexivity.
Qed.

Lemma length_substring_0 k s :
  String.length (String.substring 0 k s) = Nat.min k (String.length s).
Proof.
  revert s. induction k as [|k IH]; intros s.
  - destruct s; reflexivity.
  - destruct s as [|c s]; [reflexivity|]. simpl. rewrite IH. reflexivity.
Qed.

Lemma text_fits al s (array : view) canvas :
  (String.length s <= length array)%nat ->
  is_ok (draw_text al s array canvas) = true.
Proof.
  intros Hfit. rewrite draw_text_store. unfold store_list.
  rewrite length_chars, length_padded.
  replace (Nat.max (String.length s) (length array) =? length array)%nat
    with true by (symmetry; apply Nat.eqb_eq; lia).
  reflexivity.
Qed.

(** X16: the idiom by which the title and the axis labels are made to fit:
    a string cut to [n] characters by [s[:n]], with [n] between 0 and the
    length of the slice, is always written, whatever its alignment.  For
    the title, [n] is the width, the length of the first row. *)
Theorem truncated_text_fits al s (n : Z) (array : view) canvas :
  0 <= n <= Z.of_nat (length array) ->
  is_ok (draw_text al (str_upto s n) array canvas) = true
  /\ len (str_upto s n) = Z.min n (len s).
Proof.
  intros Hn.
  assert (Hlen : String.length (str_upto s n) = Nat.min (Z.to_nat n) (String.length s)).
  { unfold str_upto.
    replace (n <? 0) with false by (symmetry; apply Z.ltb_ge; lia).
    apply length_substring_0. }
  split; [apply text_fits; lia|]. unfold len. lia.
Qed.

End Text.

(** ** The labels of a categorical y axis *)

Section CategoricalLabels.
Context `{Helpers}.

Lemma rmap_fmt_label l s : In (VStr s) l -> rmap _fmt l = Raise ValueError.
Proof.
  induction l as [|v l IH]; [intros []|]. intros Hin. simpl.
  destruct v as [q|t]; [|reflexivity]. simpl.
  destruct Hin as [Hv|Hin]; [discriminate|]. rewrite (IH Hin). reflexivity.
Qed.

Lemma py_set_label l s : In (VStr s) l -> In (VStr s) (py_set l).
Proof.
  intros Hin. destruct (py_set_complete l _ Hin) as (w & Hw & E).
  destruct w as [q|t]; simpl in E; [discriminate|].
  apply String.eqb_eq in E. subst t. exact Hw.
Qed.

(** X17: the tick labels of a categorical y axis cannot be formatted: the
    numeric format of [_fmt] raises [ValueError] on a string, so [_yax_width]
    fails on the first label, [_xscale], which reads it, fails with it, and
    so does every draw or render of a figure with a canvas and no title. *)
Theorem categorical_y_labels_unformattable (f : Figure) s :
  is_numerical (self_y f) = false -> In (VStr s) (self_y f) ->
  cached_ytick_values f = None -> cached_yax_width f = None ->
  cached_xscale f = None ->
  (_yax_width f).2 = Raise ValueError /\ (_xscale f).2 = Raise ValueError
  /\ (0 <= height f -> 0 <= width f -> truthy (title f) = false ->
      (draw f).2 = Raise ValueError /\ (__repr__ f).2 = Raise ValueError).
Proof.
  intros Hn Hin Ht Hw Hx.
  assert (Ew : _yax_width f
               = (set_ytick_values (TickSet (py_set (self_y f))) f, Raise ValueError)).
  { unfold _yax_width, cached_property. rewrite Hw.
    unfold bind at 1. unfold _ytick_values, cached_property. rewrite Ht.
    unfold bind at 1, attr at 1. rewrite Hn. unfold ret at 1.
    unfold bind at 1, lift at 1. cbn [ticks_elems].
    rewrite (rmap_fmt_label _ s (py_set_label _ _ Hin)). reflexivity. }
  assert (Ex : forall canvas, (_draw_x_axis canvas f).2 = Raise ValueError).
  { intros canvas. unfold _draw_x_axis. unfold bind at 1.
    unfold _xscale, cached_property. rewrite Hx.
    unfold bind at 1, attr at 1. unfold bind at 1. rewrite Ew. reflexivity. }
  split; [rewrite Ew; reflexivity|]. split.
  - unfold _xscale, cached_property. rewrite Hx.
    unfold bind at 1, attr at 1. unfold bind at 1. rewrite Ew. reflexivity.
  - intros Hh Hwd Htitle.
    assert (Ed : (draw f).2 = Raise ValueError).
    { unfold draw. unfold bind at 1. unfold draw_plots.
      unfold bind at 1, attr at 1. unfold bind at 1, attr at 1.
      unfold bind at 1, lift at 1, np_empty.
      replace ((height f <? 0) || (width f <? 0)) with false
        by (symmetry; apply orb_false_iff; split; apply Z.ltb_ge; assumption).
      unfold bind at 1, attr at 1. rewrite Htitle. unfold bind at 1, ret at 1.
      unfold bind at 1.
      match goal with |- context [_draw_x_axis ?c f] =>
        specialize (Ex c); destruct (_draw_x_axis c f) as [f1 r] end.
      simpl in Ex. subst r. reflexivity. }
    split; [exact Ed|]. unfold __repr__, bind.
    destruct (draw f) as [f1 r]. simpl in Ed. subst r. reflexivity.
Qed.

End CategoricalLabels.

(** ** The tick marks of the axes *)

Section AxisTicks.
Context `{Helpers}.

Lemma cached_yax_width_hit (f : Figure) w :
  cached_yax_width f = Some w -> _yax_width f = (f, Ok w).
Proof. intros Hc. unfold _yax_width, cached_property. rewrite Hc. reflexivity. Qed.

Lemma cached_ytick_values_hit (f : Figure) t :
  cached_ytick_values f = Some t -> _ytick_values f = (f, Ok t).
Proof. intros Hc. unfold _ytick_values, cached_property. rewrite Hc. reflexivity. Qed.

Lemma cached_xtick_values_hit (f : Figure) t :
  cached_xtick_values f = Some t -> _xtick_values f = (f, Ok t).
Proof. intros Hc. unfold _xtick_values, cached_property. rewrite Hc. reflexivity. Qed.

Lemma index_Ok n i k :
  index n i = Ok k ->
  (k < n)%nat /\ Z.of_nat k = (if i <? 0 then i + Z.of_nat n else i).
Proof.
  unfold index.
  destruct (Z.leb_spec 0 i), (Z.ltb_spec i (Z.of_nat n)),
    (Z.leb_spec (- Z.of_nat n) i), (Z.ltb_spec i 0);
    simpl; intros E; try discriminate; try lia; injection E as <-; lia.
Qed.

Lemma cell_view_Ok a i j v :
  cell_view a i j = Ok v ->
  exists r c, index (nrows a) i = Ok r /\ index (ncols a) j = Ok c /\ v = [(r, c)].
Proof.
  unfold cell_view. intros E.
  apply rbind_Ok in E as (r & Er & E). apply rbind_Ok in E as (c & Ec & E).
  injection E as <-. eauto.
Qed.

Lemma row_view_Ok a i start stop v :
  row_view a i start stop = Ok v ->
  exists r, index (nrows a) i = Ok r
            /\ v = map (fun c => (r, c)) (slice (ncols a) start stop).
Proof.
  unfold row_view. intros E. apply rbind_Ok in E as (r & Er & E).
  injection E as <-. eauto.
Qed.

Lemma col_view_Ok a start stop j v :
  col_view a start stop j = Ok v ->
  exists c, index (ncols a) j = Ok c
            /\ v = map (fun r => (r, c)) (slice (nrows a) start stop).
Proof.
  unfold col_view. intros E. apply rbind_Ok in E as (c & Ec & E).
  injection E as <-. eauto.
Qed.

Lemma slice_below n start e c :
  In c (slice n start (Some e)) -> 0 <= e -> Z.of_nat c < e.
Proof.
  unfold slice. cbn [from_option]. intros Hin He. apply in_seq in Hin.
  unfold slice_bound in Hin.
  replace (e <? 0) with false in Hin by (symmetry; apply Z.ltb_ge; lia).
  lia.
Qed.

Lemma cell_of_set_cell_other ch cs rc r c :
  rc <> (r, c) -> cell_of (set_cell ch cs rc) r c = cell_of cs r c.
Proof.
  destruct rc as [r' c']. unfold cell_of, set_cell. simpl. intros Hne.
  destruct (decide (r' = r)) as [->|Hr].
  - rewrite list_lookup_alter_eq. destruct (cs !! r) as [row|]; simpl; [|reflexivity].
    apply list_lookup_insert_ne. congruence.
  - rewrite list_lookup_alter_ne by exact Hr. reflexivity.
Qed.

Lemma cell_of_paint_other ps : forall cs r c,
  Forall (fun p : (nat * nat) * ascii => p.1 <> (r, c)) ps ->
  cell_of (paint ps cs) r c = cell_of cs r c.
Proof.
  induction ps as [|p ps IH]; intros cs r c Hps; [reflexivity|].
  apply Forall_cons in Hps as [Hp Hps]. unfold paint. cbn [fold_left].
  fold (paint ps). rewrite IH by exact Hps.
  apply cell_of_set_cell_other. exact Hp.
Qed.

Lemma store_list_other a (v : view) l a' r c :
  store_list a v l = Ok a' -> ~ In (r, c) v ->
  get_cell a' r c = get_cell a r c.
Proof.
  unfold store_list, get_cell. intros E Hout.
  destruct (length l =? length v)%nat.
  - injection E as <-. simpl. apply cell_of_paint_other.
    apply List.Forall_forall. intros [rc ch] Hin. simpl. intros ->.
    apply Hout. apply list_elem_of_In. apply list_elem_of_In in Hin.
    exact (elem_of_zip_l _ _ _ _ Hin).
  - destruct l as [|ch [|ch' l]]; try discriminate. injection E as <-. simpl.
    apply cell_of_paint_other.
    apply List.Forall_forall. intros [rc ch0] Hin. simpl. intros ->.
    apply Hout. apply in_map_iff in Hin as (rc & [= <- _] & Hin). exact Hin.
Qed.

Lemma rmap_zip {A B} (g : A -> result B) l : forall l',
  rmap g l = Ok l' ->
  forall a, In a l -> exists b, g a = Ok b /\ In (a, b) (zip l l').
Proof.
  induction l as [|a0 l IH]; intros l' E a Hin; [destruct Hin|].
  simpl in E. apply rbind_Ok in E as (b0 & E0 & E).
  apply rbind_Ok in E as (bs & Es & E). injection E as <-.
  destruct Hin as [->|Hin].
  - exists b0. split; [exact E0|left; reflexivity].
  - destruct (IH bs Es a Hin) as (b & Eb & Hb). exists b.
    split; [exact Eb|right; exact Hb].
Qed.

Lemma index_Ok_mod n i k :
  index n i = Ok k -> (k < n)%nat /\ Z.of_nat k = i mod Z.of_nat n.
Proof.
  intros E. destruct (decide (- Z.of_nat n <= i < Z.of_nat n)) as [Hi|Hi].
  - rewrite (index_wraps n i Hi) in E. injection E as <-.
    pose proof (Z.mod_pos_bound i (Z.of_nat n) ltac:(lia)). lia.
  - rewrite (index_out n i Hi) in E. discriminate.
Qed.

Lemma mark_cell (h w : nat) a ch (r0 c0 r c : nat) :
  shaped h w a -> (r < h)%nat -> (c < w)%nat ->
  get_cell (store a [(r0, c0)] ch) r c
    = if (r =? r0)%nat && (c =? c0)%nat then Some ch else get_cell a r c.
Proof.
  intros Ha Hr Hc. rewrite (get_cell_store h w) by assumption.
  destruct (Nat.eqb_spec r r0) as [->|Hr0]; [destruct (Nat.eqb_spec c c0) as [->|Hc0]|];
    simpl.
  - rewrite bool_decide_eq_true_2 by (apply list_elem_of_singleton; reflexivity).
    reflexivity.
  - rewrite bool_decide_eq_false_2; [reflexivity|].
    rewrite list_elem_of_singleton. congruence.
  - rewrite bool_decide_eq_false_2; [reflexivity|].
    rewrite list_elem_of_singleton. congruence.
Qed.

Lemma line_cell (h w : nat) a ch (sl : list nat) (g : nat -> nat * nat) r c k :
  shaped h w a -> (r < h)%nat -> (c < w)%nat ->
  (forall k', g k' = (r, c) <-> k' = k) ->
  get_cell (store a (map g sl) ch) r c
    = if bool_decide (k ∈ sl) then Some ch else get_cell a r c.
Proof.
  intros Ha Hr Hc Hg. rewrite (get_cell_store h w) by assumption.
  rewrite (bool_decide_ext ((r, c) ∈ (map g sl : view)) (k ∈ sl)); [reflexivity|].
  change (map g sl) with (fmap (M := list) g sl).
  rewrite list_elem_of_fmap. split.
  - intros (k' & E & Hin). symmetry in E. apply Hg in E. subst k'. exact Hin.
  - intros Hin. exists k. split; [symmetry; apply Hg; reflexivity|exact Hin].
Qed.

Lemma rmap_zip_snd {A B} (g : A -> result B) l : forall l',
  rmap g l = Ok l' -> map snd (zip l l') = l'.
Proof.
  induction l as [|a0 l IH]; intros l' E.
  - injection E as <-. reflexivity.
  - simpl in E. apply rbind_Ok in E as (b0 & E0 & E).
    apply rbind_Ok in E as (bs & Es & E). injection E as <-.
    simpl. f_equal. apply IH. exact Es.
Qed.

Lemma y_tick_loop (end_ yw : Z) (h w : nat) pairs :
  forall canvas (f f' : Figure) canvas',
  cached_yax_width f = Some yw -> 2 <= yw -> shaped h w canvas ->
  for_each pairs
    (fun canvas '(value, pos) =>
       let pos := py_round pos - 1 in
       bind (lift (_fmt value)) (fun label =>
       bind _yax_width (fun w =>
       bind (lift (let? v := cell_view canvas (end_ - pos) (w - 1) in
                   Ok (store canvas v "+"))) (fun canvas =>
       bind (attr ylabel) (fun yl =>
       bind _yax_width (fun w =>
       lift (let? v := row_view canvas (end_ - pos)
                         (Some (Z_of_bool (truthy yl) * 2)) (Some (w - 1)) in
             _rjust_draw label v canvas)))))))
    canvas f = (f', Ok canvas') ->
  f' = f /\ shaped h w canvas'
  /\ (forall r, (r < h)%nat -> (Z.to_nat (yw - 1) < w)%nat ->
        get_cell canvas' r (Z.to_nat (yw - 1))
          = if tick_rows (Z.of_nat h) end_ (map snd pairs) r then Some "+"%char
            else get_cell canvas r (Z.to_nat (yw - 1)))
  /\ (forall v p, In (v, p) pairs ->
        exists r, index h (end_ - (py_round p - 1)) = Ok r
                  /\ (Z.to_nat (yw - 1) < w)%nat).
Proof.
  induction pairs as [|[v p] pairs IH]; intros canvas f f' canvas' Hw Hyw Hs Hl.
  - injection Hl as <- <-.
    split; [reflexivity|]. split; [exact Hs|]. split; [reflexivity|]. intros v p [].
  - cbn [for_each] in Hl. apply bind_Ok in Hl as (f1 & c1 & Hstep & Hl).
    cbv beta iota zeta in Hstep.
    apply bind_Ok in Hstep as (fa & label & E1 & Hstep).
    unfold lift in E1. injection E1 as <- E1.
    apply bind_Ok in Hstep as (fb & w1 & E2 & Hstep).
    rewrite (cached_yax_width_hit f yw Hw) in E2. injection E2 as <- <-.
    apply bind_Ok in Hstep as (fc & cA & E3 & Hstep).
    unfold lift in E3. injection E3 as <- E3.
    apply rbind_Ok in E3 as (vw & Ev & E3). injection E3 as <-.
    apply bind_Ok in Hstep as (fd & yl & E4 & Hstep).
    unfold attr in E4. injection E4 as <- <-.
    apply bind_Ok in Hstep as (fe & w2 & E5 & Hstep).
    rewrite (cached_yax_width_hit f yw Hw) in E5. injection E5 as <- <-.
    unfold lift in Hstep. injection Hstep as <- Hstep.
    apply rbind_Ok in Hstep as (v2 & Er & Hstep).
    pose proof Hs as (_ & Hh & Hwd).
    apply cell_view_Ok in Ev as (r & c & Hr & Hc & ->). rewrite Hh in Hr. rewrite Hwd in Hc.
    destruct (index_Ok_mod _ _ _ Hr) as [Hrh Hrv].
    destruct (index_Ok _ _ _ Hc) as [Hcw Hcv].
    replace (yw - 1 <? 0) with false in Hcv by (symmetry; apply Z.ltb_ge; lia).
    assert (Ec : c = Z.to_nat (yw - 1)) by lia. subst c.
    set (cA := store canvas [(r, Z.to_nat (yw - 1))] "+") in *.
    assert (HsA : shaped h w cA) by (apply shaped_store; exact Hs).
    apply row_view_Ok in Er as (r2 & _ & ->).
    assert (Hs1 : shaped h w c1).
    { exact (ryields_store_list h w cA _ _ HsA c1 Hstep). }
    assert (Hframe : forall r0, get_cell c1 r0 (Z.to_nat (yw - 1))
                                = get_cell cA r0 (Z.to_nat (yw - 1))).
    { intros r0. apply (store_list_other _ _ _ _ _ _ Hstep).
      intros Hin. apply in_map_iff in Hin as (c0 & [= _ E0] & Hin).
      apply slice_below in Hin; lia. }
    destruct (IH c1 f f' canvas' Hw Hyw Hs1 Hl) as (Ef & Hs' & Hcells & Hidx).
    split; [exact Ef|]. split; [exact Hs'|]. split.
    + intros r0 Hr0 HC. rewrite (Hcells r0 Hr0 HC), Hframe.
      unfold cA. rewrite (mark_cell h w) by assumption.
      rewrite Nat.eqb_refl, andb_true_r.
      cbn [map snd tick_rows existsb].
      fold (tick_rows (Z.of_nat h) end_ (map snd pairs) r0).
      replace (Z.of_nat r0 =? (end_ - (py_round p - 1)) mod Z.of_nat h)
        with (r0 =? r)%nat
        by (apply eq_true_iff_eq; rewrite Nat.eqb_eq, Z.eqb_eq; lia).
      destruct (tick_rows (Z.of_nat h) end_ (map snd pairs) r0);
        [rewrite orb_true_r; reflexivity|].
      rewrite orb_false_r. reflexivity.
    + intros v0 p0 [[= <- <-]|Hin]; [|exact (Hidx v0 p0 Hin)].
      exists r. split; [exact Hr|exact Hcw].
Qed.

(** X18: the y axis is the last column of its area, column
    [_yax_width - 1]: after [_draw_y_axis] a cell of this column holds
    ["+"] in the row of a tick, ["|"] in the other rows of the slice
    [-end-1:-start], and what it held before elsewhere.  The tick of a
    value at position [p] of the y scale is in the row with index
    [end - round(p) + 1], where [end] is the rounded position of the last
    tick; a data point at position [p] is plotted in row
    [h - 1 - round(p)]: the mark of a value sits [end - (h - 2)] rows below
    the points with that value, in their row only if the last tick is at
    position [h - 2]. *)
Theorem y_tick_marks (f f' : Figure) canvas canvas' sc l yw :
  wf canvas ->
  cached_yscale f = Some sc -> cached_ytick_values f = Some (TickList l) ->
  cached_yax_width f = Some yw -> 2 <= yw ->
  _draw_y_axis canvas f = (f', Ok canvas') ->
  exists first last pstart pend positions,
    ticks_getitem (TickList l) 0 = Ok first /\ transform sc first = Ok pstart
    /\ ticks_getitem (TickList l) (-1) = Ok last /\ transform sc last = Ok pend
    /\ transform_seq sc l = Ok positions
    /\ (Z.to_nat (yw - 1) < ncols canvas)%nat
    /\ (forall r, (r < nrows canvas)%nat ->
          get_cell canvas' r (Z.to_nat (yw - 1))
            = if tick_rows (Z.of_nat (nrows canvas)) (py_round pend) positions r
              then Some "+"%char
              else if bool_decide
                        (r ∈ slice (nrows canvas) (Some (- py_round pend - 1))
                               (Some (- py_round pstart)))
                   then Some "|"%char
                   else get_cell canvas r (Z.to_nat (yw - 1)))
    /\ forall v, In v l ->
         exists p r,
           transform sc v = Ok p
           /\ index (nrows canvas) (py_round pend - (py_round p - 1)) = Ok r
           /\ get_cell canvas' r (Z.to_nat (yw - 1)) = Some "+"%char
           /\ (0 <= py_round pend - (py_round p - 1) ->
               Z.of_nat r = (Z.of_nat (nrows canvas) - 1 - py_round p)
                            + (py_round pend - (Z.of_nat (nrows canvas) - 2))).
Proof.
  intros Hwf Hsy Hty Hw Hyw Hd.
  assert (Hs0 : shaped (nrows canvas) (ncols canvas) canvas)
    by (split; [exact Hwf|split; reflexivity]).
  unfold _draw_y_axis in Hd.
  apply bind_Ok in Hd as (f1 & sc1 & E & Hd).
  rewrite (cached_yscale_hit f sc Hsy) in E. injection E as <- <-.
  apply bind_Ok in Hd as (f1 & tv1 & E & Hd).
  rewrite (cached_ytick_values_hit f _ Hty) in E. injection E as <- <-.
  apply bind_Ok in Hd as (f1 & first & E & Hd).
  unfold lift in E. injection E as <- Efirst.
  apply bind_Ok in Hd as (f1 & pstart & E & Hd).
  unfold lift in E. injection E as <- Epstart.
  cbv zeta in Hd.
  apply bind_Ok in Hd as (f1 & sc1 & E & Hd).
  rewrite (cached_yscale_hit f sc Hsy) in E. injection E as <- <-.
  apply bind_Ok in Hd as (f1 & tv1 & E & Hd).
  rewrite (cached_ytick_values_hit f _ Hty) in E. injection E as <- <-.
  apply bind_Ok in Hd as (f1 & last & E & Hd).
  unfold lift in E. injection E as <- Elast.
  apply bind_Ok in Hd as (f1 & pend & E & Hd).
  unfold lift in E. injection E as <- Epend.
  cbv zeta in Hd.
  apply bind_Ok in Hd as (f1 & w1 & E & Hd).
  rewrite (cached_yax_width_hit f yw Hw) in E. injection E as <- <-.
  apply bind_Ok in Hd as (f1 & c1 & E & Hd).
  unfold lift in E. injection E as <- Ec1.
  apply rbind_Ok in Ec1 as (v1 & Ev1 & Ec1). injection Ec1 as <-.
  apply col_view_Ok in Ev1 as (C & HC & ->).
  destruct (index_Ok _ _ _ HC) as [HCw HCv].
  replace (yw - 1 <? 0) with false in HCv by (symmetry; apply Z.ltb_ge; lia).
  assert (EC : C = Z.to_nat (yw - 1)) by lia. subst C.
  apply bind_Ok in Hd as (f1 & tv1 & E & Hd).
  rewrite (cached_ytick_values_hit f _ Hty) in E. injection E as <- <-.
  apply bind_Ok in Hd as (f1 & sc1 & E & Hd).
  rewrite (cached_yscale_hit f sc Hsy) in E. injection E as <- <-.
  apply bind_Ok in Hd as (f1 & tv1 & E & Hd).
  rewrite (cached_ytick_values_hit f _ Hty) in E. injection E as <- <-.
  apply bind_Ok in Hd as (f1 & positions & E & Hd).
  unfold lift in E. injection E as <- Epos. cbn [ticks_elems] in Epos.
  apply bind_Ok in Hd as (f1 & c2 & Hloop & Hd).
  cbn [ticks_elems] in Hloop.
  apply (y_tick_loop (py_round pend) yw (nrows canvas) (ncols canvas)) in Hloop;
    [|exact Hw|exact Hyw|apply shaped_store; exact Hs0].
  destruct Hloop as (-> & Hs2 & Hcells & Hidx).
  rewrite (rmap_zip_snd _ _ _ Epos) in Hcells.
  apply bind_Ok in Hd as (f1 & yl & E & Hd).
  unfold attr in E. injection E as <- <-.
  assert (Hlast : forall r, get_cell canvas' r (Z.to_nat (yw - 1))
                            = get_cell c2 r (Z.to_nat (yw - 1))).
  { intros r. destruct (truthy (ylabel f)).
    - unfold lift in Hd. injection Hd as _ Hd.
      apply rbind_Ok in Hd as (v3 & Ev3 & Hd).
      apply col_view_Ok in Ev3 as (c0 & Hc0 & ->).
      destruct (index_Ok _ _ _ Hc0) as [_ Hc0v]. simpl in Hc0v.
      apply (store_list_other _ _ _ _ _ _ Hd).
      intros Hin. apply in_map_iff in Hin as (r0 & [= _ E0] & _). lia.
    - injection Hd as _ <-. reflexivity. }
  assert (Hcol : forall r, (r < nrows canvas)%nat ->
            get_cell canvas' r (Z.to_nat (yw - 1))
            = if tick_rows (Z.of_nat (nrows canvas)) (py_round pend) positions r
              then Some "+"%char
              else if bool_decide
                        (r ∈ slice (nrows canvas) (Some (- py_round pend - 1))
                               (Some (- py_round pstart)))
                   then Some "|"%char
                   else get_cell canvas r (Z.to_nat (yw - 1))).
  { intros r Hr. rewrite Hlast, (Hcells r Hr HCw).
    destruct (tick_rows _ _ _ r); [reflexivity|].
    apply (line_cell (nrows canvas) (ncols canvas)); try assumption.
    intros k'. split; [intros [= ->]; reflexivity|intros ->; reflexivity]. }
  exists first, last, pstart, pend, positions.
  split; [exact Efirst|]. split; [exact Epstart|].
  split; [exact Elast|]. split; [exact Epend|]. split; [exact Epos|].
  split; [exact HCw|]. split; [exact Hcol|].
  intros v Hv. destruct (rmap_zip _ _ _ Epos v Hv) as (p & Ep & Hin).
  destruct (Hidx v p Hin) as (r & Hr & _).
  destruct (index_Ok_mod _ _ _ Hr) as [Hrh Hrm].
  exists p, r. split; [exact Ep|]. split; [exact Hr|]. split.
  - rewrite (Hcol r Hrh).
    replace (tick_rows (Z.of_nat (nrows canvas)) (py_round pend) positions r)
      with true; [reflexivity|].
    symmetry. apply existsb_exists. exists p. split.
    + apply list_elem_of_In, elem_of_zip_r, list_elem_of_In in Hin. exact Hin.
    + apply Z.eqb_eq. exact Hrm.
  - intros Hnn. destruct (index_Ok _ _ _ Hr) as [_ Hrv].
    replace (py_round pend - (py_round p - 1) <? 0) with false in Hrv
      by (symmetry; apply Z.ltb_ge; lia).
    lia.
Qed.

Lemma xax_height_bounds (f : Figure) : 2 <= _xax_height f <= 3.
Proof. unfold _xax_height, Z_of_bool. destruct (truthy (xlabel f)); lia. Qed.

Lemma label_row_other (h w : nat) a a' i start stop al s (R c : nat) xh :
  2 <= xh -> index h (- xh) = Ok R -> nrows a = h ->
  (let? v := row_view a i start stop in draw_text al s v a) = Ok a' ->
  i = - xh + 1 \/ i = -1 ->
  get_cell a' R c = get_cell a R c.
Proof.
  intros Hxh HR Hh E Hi.
  apply rbind_Ok in E as (v & Ev & E).
  apply row_view_Ok in Ev as (r2 & Hr2 & ->). rewrite Hh in Hr2.
  rewrite draw_text_store in E.
  apply (store_list_other _ _ _ _ _ _ E).
  intros Hin. apply in_map_iff in Hin as (c0 & [= E0 _] & _).
  destruct (index_Ok _ _ _ HR) as [_ HRv]. destruct (index_Ok _ _ _ Hr2) as [_ Hr2v].
  replace (- xh <? 0) with true in HRv by (symmetry; apply Z.ltb_lt; lia).
  replace (i <? 0) with true in Hr2v by (symmetry; apply Z.ltb_lt; lia).
  lia.
Qed.

Lemma x_tick_loop (start end_ before after : Z) (h w : nat) pairs :
  forall canvas (f f' : Figure) canvas',
  shaped h w canvas ->
  for_each pairs
    (fun canvas '(value, pos) =>
       let pos := py_round pos in
       bind (lift (_fmt value)) (fun label =>
       bind (attr _xax_height) (fun xh =>
       bind (lift (let? v := cell_view canvas (- xh) pos in
                   Ok (store canvas v "+"))) (fun canvas =>
       if pos =? start then
         bind (attr _xax_height) (fun xh =>
         lift (let? v := row_view canvas (- xh + 1) (Some pos) (Some (pos + after)) in
               _ljust_draw (str_upto label after) v canvas))
       else if pos =? end_ then
         bind (attr _xax_height) (fun xh =>
         lift (let? v := row_view canvas (- xh + 1) (Some (pos - before))
                           (Some (pos + 1)) in
               _rjust_draw (str_upto label (before + 1)) v canvas))
       else
         bind (attr xticklabel_length) (fun l =>
         bind (attr _xax_height) (fun xh =>
         lift (let? v := row_view canvas (- xh + 1)
                           (Some (pos - before)) (Some (pos + after)) in
               _center_draw (str_upto label l) v canvas)))))))
    canvas f = (f', Ok canvas') ->
  f' = f /\ shaped h w canvas'
  /\ (forall R c, index h (- _xax_height f) = Ok R -> (c < w)%nat ->
        get_cell canvas' R c
          = if tick_columns (Z.of_nat w) (map snd pairs) c then Some "+"%char
            else get_cell canvas R c)
  /\ (forall v p, In (v, p) pairs -> exists c, index w (py_round p) = Ok c).
Proof.
  induction pairs as [|[v p] pairs IH]; intros canvas f f' canvas' Hs Hl.
  - injection Hl as <- <-.
    split; [reflexivity|]. split; [exact Hs|]. split; [reflexivity|]. intros v p [].
  - cbn [for_each] in Hl. apply bind_Ok in Hl as (f1 & c1 & Hstep & Hl).
    cbv beta iota zeta in Hstep.
    apply bind_Ok in Hstep as (fa & label & E1 & Hstep).
    unfold lift in E1. injection E1 as <- E1.
    apply bind_Ok in Hstep as (fb & xh & E2 & Hstep).
    unfold attr in E2. injection E2 as <- <-.
    apply bind_Ok in Hstep as (fc & cA & E3 & Hstep).
    unfold lift in E3. injection E3 as <- E3.
    apply rbind_Ok in E3 as (vw & Ev & E3). injection E3 as <-.
    pose proof Hs as (_ & Hh & Hwd).
    pose proof (xax_height_bounds f) as Hxh.
    apply cell_view_Ok in Ev as (R & c & HR & Hc & ->).
    rewrite Hh in HR. rewrite Hwd in Hc.
    destruct (index_Ok _ _ _ HR) as [HRh _].
    destruct (index_Ok_mod _ _ _ Hc) as [Hcw Hcm].
    set (cA := store canvas [(R, c)] "+") in *.
    assert (HsA : shaped h w cA) by (apply shaped_store; exact Hs).
    assert (Hlabel : f1 = f /\ shaped h w c1
                     /\ forall c0, get_cell c1 R c0 = get_cell cA R c0).
    { destruct HsA as (HwfA & HhA & HwA).
      assert (HsA : shaped h w cA) by (split; [exact HwfA|split; assumption]).
      destruct (py_round p =? start); [|destruct (py_round p =? end_)].
      - apply bind_Ok in Hstep as (fd & xh' & E4 & Hstep).
        unfold attr in E4. injection E4 as <- <-.
        unfold lift in Hstep. injection Hstep as <- Hstep.
        split; [reflexivity|]. split.
        + apply rbind_Ok in Hstep as (v2 & _ & Hstep).
          exact (ryields_store_list h w cA _ _ HsA c1 Hstep).
        + intros c0.
          eapply (label_row_other h w cA c1 _ _ _ LeftAdjusted _ R c0 (_xax_height f)
                    (proj1 Hxh) HR HhA); [exact Hstep|lia].
      - apply bind_Ok in Hstep as (fd & xh' & E4 & Hstep).
        unfold attr in E4. injection E4 as <- <-.
        unfold lift in Hstep. injection Hstep as <- Hstep.
        split; [reflexivity|]. split.
        + apply rbind_Ok in Hstep as (v2 & _ & Hstep).
          exact (ryields_store_list h w cA _ _ HsA c1 Hstep).
        + intros c0.
          eapply (label_row_other h w cA c1 _ _ _ RightAdjusted _ R c0 (_xax_height f)
                    (proj1 Hxh) HR HhA); [exact Hstep|lia].
      - apply bind_Ok in Hstep as (fd & l & E4 & Hstep).
        unfold attr in E4. injection E4 as <- <-.
        apply bind_Ok in Hstep as (fd & xh' & E4 & Hstep).
        unfold attr in E4. injection E4 as <- <-.
        unfold lift in Hstep. injection Hstep as <- Hstep.
        split; [reflexivity|]. split.
        + apply rbind_Ok in Hstep as (v2 & _ & Hstep).
          exact (ryields_store_list h w cA _ _ HsA c1 Hstep).
        + intros c0.
          eapply (label_row_other h w cA c1 _ _ _ Centered _ R c0 (_xax_height f)
                    (proj1 Hxh) HR HhA); [exact Hstep|lia]. }
    destruct Hlabel as (-> & Hs1 & Hframe).
    destruct (IH c1 f f' canvas' Hs1 Hl) as (Ef & Hs' & Hcells & Hidx).
    split; [exact Ef|]. split; [exact Hs'|]. split.
    + intros R0 c0 HR0 Hc0. rewrite (Hcells R0 c0 HR0 Hc0).
      assert (R0 = R) by congruence. subst R0.
      rewrite Hframe. unfold cA. rewrite (mark_cell h w) by assumption.
      rewrite Nat.eqb_refl. cbn [andb map snd tick_columns existsb].
      fold (tick_columns (Z.of_nat w) (map snd pairs) c0).
      replace (Z.of_nat c0 =? py_round p mod Z.of_nat w) with (c0 =? c)%nat
        by (apply eq_true_iff_eq; rewrite Nat.eqb_eq, Z.eqb_eq; lia).
      destruct (tick_columns (Z.of_nat w) (map snd pairs) c0);
        [rewrite orb_true_r; reflexivity|].
      rewrite orb_false_r. reflexivity.
    + intros v0 p0 [[= <- <-]|Hin]; [|exact (Hidx v0 p0 Hin)].
      exists c. exact Hc.
Qed.

(** X19: the x axis is the row [_xax_height] from the bottom: after
    [_draw_x_axis] a cell of this row holds ["+"] in the column of a tick,
    ["-"] in the other columns of the slice [start:end], and what it held
    before elsewhere.  The tick of a value at position [p] of the x scale
    is in the column with index [round(p)], the column in which a data
    point with that x value is plotted.  Drawing the axis with the scale
    and the ticks in the cache leaves the figure as it is. *)
Theorem x_tick_marks (f f' : Figure) canvas canvas' sc l :
  wf canvas ->
  cached_xscale f = Some sc -> cached_xtick_values f = Some (TickList l) ->
  _draw_x_axis canvas f = (f', Ok canvas') ->
  f' = f
  /\ exists R first last pstart pend positions,
       index (nrows canvas) (- _xax_height f) = Ok R
       /\ Z.of_nat R = Z.of_nat (nrows canvas) - _xax_height f
       /\ ticks_getitem (TickList l) 0 = Ok first /\ transform sc first = Ok pstart
       /\ ticks_getitem (TickList l) (-1) = Ok last /\ transform sc last = Ok pend
       /\ transform_seq sc l = Ok positions
       /\ (forall c, (c < ncols canvas)%nat ->
             get_cell canvas' R c
               = if tick_columns (Z.of_nat (ncols canvas)) positions c
                 then Some "+"%char
                 else if bool_decide
                           (c ∈ slice (ncols canvas) (Some (py_round pstart))
                                  (Some (py_round pend)))
                      then Some "-"%char
                      else get_cell canvas R c)
       /\ forall v, In v l ->
            exists p c,
              transform sc v = Ok p
              /\ index (ncols canvas) (py_round p) = Ok c
              /\ get_cell canvas' R c = Some "+"%char.
Proof.
  intros Hwf Hsx Htx Hd.
  assert (Hs0 : shaped (nrows canvas) (ncols canvas) canvas)
    by (split; [exact Hwf|split; reflexivity]).
  pose proof (xax_height_bounds f) as Hxh.
  unfold _draw_x_axis in Hd.
  apply bind_Ok in Hd as (f1 & sc1 & E & Hd).
  rewrite (cached_xscale_hit f sc Hsx) in E. injection E as <- <-.
  apply bind_Ok in Hd as (f1 & tv1 & E & Hd).
  rewrite (cached_xtick_values_hit f _ Htx) in E. injection E as <- <-.
  apply bind_Ok in Hd as (f1 & first & E & Hd).
  unfold lift in E. injection E as <- Efirst.
  apply bind_Ok in Hd as (f1 & pstart & E & Hd).
  unfold lift in E. injection E as <- Epstart.
  cbv zeta in Hd.
  apply bind_Ok in Hd as (f1 & sc1 & E & Hd).
  rewrite (cached_xscale_hit f sc Hsx) in E. injection E as <- <-.
  apply bind_Ok in Hd as (f1 & tv1 & E & Hd).
  rewrite (cached_xtick_values_hit f _ Htx) in E. injection E as <- <-.
  apply bind_Ok in Hd as (f1 & last & E & Hd).
  unfold lift in E. injection E as <- Elast.
  apply bind_Ok in Hd as (f1 & pend & E & Hd).
  unfold lift in E. injection E as <- Epend.
  cbv zeta in Hd.
  apply bind_Ok in Hd as (f1 & xh & E & Hd).
  unfold attr in E. injection E as <- <-.
  apply bind_Ok in Hd as (f1 & c1 & E & Hd).
  unfold lift in E. injection E as <- Ec1.
  apply rbind_Ok in Ec1 as (v1 & Ev1 & Ec1). injection Ec1 as <-.
  apply row_view_Ok in Ev1 as (R & HR & ->).
  destruct (index_Ok _ _ _ HR) as [HRh HRv].
  replace (- _xax_height f <? 0) with true in HRv
    by (symmetry; apply Z.ltb_lt; lia).
  apply bind_Ok in Hd as (f1 & tl & E & Hd).
  unfold attr in E. injection E as <- <-.
  cbv zeta in Hd.
  apply bind_Ok in Hd as (f1 & tl' & E & Hd).
  unfold attr in E. injection E as <- <-.
  cbv zeta in Hd.
  apply bind_Ok in Hd as (f1 & tv1 & E & Hd).
  rewrite (cached_xtick_values_hit f _ Htx) in E. injection E as <- <-.
  apply bind_Ok in Hd as (f1 & sc1 & E & Hd).
  rewrite (cached_xscale_hit f sc Hsx) in E. injection E as <- <-.
  apply bind_Ok in Hd as (f1 & tv1 & E & Hd).
  rewrite (cached_xtick_values_hit f _ Htx) in E. injection E as <- <-.
  apply bind_Ok in Hd as (f1 & positions & E & Hd).
  unfold lift in E. injection E as <- Epos. cbn [ticks_elems] in Epos.
  apply bind_Ok in Hd as (f1 & c2 & Hloop & Hd).
  cbn [ticks_elems] in Hloop.
  apply (x_tick_loop _ _ _ _ (nrows canvas) (ncols canvas)) in Hloop;
    [|apply shaped_store; exact Hs0].
  destruct Hloop as (-> & Hs2 & Hcells & Hidx).
  rewrite (rmap_zip_snd _ _ _ Epos) in Hcells.
  apply bind_Ok in Hd as (f1 & xl & E & Hd).
  unfold attr in E. injection E as <- <-.
  assert (Hlast : f' = f /\ forall c, get_cell canvas' R c = get_cell c2 R c).
  { destruct (truthy (xlabel f)).
    - unfold lift in Hd. injection Hd as <- Hd. split; [reflexivity|].
      intros c. destruct Hs2 as (_ & Hh2 & _).
      eapply (label_row_other (nrows canvas) (ncols canvas) c2 canvas' _ _ _
                Centered _ R c (_xax_height f) (proj1 Hxh) HR Hh2); [exact Hd|lia].
    - injection Hd as <- <-. split; reflexivity. }
  destruct Hlast as [-> Hlast].
  assert (Hrow : forall c, (c < ncols canvas)%nat ->
            get_cell canvas' R c
            = if tick_columns (Z.of_nat (ncols canvas)) positions c
              then Some "+"%char
              else if bool_decide
                        (c ∈ slice (ncols canvas) (Some (py_round pstart))
                               (Some (py_round pend)))
                   then Some "-"%char
                   else get_cell canvas R c).
  { intros c Hc. rewrite Hlast, (Hcells R c HR Hc).
    destruct (tick_columns _ _ c); [reflexivity|].
    apply (line_cell (nrows canvas) (ncols canvas)); try assumption.
    intros k'. split; [intros [= ->]; reflexivity|intros ->; reflexivity]. }
  split; [reflexivity|]. exists R, first, last, pstart, pend, positions.
  split; [exact HR|]. split; [lia|].
  split; [exact Efirst|]. split; [exact Epstart|].
  split; [exact Elast|]. split; [exact Epend|]. split; [exact Epos|].
  split; [exact Hrow|].
  intros v Hv. destruct (rmap_zip _ _ _ Epos v Hv) as (p & Ep & Hin).
  destruct (Hidx v p Hin) as (c & Hc).
  destruct (index_Ok_mod _ _ _ Hc) as [Hcw Hcm].
  exists p, c. split; [exact Ep|]. split; [exact Hc|].
  rewrite (Hrow c Hcw).
  replace (tick_columns (Z.of_nat (ncols canvas)) positions c) with true;
    [reflexivity|].
  symmetry. apply existsb_exists. exists p. split.
  - apply list_elem_of_In, elem_of_zip_r, list_elem_of_In in Hin. exact Hin.
  - apply Z.eqb_eq. exact Hcm.
Qed.

End AxisTicks.

(** ** The width of the y axis *)

Section AxisWidth.
Context `{Helpers}.

Lemma labels_fit_ytick_values : preserves labels_fit _ytick_values.
Proof.
  intros f f' r Hf. unfold _ytick_values, cached_property.
  destruct (cached_ytick_values f) as [tv|] eqn:Et; [intros [= <- _]; exact Hf|].
  assert (Hw : cached_yax_width f = None).
  { destruct (cached_yax_width f) as [yw|] eqn:Ew; [|reflexivity].
    destruct (Hf yw Ew) as (tv & Htv & _). congruence. }
  match goal with |- context [match ?body f with _ => _ end] =>
    assert (Hb : preserves (fun f0 => cached_yax_width f0 = None) body)
      by preserves_tac;
    destruct (body f) as [f1 [v|e]] eqn:Eb end;
    pose proof (Hb _ _ _ Hw Eb) as Hw1; intros [= <- _];
    intros yw Hyw; simpl in Hyw; congruence.
Qed.

Lemma labels_fit_yax_width : preserves labels_fit _yax_width.
Proof.
  intros f f' r Hf. unfold _yax_width, cached_property.
  destruct (cached_yax_width f) as [yw|] eqn:Ew; [intros [= <- _]; exact Hf|].
  assert (Hnone : forall f0, cached_yax_width f0 = None -> labels_fit f0)
    by (intros f0 H0 yw Hyw; congruence).
  assert (Hkeep : preserves (fun f0 => cached_yax_width f0 = None
                                       /\ ylabel f0 = ylabel f) _ytick_values)
    by (apply preserves_ytick_values; intros v f0 Hf0; exact Hf0).
  unfold bind at 1.
  destruct (_ytick_values f) as [f1 [tv|e]] eqn:Et;
    [|intros [= <- _]; apply Hnone;
      exact (proj1 (Hkeep _ _ _ (conj Ew eq_refl) Et))].
  destruct (Hkeep _ _ _ (conj Ew eq_refl) Et) as [Hw1 Hyl].
  assert (Htv : cached_ytick_values f1 = Some tv).
  { revert Et. unfold _ytick_values, cached_property.
    destruct (cached_ytick_values f) as [tv0|] eqn:E0; [intros [= <- <-]; exact E0|].
    match goal with |- context [match ?body f with _ => _ end] =>
      destruct (body f) as [f2 [v|e]] end; [|discriminate].
    intros [= <- <-]. reflexivity. }
  unfold bind at 1, lift at 1.
  destruct (rmap _fmt (ticks_elems tv)) as [labels|e] eqn:El;
    [|intros [= <- _]; apply Hnone; exact Hw1].
  unfold bind at 1, lift at 1.
  destruct (py_max_Z (map len labels)) as [m|e] eqn:Em;
    [|intros [= <- _]; apply Hnone; exact Hw1].
  unfold bind, attr, ret. intros [= <- _].
  intros yw Hyw. simpl in Hyw. injection Hyw as <-.
  exists tv. split; [exact Htv|]. intros v Hv.
  destruct (rmap_zip _ _ _ El v Hv) as (label & Elabel & Hin).
  exists label. split; [exact Elabel|].
  apply list_elem_of_In, elem_of_zip_r, list_elem_of_In in Hin.
  pose proof (py_max_Z_bounds _ _ Em) as Hall.
  assert (Hle : len label <= m).
  { apply (proj1 (List.Forall_forall _ _) Hall). apply in_map. exact Hin. }
  simpl. lia.
Qed.

Lemma labels_fit_safe : cache_safe labels_fit.
Proof.
  pose proof labels_fit_ytick_values as Hy.
  pose proof labels_fit_yax_width as Hw.
  assert (Hx : preserves labels_fit _xtick_values)
    by (apply preserves_xtick_values; intros v f Hf; exact Hf).
  split; [exact Hy|]. split; [exact Hx|]. split; [exact Hw|]. split.
  - apply preserves_yscale; [exact Hy|intros v f Hf; exact Hf].
  - apply preserves_xscale; [exact Hw|exact Hx|intros v f Hf; exact Hf].
Qed.

Lemma reachable_labels_fit (f : Figure) : reachable f -> labels_fit f.
Proof.
  induction 1 as [term xl yl t w h loc n f Hinit|fn x y marker label f Hr IH|f Hr IH].
  - injection Hinit as <-. intros yw Hyw. discriminate.
  - destruct (register_cases fn x y marker label f)
      as [(e & -> & _)|(c & rest & _ & _ & ->)]; simpl; [exact IH|].
    destruct (truthy label); exact IH.
  - destruct (draw f) as [f' r] eqn:Ed. simpl.
    exact (preserves_draw labels_fit labels_fit_safe _ _ _ IH Ed).
Qed.

(** X20: whenever [_yax_width] returns on a figure a program can hold, fresh
    or from the cache, the y ticks are cached and every one of their
    labels is at most [_yax_width - 1 - 2 * bool(ylabel)] characters long:
    the room [_draw_y_axis] gives it.  The labels of the y axis are never
    too long for their slice. *)
Theorem y_labels_fit (f : Figure) :
  reachable f ->
  match (_yax_width f).2 with
  | Ok yw =>
      exists tv,
        cached_ytick_values (_yax_width f).1 = Some tv
        /\ forall v, In v (ticks_elems tv) ->
             exists label,
               _fmt v = Ok label
               /\ len label <= yw - 1 - Z_of_bool (truthy (ylabel f)) * 2
  | Raise _ => True
  end.
Proof.
  intros Hr. pose proof (reachable_labels_fit f Hr) as Hf.
  destruct (_yax_width f) as [f' [yw|e]] eqn:Ew; [|exact I]. simpl.
  pose proof (labels_fit_yax_width _ _ _ Hf Ew) as Hf'.
  assert (Hyl : ylabel f' = ylabel f)
    by (destruct (stable_yax_width _ _ _ Ew) as [[] _]; assumption).
  assert (Hc : cached_yax_width f' = Some yw).
  { revert Ew. unfold _yax_width, cached_property.
    destruct (cached_yax_width f) as [yw0|] eqn:E0; [intros [= <- <-]; exact E0|].
    match goal with |- context [match ?body f with _ => _ end] =>
      destruct (body f) as [f2 [v|e]] end; [|discriminate].
    intros [= <- <-]. reflexivity. }
  destruct (Hf' yw Hc) as (tv & Htv & Hfit).
  exists tv. split; [exact Htv|]. intros v Hv.
  destruct (Hfit v Hv) as (label & El & Hle).
  exists label. split; [exact El|]. rewrite Hyl in Hle. lia.
Qed.

End AxisWidth.

(** ** Tick budgets *)

Section TickBudgets.
Context `{Helpers}.

Lemma axis_ticks_fresh (a : axis) (f : Figure) :
  cached_ticks a f = None ->
  is_numerical (axis_values a f) = true ->
  axis_ticks a f
  = match (let? lo := py_min (axis_values a f) in
           let? hi := py_max (axis_values a f) in
           let? most := tick_budget a f in
           let? t := best_ticks lo hi most in
           Ok (TickList t)) with
    | Ok tv =>
        ((match a with X => set_xtick_values | Y => set_ytick_values end) tv f,
         Ok tv)
    | Raise e => (f, Raise e)
    end.
Proof.
  intros Hc Hn.
  destruct a; simpl in *;
    unfold _xtick_values, _ytick_values, cached_property; rewrite Hc;
    unfold bind, attr, lift, ret; rewrite Hn.
  - destruct (py_min (self_x f)); simpl; [|reflexivity].
    destruct (py_max (self_x f)); simpl; [|reflexivity].
    destruct (py_floordiv _ _); simpl; [|reflexivity].
    destruct (best_ticks _ _ _); reflexivity.
  - destruct (py_min (self_y f)); simpl; [|reflexivity].
    destruct (py_max (self_y f)); simpl; [|reflexivity].
    destruct (best_ticks _ _ _); reflexivity.
Qed.

Lemma axis_ticks_categorical (a : axis) (f : Figure) :
  cached_ticks a f = None ->
  is_numerical (axis_values a f) = false ->
  axis_ticks a f
  = ((match a with X => set_xtick_values | Y => set_ytick_values end)
       (TickSet (py_set (axis_values a f))) f,
     Ok (TickSet (py_set (axis_values a f)))).
Proof.
  intros Hc Hn.
  destruct a; simpl in *;
    unfold _xtick_values, _ytick_values, cached_property; rewrite Hc;
    unfold bind, attr, lift, ret; rewrite Hn; reflexivity.
Qed.

Lemma axis_ticks_hit (a : axis) (f : Figure) tv :
  cached_ticks a f = Some tv -> axis_ticks a f = (f, Ok tv).
Proof.
  intros Hc.
  destruct a; simpl in *;
    unfold _xtick_values, _ytick_values, cached_property; rewrite Hc;
    reflexivity.
Qed.

Lemma within_budget_store (a : axis) (f : Figure) l most :
  within_budget f -> tick_budget a f = Ok most ->
  Z.of_nat (length l) <= Z.max most 2 ->
  within_budget
    ((match a with X => set_xtick_values | Y => set_ytick_values end)
       (TickList l) f).
Proof.
  intros Hf Hm Hl b l0 Hc.
  destruct a, b; simpl in *;
    try (injection Hc as <-; exists most; split; [exact Hm|exact Hl]).
  - exact (Hf Y l0 Hc).
  - exact (Hf X l0 Hc).
Qed.

Lemma within_budget_store_set (a : axis) (f : Figure) l :
  within_budget f ->
  within_budget
    ((match a with X => set_xtick_values | Y => set_ytick_values end)
       (TickSet l) f).
Proof.
  intros Hf b l0 Hc.
  destruct a, b; simpl in *; try discriminate.
  - exact (Hf Y l0 Hc).
  - exact (Hf X l0 Hc).
Qed.

Section Bounded.
Hypothesis Hsel : selector_bounded.

Lemma within_budget_axis_ticks (a : axis) : preserves within_budget (axis_ticks a).
Proof.
  intros f f' r Hf.
  destruct (cached_ticks a f) as [tv|] eqn:Hc.
  { rewrite (axis_ticks_hit a f tv Hc). intros [= <- _]. exact Hf. }
  destruct (is_numerical (axis_values a f)) eqn:Hn.
  - rewrite (axis_ticks_fresh a f Hc Hn).
    destruct (py_min (axis_values a f)) as [lo|e]; simpl;
      [|intros [= <- _]; exact Hf].
    destruct (py_max (axis_values a f)) as [hi|e]; simpl;
      [|intros [= <- _]; exact Hf].
    destruct (tick_budget a f) as [most|e] eqn:Hm; simpl;
      [|intros [= <- _]; exact Hf].
    destruct (best_ticks lo hi most) as [t|e] eqn:Eb; simpl;
      [|intros [= <- _]; exact Hf].
    intros [= <- _].
    exact (within_budget_store a f t most Hf Hm (Hsel _ _ _ _ Eb)).
  - rewrite (axis_ticks_categorical a f Hc Hn). intros [= <- _].
    apply within_budget_store_set. exact Hf.
Qed.

Lemma within_budget_safe : cache_safe within_budget.
Proof.
  pose proof (within_budget_axis_ticks Y) as Hy.
  pose proof (within_budget_axis_ticks X) as Hx.
  assert (Hw : preserves within_budget _yax_width).
  { apply preserves_yax_width; [exact Hy|].
    intros v f Hf a l Hc. destruct a; [exact (Hf X l Hc)|exact (Hf Y l Hc)]. }
  split; [exact Hy|]. split; [exact Hx|]. split; [exact Hw|]. split.
  - apply preserves_yscale; [exact Hy|].
    intros v f Hf a l Hc. destruct a; [exact (Hf X l Hc)|exact (Hf Y l Hc)].
  - apply preserves_xscale; [exact Hw|exact Hx|].
    intros v f Hf a l Hc. destruct a; [exact (Hf X l Hc)|exact (Hf Y l Hc)].
Qed.

Lemma reachable_within_budget (f : Figure) : reachable f -> within_budget f.
Proof.
  induction 1 as [term xl yl t w h loc n f Hinit|fn x y marker label f Hr IH|f Hr IH].
  - injection Hinit as <-. intros a l Hc. destruct a; discriminate.
  - destruct (register_cases fn x y marker label f)
      as [(e & -> & _)|(c & rest & _ & _ & ->)]; simpl; [exact IH|].
    destruct (truthy label); intros a l Hc;
      (destruct a; [exact (IH X l Hc)|exact (IH Y l Hc)]).
  - destruct (draw f) as [f' r] eqn:Ed. simpl.
    exact (preserves_draw within_budget within_budget_safe _ _ _ IH Ed).
Qed.

End Bounded.

Lemma axis_ticks_cached (a : axis) (f f' : Figure) tv :
  axis_ticks a f = (f', Ok tv) ->
  cached_ticks a f' = Some tv /\ tick_budget a f' = tick_budget a f.
Proof.
  intros E. split.
  - destruct a; simpl in *; revert E;
      unfold _xtick_values, _ytick_values, cached_property.
    + destruct (cached_xtick_values f) as [tv0|] eqn:E0;
        [intros [= <- <-]; exact E0|].
      match goal with |- context [match ?body f with _ => _ end] =>
        destruct (body f) as [f2 [v|e]] end; [|discriminate].
      intros [= <- <-]. reflexivity.
    + destruct (cached_ytick_values f) as [tv0|] eqn:E0;
        [intros [= <- <-]; exact E0|].
      match goal with |- context [match ?body f with _ => _ end] =>
        destruct (body f) as [f2 [v|e]] end; [|discriminate].
      intros [= <- <-]. reflexivity.
  - destruct a; simpl in *.
    + destruct (stable_xtick_values _ _ _ E) as [[] _]. congruence.
    + destruct (stable_ytick_values _ _ _ E) as [[] _]. congruence.
Qed.


End TickBudgets.

(** ** Bar plots *)

Section Bars.
Context `{Helpers}.

Lemma bar_rows_between (h : nat) (bottom y : Q) (r : nat) :
  0 < py_int bottom -> 0 <= py_round y -> (r < h)%nat ->
  r ∈ bar_rows h bottom y
  <-> py_int bottom <= Z.of_nat h - 1 - Z.of_nat r <= py_round y.
Proof.
  intros Hb Hy Hr. unfold bar_rows, slice, slice_bound. cbn [from_option].
  replace (- py_round y - 1 <? 0) with true by (symmetry; apply Z.ltb_lt; lia).
  replace (- py_int bottom <? 0) with true by (symmetry; apply Z.ltb_lt; lia).
  rewrite elem_of_seq. lia.
Qed.

Lemma bar_rows_zero (h : nat) (bottom y : Q) :
  py_int bottom = 0 -> bar_rows h bottom y = [].
Proof.
  intros Hb. unfold bar_rows, slice, slice_bound. cbn [from_option].
  rewrite Hb. change (- 0 <? 0) with false. cbv beta iota.
  replace (Z.to_nat (Z.min (- 0) (Z.of_nat h))) with 0%nat by lia.
  reflexivity.
Qed.

Lemma bar_cells_zero (h w : nat) (bottom : Q) pts r c :
  py_int bottom = 0 -> bar_cells h w bottom pts r c = false.
Proof.
  intros Hb. unfold bar_cells. induction pts as [|p pts IH]; [reflexivity|].
  cbn [existsb]. rewrite IH, (bar_rows_zero h bottom p.2 Hb).
  rewrite bool_decide_eq_false_2 by apply not_elem_of_nil.
  rewrite andb_false_r. reflexivity.
Qed.

Lemma col_cell (h w : nat) a ch (sl : list nat) (cj r c : nat) :
  shaped h w a -> (r < h)%nat -> (c < w)%nat ->
  get_cell (store a (map (fun r0 => (r0, cj)) sl) ch) r c
    = if (c =? cj)%nat && bool_decide (r ∈ sl) then Some ch else get_cell a r c.
Proof.
  intros Ha Hr Hc. rewrite (get_cell_store h w) by assumption.
  change (map (fun r0 : nat => (r0, cj))) with
    (fmap (M := list) (fun r0 : nat => (r0, cj))).
  destruct (Nat.eqb_spec c cj) as [->|Hne]; cbn [andb].
  - rewrite (bool_decide_ext _ (r ∈ sl)); [reflexivity|].
    rewrite list_elem_of_fmap. split.
    + intros (r0 & [= ->] & Hin). exact Hin.
    + intros Hin. exists r. split; [reflexivity|exact Hin].
  - rewrite bool_decide_eq_false_2; [reflexivity|].
    rewrite list_elem_of_fmap. intros (r0 & [= _ E] & _). contradiction.
Qed.

(** The loop of [draw_bar], when it returns: one column slice per point. *)
Lemma bar_loop_run bottom marker pts : forall canvas canvas' (h w : nat),
  shaped h w canvas ->
  bar_loop bottom marker pts canvas = Ok canvas' ->
  shaped h w canvas'
  /\ forall r c, (r < h)%nat -> (c < w)%nat ->
       get_cell canvas' r c
         = if bar_cells h w bottom pts r c then Some marker
           else get_cell canvas r c.
Proof.
  induction pts as [|p pts IH]; intros canvas canvas' h w Hs E.
  - injection E as <-. split; [exact Hs|]. intros r c _ _. reflexivity.
  - unfold bar_loop in E. cbn [rfold] in E. fold (bar_loop bottom marker pts) in E.
    apply rbind_Ok in E as (canvas1 & E1 & E).
    apply rbind_Ok in E1 as (v & Ev & [= <-]).
    apply col_view_Ok in Ev as (cj & Ej & ->).
    pose proof Hs as (_ & Hh & Hw). rewrite Hh in *. rewrite Hw in Ej.
    apply index_Ok_mod in Ej as [Hcj Emod].
    destruct (IH _ _ h w (shaped_store _ _ _ _ _ Hs) E) as [Hs' Hcells].
    split; [exact Hs'|]. intros r c Hr Hc.
    rewrite (Hcells r c Hr Hc), (col_cell h w) by assumption.
    cbn [bar_cells existsb]. fold (bar_cells h w bottom pts r c).
    fold (bar_rows h bottom p.2).
    replace (Z.of_nat c =? py_round p.1 mod Z.of_nat w) with (c =? cj)%nat
      by (rewrite <- Emod; destruct (Nat.eqb_spec c cj), (Z.eqb_spec (Z.of_nat c) (Z.of_nat cj));
          try reflexivity; lia).
    destruct (bar_cells h w bottom pts r c);
      [rewrite orb_true_r; reflexivity|rewrite orb_false_r; reflexivity].
Qed.

Lemma scale_cached_y (f f' : Figure) sy :
  _yscale f = (f', Ok sy) -> cached_yscale f' = Some sy.
Proof.
  unfold _yscale, cached_property.
  destruct (cached_yscale f) as [v|] eqn:E0; [intros [= <- <-]; exact E0|].
  match goal with |- context [match ?body f with _ => _ end] =>
    destruct (body f) as [f2 [v|e]] end; [|discriminate].
  intros [= <- <-]. reflexivity.
Qed.

Lemma scale_cached_x (f f' : Figure) sx :
  _xscale f = (f', Ok sx) -> cached_xscale f' = Some sx.
Proof.
  unfold _xscale, cached_property.
  destruct (cached_xscale f) as [v|] eqn:E0; [intros [= <- <-]; exact E0|].
  match goal with |- context [match ?body f with _ => _ end] =>
    destruct (body f) as [f2 [v|e]] end; [|discriminate].
  intros [= <- <-]. reflexivity.
Qed.

(** What a bar plot does when [draw] calls it. *)
Lemma call_bar p canvas (f f' : Figure) canvas' (h w : nat) :
  shaped h w canvas -> func p = Bar ->
  call p canvas f = (f', Ok canvas') ->
  exists sx sy m bottom xs ys,
    cached_xscale f' = Some sx /\ cached_yscale f' = Some sy
    /\ py_min (keywords_y p) = Ok m /\ transform sy m = Ok bottom
    /\ transform_seq sx (keywords_x p) = Ok xs
    /\ transform_seq sy (keywords_y p) = Ok ys
    /\ shaped h w canvas'
    /\ forall r c, (r < h)%nat -> (c < w)%nat ->
         get_cell canvas' r c
           = if bar_cells h w bottom (zip xs ys) r c
             then Some (keywords_marker p)
             else get_cell canvas r c.
Proof.
  intros Hs Hp. unfold call. rewrite Hp. unfold draw_bar. intros E.
  apply bind_Ok in E as (f1 & sy & Ey & E).
  apply bind_Ok in E as (f2 & m & Em & E).
  unfold lift in Em. injection Em as <- Em.
  apply bind_Ok in E as (f2 & bottom & Eb & E).
  unfold lift in Eb. injection Eb as <- Eb.
  apply bind_Ok in E as (f2 & sx & Ex & E).
  apply bind_Ok in E as (f3 & xs & Exs & E).
  unfold lift in Exs. injection Exs as <- Exs.
  pose proof (scale_cached_y _ _ _ Ey) as Hy1.
  pose proof (scale_cached_x _ _ _ Ex) as Hx2.
  assert (Hy2 : cached_yscale f2 = Some sy)
    by (destruct (stable_xscale _ _ _ Ex) as [[] _]; auto).
  apply bind_Ok in E as (f3 & sy' & Ey' & E).
  rewrite (cached_yscale_hit f2 sy Hy2) in Ey'. injection Ey' as <- <-.
  apply bind_Ok in E as (f3 & ys & Eys & E).
  unfold lift in Eys. injection Eys as <- Eys.
  unfold lift in E. injection E as <- E.
  destruct (bar_loop_run _ _ _ _ _ h w Hs E) as [Hs' Hcells].
  exists sx, sy, m, bottom, xs, ys. repeat (split; [assumption|]). exact Hcells.
Qed.

Lemma for_each_split {A S} (body : S -> A -> M S) (l1 : list A) a l2 :
  forall s (f f' : Figure) s',
    for_each (l1 ++ a :: l2)%list body s f = (f', Ok s') ->
    exists f0 s0 f1 s1,
      for_each l1 body s f = (f0, Ok s0)
      /\ body s0 a f0 = (f1, Ok s1)
      /\ for_each l2 body s1 f1 = (f', Ok s').
Proof.
  induction l1 as [|b l1 IH]; intros s f f' s' E.
  - cbn [app for_each] in E. apply bind_Ok in E as (f1 & s1 & E1 & E).
    exists f, s, f1, s1. repeat split; assumption.
  - cbn [app for_each] in E. apply bind_Ok in E as (fb & sb & Eb & E).
    destruct (IH _ _ _ _ E) as (f0 & s0 & f1 & s1 & E0 & E1 & E2).
    exists f0, s0, f1, s1. split; [|split; assumption].
    cbn [for_each]. unfold bind. rewrite Eb. exact E0.
Qed.

(** C4, as the code has it: every registered bar plot is called when the
    figure is drawn, with the scales the figure then has (they are cached
    when the draw returns), and the call writes the marker of the plot, for
    every point [(x, y)], into the single column that the rounded position
    of [x] indexes, in the rows of the slice
    [-round(y)-1 : -int(bottom)], where [bottom] is the position of the
    least y value of that plot; it writes nowhere else, and when the plot is
    the last one and there is no legend, the result is the canvas that
    [draw] returns.  For a series minimum at a position of 1 or more the
    rows are those from the position of [y] down to the position of the
    minimum, counted upwards from the bottom row; for a series minimum at
    position 0 the slice ends at [-0], which is empty, and the call writes
    nothing. *)
Theorem bar_anchored_at_series_minimum (f f' : Figure) canvas' ps p qs :
  draw f = (f', Ok canvas') ->
  _plots f = (ps ++ p :: qs)%list -> func p = Bar ->
  exists sx sy m bottom xs ys f0 f1 canvas0 canvas1,
    cached_xscale f' = Some sx /\ cached_yscale f' = Some sy
    /\ py_min (keywords_y p) = Ok m /\ transform sy m = Ok bottom
    /\ transform_seq sx (keywords_x p) = Ok xs
    /\ transform_seq sy (keywords_y p) = Ok ys
    /\ ext f f0 /\ call p canvas0 f0 = (f1, Ok canvas1) /\ ext f1 f'
    /\ shaped (Z.to_nat (height f)) (Z.to_nat (width f)) canvas0
    /\ shaped (Z.to_nat (height f)) (Z.to_nat (width f)) canvas1
    /\ (forall r c, (r < Z.to_nat (height f))%nat -> (c < Z.to_nat (width f))%nat ->
          get_cell canvas1 r c
            = if bar_cells (Z.to_nat (height f)) (Z.to_nat (width f)) bottom
                   (zip xs ys) r c
              then Some (keywords_marker p)
              else get_cell canvas0 r c)
    /\ (qs = [] -> _labels f = [] -> canvas' = canvas1)
    /\ (forall y r,
          0 < py_int bottom -> 0 <= py_round y -> (r < Z.to_nat (height f))%nat ->
          r ∈ bar_rows (Z.to_nat (height f)) bottom y
          <-> py_int bottom <= height f - 1 - Z.of_nat r <= py_round y)
    /\ (py_int bottom = 0 ->
        forall r c, (r < Z.to_nat (height f))%nat -> (c < Z.to_nat (width f))%nat ->
          get_cell canvas1 r c = get_cell canvas0 r c).
Proof.
  intros Hd Hps Hp. unfold draw in Hd.
  apply bind_Ok in Hd as (fp & cp & Hdp & Hd).
  apply bind_Ok in Hd as (fp' & labels & [= <- <-] & Hd).
  unfold draw_plots in Hdp.
  apply bind_Ok in Hdp as (f1 & hh & [= <- <-] & Hdp).
  apply bind_Ok in Hdp as (f1 & ww & [= <- <-] & Hdp).
  apply bind_Ok in Hdp as (f1 & c0 & [= <- Hn] & Hdp).
  apply shaped_np_empty in Hn as (Hc0 & Hh & Hw).
  apply (shaped_fill _ _ _ " "%char) in Hc0.
  apply bind_Ok in Hdp as (f1 & t & [= <- <-] & Hdp).
  apply bind_Ok in Hdp as (f1 & c1 & Et & Hdp).
  assert (Hc1 : shaped (Z.to_nat (height f)) (Z.to_nat (width f)) c1 /\ f1 = f).
  { destruct (truthy (title f)).
    - apply bind_Ok in Et as (f2 & w2 & [= <- <-] & Et).
      unfold lift in Et. injection Et as <- Et. split; [|reflexivity].
      apply rbind_Ok in Et as (v & _ & Et). unfold _center_draw in Et.
      exact (ryields_store_list _ _ _ _ _ Hc0 _ Et).
    - injection Et as <- <-. split; [exact Hc0|reflexivity]. }
  destruct Hc1 as [Hc1 ->].
  apply bind_Ok in Hdp as (f2 & c2 & Ex & Hdp).
  pose proof (shaped_draw_x_axis _ _ _ Hc1 _ _ _ Ex) as Hc2.
  destruct (stable_draw_x_axis _ _ _ _ Ex) as [Hext2 _].
  apply bind_Ok in Hdp as (f3 & c3 & Ey & Hdp).
  pose proof (shaped_draw_y_axis _ _ _ Hc2 _ _ _ Ey) as Hc3.
  destruct (stable_draw_y_axis _ _ _ _ Ey) as [Hext3 _].
  apply bind_Ok in Hdp as (f4 & plots & [= <- <-] & Hdp).
  assert (Hplots : _plots f3 = (ps ++ p :: qs)%list).
  { destruct Hext2, Hext3. congruence. }
  rewrite Hplots in Hdp.
  apply for_each_split in Hdp as (f0 & canvas0 & f1 & canvas1 & E0 & E1 & E2).
  pose proof (yields_for_each (shaped (Z.to_nat (height f)) (Z.to_nat (width f)))
                ps (fun canvas q => call q canvas)
                (fun s a Hs => shaped_call _ _ a s Hs) c3 Hc3 _ _ _ E0) as Hs0.
  destruct (stable_for_each ps (fun canvas q => call q canvas)
              (fun s a => stable_call a s) c3 _ _ _ E0) as [Hext0 _].
  destruct (stable_for_each qs (fun canvas q => call q canvas)
              (fun s a => stable_call a s) canvas1 _ _ _ E2) as [Hext1 _].
  destruct (call_bar p canvas0 f0 f1 canvas1 _ _ Hs0 Hp E1)
    as (sx & sy & m & bottom & xs & ys & Hsx & Hsy & Hm & Hb & Hxs & Hys
        & Hs1 & Hcells).
  assert (Hextl : ext fp f').
  { destruct (_labels fp); [injection Hd as <- _; apply ext_refl|].
    exact (proj1 (stable_draw_legend _ _ _ _ Hd)). }
  assert (Hext : ext f1 f') by (eapply ext_trans; eassumption).
  exists sx, sy, m, bottom, xs, ys, f0, f1, canvas0, canvas1.
  split; [exact (ext_xscale _ _ Hext _ Hsx)|].
  split; [exact (ext_yscale _ _ Hext _ Hsy)|].
  do 4 (split; [assumption|]).
  split; [exact (ext_trans _ _ _ (ext_trans _ _ _ Hext2 Hext3) Hext0)|].
  do 5 (split; [assumption|]).
  split.
  { intros -> Hl. cbn [for_each] in E2. injection E2 as <- <-.
    assert (El : _labels f1 = []).
    { destruct (ext_trans _ _ _ (ext_trans _ _ _ Hext2 Hext3) Hext0).
      destruct (stable_call _ _ _ _ _ E1) as [[] _]. congruence. }
    rewrite El in Hd. injection Hd as _ <-. reflexivity. }
  split.
  { intros y r Hb0 Hy Hr.
    rewrite (bar_rows_between _ bottom y r Hb0 Hy Hr). lia. }
  intros Hb0 r c Hr Hc. rewrite (Hcells r c Hr Hc).
  rewrite (bar_cells_zero _ _ bottom _ r c Hb0). reflexivity.
Qed.

End Bars.

(** ** Line feeds in the rendered string *)

Section PlainData.
Context `{Helpers}.

Lemma no_newline_String c s :
  no_newline (String c s) = negb (Ascii.eqb c "010") && no_newline s.
Proof. reflexivity. Qed.

Lemma no_newline_cons c s :
  plain_char c -> no_newline s = true -> no_newline (String c s) = true.
Proof.
  intros Hc Hs. rewrite no_newline_String, Hs.
  apply Ascii.eqb_neq in Hc. rewrite Hc. reflexivity.
Qed.

Lemma no_newline_append s t :
  no_newline (s ++ t) = no_newline s && no_newline t.
Proof.
  induction s as [|c s IH]; [reflexivity|].
  change (String c s ++ t)%string with (String c (s ++ t)).
  rewrite !no_newline_String, IH, andb_assoc. reflexivity.
Qed.

Lemma no_newline_app s t :
  no_newline s = true -> no_newline t = true -> no_newline (s ++ t) = true.
Proof. intros Hs Ht. rewrite no_newline_append, Hs, Ht. reflexivity. Qed.

Lemma no_newline_repeat c n : plain_char c -> no_newline (repeat_char c n) = true.
Proof.
  intros Hc. induction n as [|n IH]; [reflexivity|].
  cbn [repeat_char]. apply no_newline_cons; assumption.
Qed.

Lemma no_newline_substring s : forall n m,
  no_newline s = true -> no_newline (String.substring n m s) = true.
Proof.
  induction s as [|c s IH]; intros [|n] [|m] Hs; cbn [String.substring];
    try reflexivity; try exact Hs.
  - rewrite no_newline_String in *. apply andb_true_iff in Hs as [Hc Hs].
    rewrite Hc, (IH 0%nat m Hs). reflexivity.
  - rewrite no_newline_String in Hs. apply andb_true_iff in Hs as [_ Hs].
    exact (IH n 0%nat Hs).
  - rewrite no_newline_String in Hs. apply andb_true_iff in Hs as [_ Hs].
    exact (IH n (S m) Hs).
Qed.

Lemma no_newline_str_upto s n :
  no_newline s = true -> no_newline (str_upto s n) = true.
Proof. intros Hs. unfold str_upto. apply no_newline_substring. exact Hs. Qed.

Lemma no_newline_ljust s n c :
  no_newline s = true -> plain_char c -> no_newline (ljust s n c) = true.
Proof.
  intros Hs Hc. unfold ljust.
  apply no_newline_app; [exact Hs|apply no_newline_repeat; exact Hc].
Qed.

Lemma no_newline_rjust s n c :
  no_newline s = true -> plain_char c -> no_newline (rjust s n c) = true.
Proof.
  intros Hs Hc. unfold rjust.
  apply no_newline_app; [apply no_newline_repeat; exact Hc|exact Hs].
Qed.

Lemma no_newline_center s n c :
  no_newline s = true -> plain_char c -> no_newline (center s n c) = true.
Proof.
  intros Hs Hc. unfold center. destruct (_ <=? 0); [exact Hs|]. cbv zeta.
  apply no_newline_app; [apply no_newline_repeat; exact Hc|].
  apply no_newline_app; [exact Hs|apply no_newline_repeat; exact Hc].
Qed.

Lemma no_newline_padded al s n :
  no_newline s = true -> no_newline (padded al s n) = true.
Proof.
  intros Hs.
  destruct al; cbn [padded];
    [apply no_newline_center|apply no_newline_ljust|apply no_newline_rjust];
    try exact Hs; discriminate.
Qed.

Lemma no_newline_default o : plain_option o -> no_newline (default "" o) = true.
Proof. intros Ho. destruct o as [s|]; [exact (Ho s eq_refl)|reflexivity]. Qed.

Lemma plain_chars s : no_newline s = true -> Forall plain_char (chars s).
Proof.
  induction s as [|c s IH]; intros Hs; [constructor|].
  rewrite no_newline_String in Hs. apply andb_true_iff in Hs as [Hc Hs].
  constructor; [|exact (IH Hs)].
  apply Ascii.eqb_neq. apply negb_true_iff. exact Hc.
Qed.

Lemma no_newline_string_of_list_ascii l :
  Forall plain_char l -> no_newline (string_of_list_ascii l) = true.
Proof.
  induction 1 as [|c l Hc _ IH]; [reflexivity|].
  cbn [string_of_list_ascii]. apply no_newline_cons; assumption.
Qed.

Lemma no_newline_uint_digits d : no_newline (NilEmpty.string_of_uint d) = true.
Proof. induction d; cbn [NilEmpty.string_of_uint]; try reflexivity; exact IHd. Qed.

Lemma no_newline_uint d : no_newline (NilZero.string_of_uint d) = true.
Proof.
  destruct d; try reflexivity; unfold NilZero.string_of_uint;
    apply no_newline_uint_digits.
Qed.

Lemma no_newline_digits n : no_newline (digits n) = true.
Proof. apply no_newline_uint. Qed.

(** A number formatted with [".2g"] holds digits, a sign, a point and an
    exponent mark. *)
Lemma no_newline_format_2g q : no_newline (format_2g q) = true.
Proof.
  unfold format_2g. destruct (Qeq_bool q 0); [reflexivity|]. cbv zeta.
  generalize (ilog10 (Qabs q)). intros e0.
  generalize (py_round (Qabs q / pow10 (e0 - 1))). intros m0.
  destruct (m0 =? 100);
    repeat match goal with
           | |- context [if ?b then _ else _] => destruct b
           end;
    rewrite ?no_newline_append, ?no_newline_digits,
      ?(no_newline_repeat "0" _ ltac:(discriminate)); reflexivity.
Qed.

Lemma plain_fmt v : ryields (fun s => no_newline s = true) (_fmt v).
Proof.
  intros s. destruct v as [q|t]; [|discriminate].
  intros [= <-]. apply no_newline_format_2g.
Qed.

Lemma plain_labelstrings (f : Figure) :
  plain_figure f -> Forall (fun s => no_newline s = true) (labelstrings f).
Proof.
  intros (_ & _ & _ & _ & Hl). unfold labelstrings. apply Forall_map.
  eapply Forall_impl; [exact Hl|]. intros [c s] [Hc Hs]. cbn [fst snd] in *.
  apply no_newline_cons; [exact Hc|]. apply no_newline_app; [reflexivity|exact Hs].
Qed.

Lemma plain_set_cell ch cs rc :
  plain_char ch -> Forall (Forall plain_char) cs ->
  Forall (Forall plain_char) (set_cell ch cs rc).
Proof.
  intros Hc Hcs. unfold set_cell. apply Forall_alter; [exact Hcs|].
  intros row _ Hrow. apply Forall_insert; assumption.
Qed.

Lemma plain_paint ps : forall cs,
  Forall (fun p : (nat * nat) * ascii => plain_char p.2) ps ->
  Forall (Forall plain_char) cs ->
  Forall (Forall plain_char) (paint ps cs).
Proof.
  unfold paint. induction ps as [|p ps IH]; intros cs Hps Hcs; [exact Hcs|].
  apply Forall_cons in Hps as [Hp Hps]. cbn [fold_left].
  apply IH; [exact Hps|]. apply plain_set_cell; assumption.
Qed.

Lemma plain_store a v ch :
  plain_canvas a -> plain_char ch -> plain_canvas (store a v ch).
Proof.
  intros Ha Hc. unfold plain_canvas, store. cbn [cells].
  apply plain_paint; [|exact Ha]. apply Forall_map.
  apply Forall_forall. intros rc _. exact Hc.
Qed.

Lemma plain_store_list a v l :
  plain_canvas a -> Forall plain_char l -> ryields plain_canvas (store_list a v l).
Proof.
  intros Ha Hl a'. unfold store_list. destruct (length l =? length v)%nat.
  - intros [= <-]. unfold plain_canvas. cbn [cells].
    apply plain_paint; [|exact Ha].
    apply Forall_forall. intros [rc c] Hin. cbn [snd].
    apply elem_of_zip_r in Hin.
    exact (proj1 (Forall_forall _ _) Hl c Hin).
  - destruct l as [|ch [|ch' l]]; try discriminate.
    intros [= <-]. apply plain_store; [exact Ha|].
    apply Forall_cons in Hl as [Hc _]. exact Hc.
Qed.

Lemma plain_draw_text al s v a :
  plain_canvas a -> no_newline s = true ->
  ryields plain_canvas (draw_text al s v a).
Proof.
  intros Ha Hs. unfold draw_text.
  destruct al; unfold _center_draw, _ljust_draw, _rjust_draw;
    apply plain_store_list; try exact Ha; apply plain_chars;
    [apply no_newline_center|apply no_newline_ljust|apply no_newline_rjust];
    try exact Hs; discriminate.
Qed.

Lemma plain_fill a ch : plain_char ch -> plain_canvas (fill a ch).
Proof.
  intros Hc. unfold plain_canvas, fill. cbn [cells].
  apply Forall_replicate, Forall_replicate. exact Hc.
Qed.

Lemma plain_put_row a row left width s :
  plain_canvas a -> no_newline s = true ->
  ryields plain_canvas (put_row a row left width s).
Proof.
  intros Ha Hs. unfold put_row. apply ryields_rbind. intros v _.
  apply plain_store_list; [exact Ha|apply plain_chars; exact Hs].
Qed.

Lemma enumerate_Forall {A} (R : A -> Prop) (l : list A) :
  Forall R l -> forall start, Forall (fun il : Z * A => R il.2) (enumerate l start).
Proof.
  induction 1 as [|a l Ha _ IH]; intros start; cbn [enumerate]; constructor;
    [exact Ha|apply IH].
Qed.

Lemma ryields_rfold_in {A S} (R : A -> Prop) (Q : S -> Prop)
    (body : S -> A -> result S) l :
  Forall R l -> (forall s a, R a -> Q s -> ryields Q (body s a)) ->
  forall s, Q s -> ryields Q (rfold body l s).
Proof.
  intros Hl Hb. induction Hl as [|a l Ha _ IH]; intros s Hs; cbn [rfold].
  - apply ryields_Ok. exact Hs.
  - apply ryields_rbind. intros s' Hs'. apply IH. exact (Hb s a Ha Hs s' Hs').
Qed.

Lemma plain_legend_box a top left width ls :
  plain_canvas a -> Forall (fun s => no_newline s = true) ls ->
  ryields plain_canvas (legend_box a top left width ls).
Proof.
  intros Ha Hls. unfold legend_box.
  apply (ryields_rbind_with plain_canvas).
  { apply plain_put_row; [exact Ha|].
    apply no_newline_app; [reflexivity|].
    apply no_newline_app; [|reflexivity].
    apply no_newline_center; [reflexivity|discriminate]. }
  intros a1 Ha1. apply (ryields_rbind_with plain_canvas).
  { apply (ryields_rfold_in (fun il : Z * string => no_newline il.2 = true));
      [| |exact Ha1].
    - exact (enumerate_Forall _ ls Hls 0).
    - intros s il Hil Hs. apply plain_put_row; [exact Hs|].
      apply no_newline_app; [reflexivity|].
      apply no_newline_app; [|reflexivity].
      apply no_newline_ljust; [exact Hil|discriminate]. }
  intros a2 Ha2. apply plain_put_row; [exact Ha2|].
  apply no_newline_app; [reflexivity|].
  apply no_newline_app; [|reflexivity].
  apply no_newline_repeat. discriminate.
Qed.

Lemma plain_tolist a :
  plain_canvas a -> Forall (fun r => no_newline r = true) (tolist a).
Proof.
  intros Ha. unfold tolist. apply Forall_map.
  eapply Forall_impl; [exact Ha|]. intros row Hrow.
  apply no_newline_string_of_list_ascii. exact Hrow.
Qed.

(** *** Methods that keep a property and return a value with one *)

Lemma triple_ret {A} P (Q : A -> Prop) a : Q a -> triple P Q (ret a).
Proof. intros HQ f f' a' HP [= <- <-]. split; assumption. Qed.

Lemma triple_lift {A} P (Q : A -> Prop) r : ryields Q r -> triple P Q (lift r).
Proof. intros Hr f f' a HP [= <- Ha]. split; [exact HP|exact (Hr a Ha)]. Qed.

Lemma triple_attr {A} P (Q : A -> Prop) (proj : Figure -> A) :
  (forall f, P f -> Q (proj f)) -> triple P Q (attr proj).
Proof. intros Hq f f' a HP [= <- <-]. split; [exact HP|exact (Hq f HP)]. Qed.

Lemma triple_true {A} P (m : M A) : preserves P m -> triple P (fun _ => True) m.
Proof. intros Hm f f' a HP Ha. split; [exact (Hm _ _ _ HP Ha)|exact I]. Qed.

Lemma triple_bind {A B} P (R : A -> Prop) (Q : B -> Prop) (m : M A) (k : A -> M B) :
  triple P R m -> (forall a, R a -> triple P Q (k a)) -> triple P Q (bind m k).
Proof.
  intros Hm Hk f f' b HP Hb. apply bind_Ok in Hb as (f1 & a & Ha & Hb).
  destruct (Hm _ _ _ HP Ha) as [HP1 HR]. exact (Hk a HR _ _ _ HP1 Hb).
Qed.

Lemma triple_for_each {A S} P (R : A -> Prop) (Q : S -> Prop) (l : list A)
    (body : S -> A -> M S) :
  Forall R l -> (forall s a, R a -> Q s -> triple P Q (body s a)) ->
  forall s, Q s -> triple P Q (for_each l body s).
Proof.
  intros Hl Hb. induction Hl as [|a l Ha _ IH]; intros s Hs; cbn [for_each].
  - apply triple_ret. exact Hs.
  - apply (triple_bind P Q); [apply Hb; assumption|]. intros s' Hs'. apply IH. exact Hs'.
Qed.

Lemma Forall_True {A} (l : list A) : Forall (fun _ => True) l.
Proof. apply Forall_forall. intros; exact I. Qed.

End PlainData.

(** The property that a step of a proof about line feeds asks of a bound
    value, by its type. *)
Ltac plain_pick A :=
  lazymatch A with
  | ndarray => constr:(plain_canvas)
  | string => constr:(fun s : string => no_newline s = true)
  | option string => constr:(plain_option)
  | list plot => constr:(Forall (fun p : plot => plain_char (keywords_marker p)))
  | list string => constr:(Forall (fun s : string => no_newline s = true))
  | _ => constr:(fun _ : A => True)
  end.

(** One step of a proof that a drawing step writes no line feed. *)
Ltac plain_step :=
  lazymatch goal with
  | |- plain_char _ => first [assumption | discriminate]
  | |- plain_canvas (store _ _ _) => apply plain_store
  | |- plain_canvas (fill _ _) => apply plain_fill
  | |- plain_canvas _ => assumption
  | |- Forall plain_char (chars _) => apply plain_chars
  | |- Forall _ _ => assumption
  | |- no_newline (str_upto _ _) = true => apply no_newline_str_upto
  | |- no_newline (default _ _) = true => apply no_newline_default; assumption
  | |- no_newline (center _ _ _) = true => apply no_newline_center
  | |- no_newline (ljust _ _ _) = true => apply no_newline_ljust
  | |- no_newline (rjust _ _ _) = true => apply no_newline_rjust
  | |- no_newline _ = true => assumption
  | |- ryields (fun _ => True) _ => intros ? _; exact I
  | |- ryields _ (Ok _) => apply ryields_Ok
  | |- ryields ?Q (@rbind ?A _ _ _) =>
      lazymatch A with
      | ndarray => apply (ryields_rbind_with Q); [|intros ? ?]
      | _ => apply ryields_rbind; intros ? ?
      end
  | |- ryields _ (rfold _ _ _) =>
      apply ryields_rfold;
      [first [intros ? [[? ?] [? ?]] ? | intros ? [? ?] ? | intros ? ? ?];
       cbv beta iota|]
  | |- ryields _ (store_list _ _ _) => apply plain_store_list
  | |- ryields _ (_center_draw _ _ _) => unfold _center_draw
  | |- ryields _ (_ljust_draw _ _ _) => unfold _ljust_draw
  | |- ryields _ (_rjust_draw _ _ _) => unfold _rjust_draw
  | |- ryields _ (legend_box _ _ _ _ _) => apply plain_legend_box
  | |- ryields _ (bar_loop _ _ _ _) => unfold bar_loop
  | |- ryields _ (_fmt _) => apply plain_fmt
  | |- ryields _ (let _ := _ in _) => cbv zeta
  | |- ryields _ (if ?b then _ else _) => destruct b
  | |- ryields _ (match ?x with _ => _ end) => destruct x
  | |- triple _ (fun _ => True) _ => apply triple_true; preserves_tac
  | |- triple _ _ (ret _) => apply triple_ret
  | |- triple _ _ (lift _) => apply triple_lift
  | |- triple _ _ (attr _) =>
      apply triple_attr;
      (let Hx := fresh in
       intros ? Hx; first [exact (plain_labelstrings _ Hx)
                          |destruct Hx as (?&?&?&?&?); assumption])
  | |- triple ?P ?Q (@bind _ ?A _ _ _) =>
      let R := plain_pick A in
      apply (triple_bind P R Q); [|intros ? ?]
  | |- triple _ _ (for_each ?l _ _) =>
      lazymatch goal with
      | HF : Forall _ l |- _ =>
          apply (fun Hb => triple_for_each _ _ _ l _ HF Hb);
          [intros ? ? ? ?; cbv beta in *|]
      | _ =>
          apply (fun Hb => triple_for_each _ _ _ l _ (Forall_True l) Hb);
          [first [intros ? [? ?] _ ? | intros ? ? _ ?]; cbv beta iota|]
      end
  | |- triple _ _ (let _ := _ in _) => cbv zeta
  | |- triple _ _ (if ?b then _ else _) => destruct b
  | |- triple _ _ (match ?x with _ => _ end) => destruct x
  | |- triple _ _ _ => solve [auto 3 with methods nocore]
  end.

Ltac plain_tac := repeat plain_step.

Section PlainDraw.
Context `{Helpers}.

Lemma plain_figure_safe : cache_safe plain_figure.
Proof. apply cache_safe_stores; intros v f Hf; exact Hf. Qed.

Lemma plain_draw_x_axis canvas :
  plain_canvas canvas -> triple plain_figure plain_canvas (_draw_x_axis canvas).
Proof.
  intros Hc. destruct plain_figure_safe as (?&?&?&?&?).
  unfold _draw_x_axis. plain_tac.
Qed.

Lemma plain_draw_y_axis canvas :
  plain_canvas canvas -> triple plain_figure plain_canvas (_draw_y_axis canvas).
Proof.
  intros Hc. destruct plain_figure_safe as (?&?&?&?&?).
  unfold _draw_y_axis. plain_tac.
Qed.

Lemma plain_call p canvas :
  plain_char (keywords_marker p) -> plain_canvas canvas ->
  triple plain_figure plain_canvas (call p canvas).
Proof.
  intros Hp Hc. destruct plain_figure_safe as (?&?&?&?&?).
  unfold call, draw_scatter, draw_line, draw_bar, draw_hbar. plain_tac.
Qed.

Lemma plain_draw_legend canvas :
  plain_canvas canvas -> triple plain_figure plain_canvas (_draw_legend canvas).
Proof.
  intros Hc. destruct plain_figure_safe as (?&?&?&?&?).
  assert (forall h, preserves plain_figure (legend_top h))
    by (intros h; unfold legend_top; preserves_tac).
  assert (forall w, preserves plain_figure (legend_left w))
    by (intros w; unfold legend_left; preserves_tac).
  unfold _draw_legend. plain_tac.
Qed.

Lemma plain_np_empty h w a : np_empty h w = Ok a -> plain_canvas (fill a " ").
Proof. intros _. apply plain_fill. discriminate. Qed.

Lemma plain_draw_plots : triple plain_figure plain_canvas draw_plots.
Proof.
  destruct plain_figure_safe as (?&?&?&?&?).
  pose proof plain_draw_x_axis. pose proof plain_draw_y_axis.
  pose proof plain_call.
  unfold draw_plots.
  apply (triple_bind _ (fun _ => True)); [plain_tac|intros hh _].
  apply (triple_bind _ (fun _ => True)); [plain_tac|intros ww _].
  apply (triple_bind _ (fun _ => True)); [plain_tac|intros c0 _].
  cbv zeta.
  assert (Hc0 : plain_canvas (fill c0 " ")) by (apply plain_fill; discriminate).
  plain_tac.
Qed.

Lemma plain_draw : triple plain_figure plain_canvas draw.
Proof.
  pose proof plain_draw_plots. pose proof plain_draw_legend.
  unfold draw. plain_tac.
Qed.

Lemma newlines_append s t : newlines (s ++ t) = (newlines s + newlines t)%nat.
Proof.
  induction s as [|c s IH]; [reflexivity|].
  change (String c s ++ t)%string with (String c (s ++ t)).
  cbn [newlines]. rewrite IH. lia.
Qed.

Lemma newlines_plain s : no_newline s = true -> newlines s = 0%nat.
Proof.
  induction s as [|c s IH]; [reflexivity|]. rewrite no_newline_String.
  intros Hs. apply andb_true_iff in Hs as [Hc Hs]. cbn [newlines].
  apply negb_true_iff in Hc. rewrite Hc, (IH Hs). reflexivity.
Qed.

(** Rows without line feeds, joined, hold one line feed between every two
    rows. *)
Lemma newlines_join_lines rows :
  Forall (fun r => no_newline r = true) rows ->
  newlines (join_lines rows) = (length rows - 1)%nat.
Proof.
  induction 1 as [|r rows Hr Hrows IH]; [reflexivity|].
  destruct rows as [|r' rows].
  - cbn [join_lines length]. rewrite (newlines_plain r Hr). reflexivity.
  - change (join_lines (r :: r' :: rows))
      with (r ++ String "010" (join_lines (r' :: rows)))%string.
    rewrite newlines_append, (newlines_plain r Hr). cbn [newlines].
    rewrite IH. simpl. lia.
Qed.

Lemma render_rows_plain (f : Figure) s :
  (__repr__ f).2 = Ok s ->
  exists rows,
    s = join_lines rows
    /\ Z.of_nat (length rows) = height f
    /\ Forall (fun r => Z.of_nat (String.length r) = width f) rows
    /\ (plain_figure f -> Forall (fun r => no_newline r = true) rows).
Proof.
  destruct (__repr__ f) as [f' r] eqn:Er. simpl. intros ->.
  apply repr_rows in Er as (canvas & Hd & ->).
  pose proof (draw_shaped _ _ _ Hd) as (([Hl Hr] & Hh & Hw) & Hh0 & Hw0).
  exists (tolist canvas). split; [reflexivity|]. unfold tolist. split; [|split].
  - rewrite length_map, Hl, Hh. lia.
  - apply Forall_map. eapply Forall_impl; [exact Hr|].
    intros row Hrow. simpl. rewrite length_string_of_list_ascii, Hrow, Hw. lia.
  - intros Hf. apply plain_tolist. exact (proj2 (plain_draw _ _ _ Hf Hd)).
Qed.

End PlainDraw.


(** * The further statements on concrete figures *)

Section FurtherRuns.
#[local] Existing Instance SpecHelpers.helpers.

Lemma reachable_scatter_figure : reachable scatter_figure.
Proof.
  unfold scatter_figure, scatter. apply reach_register.
  apply (reach_init (80, 24) None None None (Some 20) (Some 10) "topright" 7).
  reflexivity.
Defined.

Lemma wf_blank_canvas : wf blank_canvas.
Proof. split; [reflexivity|repeat constructor]. Defined.

Lemma scatter_drawn_scales :
  cached_xscale scatter_drawn = Some (SpecHelpers.FittedLinear 0 5 4 19)
  /\ cached_yscale scatter_drawn = Some (SpecHelpers.FittedLinear 1 3 3 9)
  /\ cached_xtick_values scatter_drawn = Some (TickList [VNum 0; VNum 5])
  /\ cached_ytick_values scatter_drawn
     = Some (TickList [VNum 1; VNum (3 # 2); VNum 2; VNum (5 # 2); VNum 3])
  /\ cached_yax_width scatter_drawn = Some 4.
Proof. repeat split; vm_compute; reflexivity. Defined.

Lemma scatter_positions :
  transform_seq (SpecHelpers.FittedLinear 0 5 4 19) (nums [1; 2; 3])
    = Ok [7; 10; 13]%Q
  /\ transform_seq (SpecHelpers.FittedLinear 1 3 3 9) (nums [1; 2; 3])
     = Ok [3; 6; 9]%Q.
Proof. split; vm_compute; reflexivity. Defined.

Lemma reachable_balanced_witness :
  length (self_x lines_figure) = length (self_y lines_figure)
  /\ (length (_labels lines_figure) <= length (_plots lines_figure))%nat.
Proof.
  assert (Hr : reachable lines_figure).
  { unfold lines_figure, line. apply reach_register. apply reach_register.
    apply (reach_init (80, 24) None None None (Some 20) (Some 10) "topright" 7).
    reflexivity. }
  destruct (reachable_balanced lines_figure Hr) as (_ & Hl & _ & Hn).
  split; assumption.
Defined.

Lemma negative_size_fails_at_draw_witness :
  draw (configured (-5) 10 "topright" 7)
    = (configured (-5) 10 "topright" 7, Raise ValueError).
Proof.
  assert (Hneg : height (configured (-5) 10 "topright" 7) < 0
                 \/ width (configured (-5) 10 "topright" 7) < 0)
    by (right; reflexivity).
  exact (proj1 (negative_size_fails_at_draw _ Hneg)).
Defined.

Lemma first_draw_freezes_layout_witness :
  layout (scatter (nums [10]) (nums [10]) "x" None scatter_drawn).1
    = layout scatter_drawn
  /\ (_xtick_values (scatter (nums [10]) (nums [10]) "x" None scatter_drawn).1).2
     = Ok (TickList [VNum 0; VNum 5]).
Proof.
  assert (Hok : is_ok (draw scatter_figure).2 = true) by (vm_compute; reflexivity).
  destruct (first_draw_freezes_layout Scatter (nums [10]) (nums [10]) "x" None
              scatter_figure Hok) as (_ & _ & L & _).
  split; [exact L|]. vm_compute. reflexivity.
Defined.

Lemma zero_tick_label_length_witness :
  (_xtick_values zero_length_figure).2 = Raise ZeroDivisionError
  /\ is_ok (draw zero_length_figure).2 = false.
Proof.
  assert (Hl : xticklabel_length zero_length_figure = 0) by reflexivity.
  assert (Hn : is_numerical (self_x zero_length_figure) = true)
    by (vm_compute; reflexivity).
  assert (Hc : cached_xtick_values zero_length_figure = None) by reflexivity.
  destruct (zero_tick_label_length zero_length_figure Hl Hn Hc)
    as ((e & E & He) & Hd & _).
  split; [|exact Hd]. rewrite E. simpl. f_equal. apply He.
  vm_compute. reflexivity.
Defined.

Lemma unknown_legend_location_witness :
  is_ok (draw middle_figure).2 = false
  /\ (draw middle_figure).2 = Raise UnboundLocalError.
Proof.
  assert (Hne : _labels middle_figure <> []) by discriminate.
  assert (Hloc : vertical_known (legendloc middle_figure)
                 && horizontal_known (legendloc middle_figure) = false)
    by reflexivity.
  destruct (unknown_legend_location middle_figure Hne Hloc) as (Hd & _ & Hu).
  split; [exact Hd|].
  assert (Hok : is_ok (draw_plots middle_figure).2 = true)
    by (vm_compute; reflexivity).
  destruct (draw_plots middle_figure) as [f1 [canvas|e]] eqn:Ep; [|discriminate].
  rewrite (Hu eq_refl eq_refl f1 canvas eq_refl). reflexivity.
Defined.

Lemma empty_bars_fail_at_draw_witness :
  is_ok (draw empty_bar_figure).2 = false
  /\ is_ok (__repr__ empty_bar_figure).2 = false.
Proof.
  assert (Hin : In {| func := Bar; keywords_x := []; keywords_y := [];
                      keywords_marker := "#" |} (_plots empty_bar_figure))
    by (right; left; reflexivity).
  assert (Hp : empty_bars {| func := Bar; keywords_x := []; keywords_y := [];
                             keywords_marker := "#" |})
    by (left; split; reflexivity).
  destruct (empty_bars_fail_at_draw _ empty_bar_figure Hin Hp) as (Hd & Hs & _).
  split; assumption.
Defined.

Lemma scatter_cells_witness :
  exists canvas',
    draw_scatter (nums [1; 2; 3]) (nums [1; 2; 3]) "o" blank_canvas scatter_drawn
      = (scatter_drawn, Ok canvas')
    /\ get_cell canvas' 0 13 = Some "o"%char
    /\ get_cell canvas' 3 10 = Some "o"%char
    /\ get_cell canvas' 6 7 = Some "o"%char
    /\ get_cell canvas' 3 7 = Some " "%char.
Proof.
  destruct scatter_drawn_scales as (Hsx & Hsy & _).
  destruct scatter_positions as (Hxs & Hys).
  assert (Hpts : Forall (on_canvas (Z.of_nat (nrows blank_canvas))
                           (Z.of_nat (ncols blank_canvas)))
                   (rounded (zip [7; 10; 13]%Q [3; 6; 9]%Q)))
    by (repeat constructor; vm_compute; congruence).
  destruct (scatter_cells scatter_drawn (nums [1; 2; 3]) (nums [1; 2; 3])
              "o"%char blank_canvas _ _ _ _ wf_blank_canvas Hsx Hsy Hxs Hys Hpts)
    as (canvas' & Hd & _ & Hcells).
  exists canvas'. split; [exact Hd|].
  repeat split; rewrite Hcells by (simpl; lia); vm_compute; reflexivity.
Defined.

Lemma line_cells_witness :
  exists canvas',
    draw_line (nums [1; 2; 3]) (nums [1; 2; 3]) "*" blank_canvas scatter_drawn
      = (scatter_drawn, Ok canvas')
    /\ get_cell canvas' 6 7 = Some "*"%char
    /\ get_cell canvas' 3 10 = Some "*"%char
    /\ get_cell canvas' 0 13 = Some "*"%char
    /\ get_cell canvas' 0 7 = Some " "%char.
Proof.
  destruct scatter_drawn_scales as (Hsx & Hsy & _).
  destruct scatter_positions as (Hxs & Hys).
  assert (Hpts : Forall (on_canvas (Z.of_nat (nrows blank_canvas))
                           (Z.of_nat (ncols blank_canvas)))
                   (line_points [7; 10; 13]%Q [3; 6; 9]%Q))
    by (vm_compute; repeat constructor; congruence).
  destruct (line_cells scatter_drawn (nums [1; 2; 3]) (nums [1; 2; 3])
              "*"%char blank_canvas _ _ _ _ wf_blank_canvas Hsx Hsy Hxs Hys Hpts)
    as (canvas' & Hd & _ & Hcells).
  exists canvas'. split; [exact Hd|].
  repeat split; rewrite Hcells by (simpl; lia); vm_compute; reflexivity.
Defined.

Lemma point_off_canvas_witness :
  draw_scatter (nums [10]) (nums [1]) "o" blank_canvas scatter_drawn
    = (scatter_drawn, Raise IndexError).
Proof.
  destruct scatter_drawn_scales as (Hsx & Hsy & _).
  assert (Hxs : transform_seq (SpecHelpers.FittedLinear 0 5 4 19) (nums [10])
                = Ok [34]%Q) by (vm_compute; reflexivity).
  assert (Hys : transform_seq (SpecHelpers.FittedLinear 1 3 3 9) (nums [1])
                = Ok [3]%Q) by (vm_compute; reflexivity).
  assert (Hex : Exists (fun p => ~ on_canvas (Z.of_nat (nrows blank_canvas))
                                     (Z.of_nat (ncols blank_canvas)) p)
                  (rounded (zip [34]%Q [3]%Q))).
  { apply Exists_cons_hd. intros [[_ Hlt] _]. vm_compute in Hlt. discriminate. }
  exact (proj1 (point_off_canvas scatter_drawn (nums [10]) (nums [1]) "o"%char
                  blank_canvas _ _ _ _ wf_blank_canvas Hsx Hsy Hxs Hys) Hex).
Defined.

Lemma short_line_draws_nothing_witness :
  (draw_line (nums [2]) (nums [2]) "*" blank_canvas scatter_drawn).2
    = Ok blank_canvas.
Proof.
  assert (Hl : (length (nums [2%Z]) <= 1)%nat \/ (length (nums [2%Z]) <= 1)%nat)
    by (left; simpl; lia).
  pose proof (short_line_draws_nothing scatter_drawn (nums [2]) (nums [2])
                "*"%char blank_canvas Hl) as Hm.
  assert (Hok : is_ok (draw_line (nums [2]) (nums [2]) "*" blank_canvas
                         scatter_drawn).2 = true) by (vm_compute; reflexivity).
  destruct (draw_line (nums [2]) (nums [2]) "*" blank_canvas scatter_drawn).2
    as [canvas'|e]; [rewrite Hm; reflexivity|discriminate].
Defined.

Lemma hbar_cells_witness :
  exists canvas',
    draw_hbar (nums [1; 2; 3]) (nums [1; 2; 3]) "#" blank_canvas scatter_drawn
      = (scatter_drawn, Ok canvas')
    /\ get_cell canvas' 0 7 = Some "#"%char
    /\ get_cell canvas' 0 12 = Some "#"%char
    /\ get_cell canvas' 0 13 = Some " "%char
    /\ get_cell canvas' 3 9 = Some "#"%char
    /\ get_cell canvas' 6 7 = Some " "%char.
Proof.
  destruct scatter_drawn_scales as (Hsx & Hsy & _).
  destruct scatter_positions as (Hxs & Hys).
  assert (Hm : py_min (nums [1; 2; 3]) = Ok (VNum 1)) by (vm_compute; reflexivity).
  assert (Hb : transform (SpecHelpers.FittedLinear 0 5 4 19) (VNum 1) = Ok 7%Q)
    by (vm_compute; reflexivity).
  assert (Hpos : 0 <= py_int 7%Q) by (vm_compute; congruence).
  assert (Hpts : Forall (fun p : Q * Q =>
                           0 <= py_round p.1
                           /\ - Z.of_nat (nrows blank_canvas) <= py_round p.2
                              < Z.of_nat (nrows blank_canvas))
                   (zip [7; 10; 13]%Q [3; 6; 9]%Q))
    by (repeat constructor; vm_compute; congruence).
  destruct (hbar_cells scatter_drawn (nums [1; 2; 3]) (nums [1; 2; 3]) "#"%char
              blank_canvas _ _ _ _ _ _ wf_blank_canvas Hsx Hsy Hm Hb Hxs Hys
              Hpos Hpts)
    as (canvas' & Hd & _ & Hcells).
  exists canvas'. split; [exact Hd|].
  repeat split; rewrite Hcells by (simpl; lia); vm_compute; reflexivity.
Defined.

Lemma text_drawn_in_row_witness :
  exists canvas',
    _center_draw "ab" (row_cells 0 2 6) blank_canvas = Ok canvas'
    /\ segment canvas' 0 2 6 = chars "  ab  "
    /\ get_cell canvas' 0 8 = Some " "%char.
Proof.
  assert (Hs : shaped 10 20 blank_canvas)
    by (split; [exact wf_blank_canvas|split; reflexivity]).
  destruct (text_drawn_in_row Centered "ab" 10 20 blank_canvas 0 2 6 Hs
              ltac:(lia) ltac:(lia) ltac:(simpl; lia))
    as (canvas' & Hd & _ & Hseg & Hrest).
  exists canvas'. split; [exact Hd|]. split; [rewrite Hseg; reflexivity|].
  rewrite Hrest by lia. reflexivity.
Defined.

Lemma truncated_text_fits_witness :
  is_ok (_center_draw (str_upto "a title that is too long" 20)
           (row_cells 0 0 20) blank_canvas) = true
  /\ len (str_upto "a title that is too long" 20) = 20.
Proof.
  assert (Hn : 0 <= 20 <= Z.of_nat (length (row_cells 0 0 20)))
    by (simpl; lia).
  exact (truncated_text_fits Centered "a title that is too long" 20
           (row_cells 0 0 20) blank_canvas Hn).
Defined.

Lemma categorical_y_labels_unformattable_witness :
  (_yax_width ylabels_figure).2 = Raise ValueError
  /\ (draw ylabels_figure).2 = Raise ValueError.
Proof.
  assert (Hn : is_numerical (self_y ylabels_figure) = false)
    by (vm_compute; reflexivity).
  assert (Hin : In (VStr "a") (self_y ylabels_figure)) by (left; reflexivity).
  destruct (categorical_y_labels_unformattable ylabels_figure "a" Hn Hin
              eq_refl eq_refl eq_refl) as (Hw & _ & Hd).
  split; [exact Hw|].
  apply Hd; [simpl; lia|simpl; lia|reflexivity].
Defined.

Lemma y_tick_marks_witness :
  exists canvas',
    (_draw_y_axis blank_canvas scatter_drawn).2 = Ok canvas'
    /\ get_cell canvas' 1 3 = Some "+"%char
    /\ get_cell canvas' 0 3 = Some "|"%char
    /\ index 10 (- py_round 9%Q - 1) = Ok 0%nat.
Proof.
  destruct scatter_drawn_scales as (_ & Hsy & _ & Hty & Hw).
  assert (Hok : is_ok (_draw_y_axis blank_canvas scatter_drawn).2 = true)
    by (vm_compute; reflexivity).
  destruct (_draw_y_axis blank_canvas scatter_drawn) as [f' [canvas'|e]] eqn:Ed;
    [|discriminate].
  exists canvas'. split; [reflexivity|].
  destruct (y_tick_marks scatter_drawn f' blank_canvas canvas' _ _ 4
              wf_blank_canvas Hsy Hty Hw ltac:(lia) Ed)
    as (first & last & pstart & pend & positions
        & Efirst & Epstart & Elast & Epend & Epos & _ & Hcol & Hmarks).
  vm_compute in Efirst. injection Efirst as <-.
  vm_compute in Epstart. injection Epstart as <-.
  vm_compute in Elast. injection Elast as <-.
  vm_compute in Epend. injection Epend as <-.
  vm_compute in Epos. injection Epos as <-.
  split; [|split; [|reflexivity]].
  - destruct (Hmarks (VNum 3)) as (p & r & Ep & Hr & Hcell & _);
      [do 4 right; left; reflexivity|].
    vm_compute in Ep. injection Ep as <-.
    vm_compute in Hr. injection Hr as <-. exact Hcell.
  - refine (eq_trans (Hcol 0%nat _) _); [simpl; lia|]. vm_compute. reflexivity.
Defined.

Lemma x_tick_marks_witness :
  exists canvas',
    (_draw_x_axis blank_canvas scatter_drawn).2 = Ok canvas'
    /\ get_cell canvas' 8 4 = Some "+"%char
    /\ get_cell canvas' 8 19 = Some "+"%char
    /\ get_cell canvas' 8 5 = Some "-"%char.
Proof.
  destruct scatter_drawn_scales as (Hsx & _ & Htx & _).
  assert (Hok : is_ok (_draw_x_axis blank_canvas scatter_drawn).2 = true)
    by (vm_compute; reflexivity).
  destruct (_draw_x_axis blank_canvas scatter_drawn) as [f' [canvas'|e]] eqn:Ed;
    [|discriminate].
  exists canvas'. split; [reflexivity|].
  destruct (x_tick_marks scatter_drawn f' blank_canvas canvas' _ _
              wf_blank_canvas Hsx Htx Ed)
    as (_ & R & first & last & pstart & pend & positions
        & HR & _ & Efirst & Epstart & Elast & Epend & Epos & Hrow & Hmarks).
  vm_compute in HR. injection HR as <-.
  vm_compute in Efirst. injection Efirst as <-.
  vm_compute in Epstart. injection Epstart as <-.
  vm_compute in Elast. injection Elast as <-.
  vm_compute in Epend. injection Epend as <-.
  vm_compute in Epos. injection Epos as <-.
  repeat split.
  - destruct (Hmarks (VNum 0)) as (p & c & Ep & Hc & Hcell); [left; reflexivity|].
    vm_compute in Ep. injection Ep as <-.
    vm_compute in Hc. injection Hc as <-. exact Hcell.
  - destruct (Hmarks (VNum 5)) as (p & c & Ep & Hc & Hcell);
      [right; left; reflexivity|].
    vm_compute in Ep. injection Ep as <-.
    vm_compute in Hc. injection Hc as <-. exact Hcell.
  - rewrite (Hrow 5%nat) by (simpl; lia). vm_compute. reflexivity.
Defined.

Lemma y_labels_fit_witness :
  (_yax_width scatter_figure).2 = Ok 4
  /\ forall v,
       In v [VNum 1; VNum (3 # 2); VNum 2; VNum (5 # 2); VNum 3] ->
       exists label, _fmt v = Ok label /\ len label <= 3.
Proof.
  pose proof (y_labels_fit scatter_figure reachable_scatter_figure) as Hm.
  assert (E2 : (_yax_width scatter_figure).2 = Ok 4) by (vm_compute; reflexivity).
  split; [exact E2|]. rewrite E2 in Hm. destruct Hm as (tv & Htv & Hfit).
  assert (Et : cached_ytick_values (_yax_width scatter_figure).1
               = Some (TickList [VNum 1; VNum (3 # 2); VNum 2; VNum (5 # 2); VNum 3]))
    by (vm_compute; reflexivity).
  rewrite Et in Htv. injection Htv as <-. exact Hfit.
Defined.

Lemma nice_step_fits (fits : Q -> bool) (fuel : nat) :
  forall k c, SpecHelpers.nice_step fuel k fits = Some c -> fits c = true.
Proof.
  induction fuel as [|fuel IH]; intros k c; cbn [SpecHelpers.nice_step];
    [discriminate|].
  match goal with |- context [List.find fits ?l] =>
    destruct (List.find fits l) as [c0|] eqn:Ef end.
  - intros [= <-]. exact (proj2 (List.find_some _ _ Ef)).
  - apply IH.
Qed.

Lemma spec_selector_bounded : selector_bounded.
Proof.
  intros lo hi most t.
  change (SpecHelpers.best_ticks lo hi most = Ok t
          -> Z.of_nat (length t) <= Z.max most 2).
  unfold SpecHelpers.best_ticks.
  destruct lo as [l|s]; cbn [SpecHelpers.as_number rbind]; [|discriminate].
  destruct hi as [h|s]; cbn [SpecHelpers.as_number rbind]; [|discriminate].
  destruct (Qeq_bool l h); [intros [= <-]; cbn [length]; lia|].
  destruct (Qle_bool h l); [discriminate|].
  match goal with |- context [SpecHelpers.nice_step ?n ?k ?fits] =>
    destruct (SpecHelpers.nice_step n k fits) as [c|] eqn:Es;
    [apply nice_step_fits in Es|discriminate] end.
  intros [= <-]. rewrite length_map, length_seq.
  apply Z.leb_le in Es. lia.
Qed.



(** The bar plot registered after the first draw has its least y value, 0,
    at position 0 of the y scale that the first draw cached: the call of
    the plot leaves every cell as it was, and the rendered figure shows no
    [#].  On a figure that is drawn for the first time the bars are
    there. *)
Lemma bar_anchored_at_series_minimum_witness :
  (exists canvas0 canvas',
     (draw late_bar_figure).2 = Ok canvas'
     /\ cached_yscale (draw late_bar_figure).1
        = Some (SpecHelpers.FittedLinear 1 3 3 9)
     /\ py_min (nums [0; 2; 3]) = Ok (VNum 0)
     /\ transform (SpecHelpers.FittedLinear 1 3 3 9) (VNum 0) = Ok 0%Q
     /\ (forall r c, (r < 10)%nat -> (c < 20)%nat ->
           get_cell canvas' r c = get_cell canvas0 r c)
     /\ (__repr__ late_bar_figure).2
        = Ok (join_lines
                [ "   |         o      ";
                  "  3+                ";
                  "2.5+                ";
                  "   |      o         ";
                  "  2+                ";
                  "   |                ";
                  "1.5+   o            ";
                  "  1+                ";
                  "    +--------------+";
                  "    0              5" ]))
  /\ (exists canvas',
       (draw bar_figure).2 = Ok canvas'
       /\ get_cell canvas' 0 13 = Some "#"%char
       /\ get_cell canvas' 6 13 = Some "#"%char
       /\ get_cell canvas' 6 7 = Some "#"%char).
Proof.
  split.
  - assert (Hok : is_ok (draw late_bar_figure).2 = true)
      by (vm_compute; reflexivity).
    assert (Hsy : cached_yscale (draw late_bar_figure).1
                  = Some (SpecHelpers.FittedLinear 1 3 3 9))
      by (vm_compute; reflexivity).
    destruct (draw late_bar_figure) as [f' [canvas'|e]] eqn:Ed; [|discriminate].
    cbn [snd fst] in Hsy |- *.
    assert (Hh : height late_bar_figure = 10) by (vm_compute; reflexivity).
    assert (Hw : width late_bar_figure = 20) by (vm_compute; reflexivity).
    destruct (bar_anchored_at_series_minimum late_bar_figure f' canvas'
                [{| func := Scatter; keywords_x := nums [1; 2; 3];
                    keywords_y := nums [1; 2; 3]; keywords_marker := "o" |}]
                {| func := Bar; keywords_x := nums [1; 2; 3];
                   keywords_y := nums [0; 2; 3]; keywords_marker := "#" |}
                [] Ed)
      as (sx & sy & m & bottom & xs & ys & f0 & f1 & canvas0 & canvas1
          & _ & Hsy' & Hm & Hb & _ & _ & _ & _ & _ & _ & _ & _ & Hlast & _ & Hzero);
      [vm_compute; reflexivity|reflexivity|].
    rewrite Hsy in Hsy'. injection Hsy' as <-.
    cbn [keywords_y] in Hm.
    assert (Hm0 : py_min (nums [0; 2; 3]) = Ok (VNum 0)) by (vm_compute; reflexivity).
    rewrite Hm0 in Hm. injection Hm as <-.
    assert (Hb0 : transform (SpecHelpers.FittedLinear 1 3 3 9) (VNum 0) = Ok 0%Q)
      by (vm_compute; reflexivity).
    rewrite Hb0 in Hb. injection Hb as <-.
    rewrite Hh, Hw in Hzero.
    rewrite (Hlast eq_refl ltac:(vm_compute; reflexivity)).
    exists canvas0, canvas1. split; [reflexivity|]. split; [exact Hsy|].
    split; [exact Hm0|]. split; [exact Hb0|].
    split; [exact (Hzero eq_refl)|]. vm_compute. reflexivity.
  - assert (Hok : is_ok (draw bar_figure).2 = true) by (vm_compute; reflexivity).
    assert (Hsy : cached_yscale (draw bar_figure).1
                  = Some (SpecHelpers.FittedLinear 1 3 3 9))
      by (vm_compute; reflexivity).
    assert (Hsx : cached_xscale (draw bar_figure).1
                  = Some (SpecHelpers.FittedLinear 0 5 4 19))
      by (vm_compute; reflexivity).
    destruct (draw bar_figure) as [f' [canvas'|e]] eqn:Ed; [|discriminate].
    cbn [snd fst] in Hsy, Hsx |- *.
    assert (Hh : height bar_figure = 10) by (vm_compute; reflexivity).
    assert (Hw : width bar_figure = 20) by (vm_compute; reflexivity).
    destruct (bar_anchored_at_series_minimum bar_figure f' canvas' []
                {| func := Bar; keywords_x := nums [1; 2; 3];
                   keywords_y := nums [1; 2; 3]; keywords_marker := "#" |}
                [] Ed)
      as (sx & sy & m & bottom & xs & ys & f0 & f1 & canvas0 & canvas1
          & Hsx' & Hsy' & Hm & Hb & Hxs & Hys & _ & _ & _ & _ & _ & Hcells
          & Hlast & _ & _);
      [vm_compute; reflexivity|reflexivity|].
    rewrite Hsy in Hsy'. injection Hsy' as <-.
    rewrite Hsx in Hsx'. injection Hsx' as <-.
    cbn [keywords_y keywords_x keywords_marker] in *.
    assert (Hm0 : py_min (nums [1; 2; 3]) = Ok (VNum 1)) by (vm_compute; reflexivity).
    rewrite Hm0 in Hm. injection Hm as <-.
    assert (Hb0 : transform (SpecHelpers.FittedLinear 1 3 3 9) (VNum 1) = Ok 3%Q)
      by (vm_compute; reflexivity).
    rewrite Hb0 in Hb. injection Hb as <-.
    assert (Hxs0 : transform_seq (SpecHelpers.FittedLinear 0 5 4 19) (nums [1; 2; 3])
                   = Ok [7; 10; 13]%Q) by (vm_compute; reflexivity).
    rewrite Hxs0 in Hxs. injection Hxs as <-.
    assert (Hys0 : transform_seq (SpecHelpers.FittedLinear 1 3 3 9) (nums [1; 2; 3])
                   = Ok [3; 6; 9]%Q) by (vm_compute; reflexivity).
    rewrite Hys0 in Hys. injection Hys as <-.
    rewrite Hh, Hw in Hcells.
    rewrite (Hlast eq_refl ltac:(vm_compute; reflexivity)).
    exists canvas1. split; [reflexivity|].
    split; [|split].
    + refine (eq_trans (Hcells 0%nat 13%nat _ _) _); [simpl; lia|simpl; lia|].
      vm_compute. reflexivity.
    + refine (eq_trans (Hcells 6%nat 13%nat _ _) _); [simpl; lia|simpl; lia|].
      vm_compute. reflexivity.
    + refine (eq_trans (Hcells 6%nat 7%nat _ _) _); [simpl; lia|simpl; lia|].
      vm_compute. reflexivity.
Defined.

Lemma plain_lines_figure : plain_figure lines_figure.
Proof.
  split; [intros s E; discriminate E|]. split; [intros s E; discriminate E|].
  split; [intros s E; discriminate E|]. split.
  - repeat constructor; discriminate.
  - repeat constructor; discriminate.
Defined.



End FurtherRuns.
